(** * Secure device maintenance logs: the key-derivation / record-cipher
      utilities, the DeviceMaintenance contract and the client hook.

    The development follows the three source components:
    - [ui/src/utils/crypto.ts]  (hex codecs, key derivation, encrypt/decrypt,
      the two storage codecs)                       -> module [Crypto];
    - [contracts/DeviceMaintenance.sol]              -> module [DeviceMaintenance];
    - [ui/src/hooks/useDeviceContract.ts]            -> module [Hook].

    JavaScript strings are sequences of UTF-16 code units and [Uint8Array]s
    are sequences of octets; both are lists of [Z].  The platform functions
    the utilities call ([TextEncoder], [TextDecoder], [parseInt],
    [Number.prototype.toString], [String.prototype.split] ...) are written
    out in module [JS] after ECMA-262 and the WHATWG Encoding Standard. *)

From Stdlib Require Import ZArith NArith List String Ascii Lia Bool.
From Stdlib Require Import DecimalString HexadecimalString.
From Stdlib Require Import DecimalPos DecimalN.
From stdpp Require Import base gmap strings list.

Open Scope Z_scope.

(** ** JavaScript values used by the utilities *)
Module JS.

(** A string literal of the source (ASCII) as code units. *)
Definition js (s : string) : list Z :=
  (fun a => Z.of_N (N_of_ascii a)) <$> list_ascii_of_string s.

(** [s.startsWith(p)] *)
Fixpoint startsWith (s p : list Z) : bool :=
  match p, s with
  | [], _ => true
  | _ :: _, [] => false
  | x :: p', y :: s' => (x =? y) && startsWith s' p'
  end.

(** [s.slice(start)] and [s.slice(0, stop)] for non-negative indices,
    on strings and on typed arrays. *)
Definition slice_from {A} (start : nat) (s : list A) : list A := drop start s.
Definition slice_to {A} (stop : nat) (s : list A) : list A := take stop s.

(** [s.substr(start, len)] *)
Definition substr (s : list Z) (start len : nat) : list Z :=
  take len (drop start s).

(** [s.includes(c)] for a one-unit needle *)
Definition includes (s : list Z) (c : Z) : bool := existsb (Z.eqb c) s.

(** [s.split(c)] for a one-unit separator: always at least one part. *)
Fixpoint split (sep : Z) (s : list Z) : list (list Z) :=
  match s with
  | [] => [[]]
  | c :: s' =>
      if c =? sep then [] :: split sep s'
      else match split sep s' with
           | p :: ps => (c :: p) :: ps
           | [] => [[c]]
           end
  end.

(** [s.replace(c, '')] with a string pattern: only the first occurrence. *)
Fixpoint replace_first (c : Z) (s : list Z) : list Z :=
  match s with
  | [] => []
  | x :: s' => if x =? c then s' else x :: replace_first c s'
  end.

(** [s.toLowerCase()].  The case mapping of the letters A-Z is written
    out; code units outside ASCII are kept (their Unicode case mapping is
    not modelled: an identity is a hex string with an optional prefix). *)
Definition lowerUnit (c : Z) : Z :=
  if (65 <=? c) && (c <=? 90) then c + 32 else c.
Definition toLowerCase (s : list Z) : list Z := lowerUnit <$> s.

(** [n.toString()] of a non-negative integer: decimal digits. *)
Definition toString10 (n : N) : list Z :=
  js (DecimalString.NilZero.string_of_uint (N.to_uint n)).

(** [b.toString(16)] of a non-negative integer: lowercase hex digits. *)
Definition toString16 (b : Z) : list Z :=
  js (HexadecimalString.NilZero.string_of_uint (N.to_hex_uint (Z.to_N b))).

(** [s.padStart(n, '0')] *)
Definition padStart (n : nat) (s : list Z) : list Z :=
  repeat 48 (n - length s)%nat ++ s.

(** *** parseInt(s, 16), ECMA-262 19.2.5 *)

(** WhiteSpace and LineTerminator code units skipped by [parseInt]. *)
Definition isWhiteSpace (c : Z) : bool :=
  (c =? 9) || (c =? 10) || (c =? 11) || (c =? 12) || (c =? 13) || (c =? 32)
  || (c =? 160) || (c =? 5760) || ((8192 <=? c) && (c <=? 8202))
  || (c =? 8232) || (c =? 8233) || (c =? 8239) || (c =? 8287)
  || (c =? 12288) || (c =? 65279).

Fixpoint trimStart (s : list Z) : list Z :=
  match s with
  | c :: s' => if isWhiteSpace c then trimStart s' else s
  | [] => []
  end.

(** Value of a radix-16 digit, if the unit is one. *)
Definition hexDigit (c : Z) : option Z :=
  if (48 <=? c) && (c <=? 57) then Some (c - 48)
  else if (97 <=? c) && (c <=? 102) then Some (c - 87)
  else if (65 <=? c) && (c <=? 70) then Some (c - 55)
  else None.

(** The longest prefix of radix-16 digits, folded to its value; [None]
    when that prefix is empty. *)
Fixpoint hexPrefix (acc : option Z) (s : list Z) : option Z :=
  match s with
  | c :: s' =>
      match hexDigit c with
      | Some d => hexPrefix (Some (16 * default 0 acc + d)) s'
      | None => acc
      end
  | [] => acc
  end.

(** [parseInt(s, 16)]; [None] is NaN. *)
Definition parseInt16 (s : list Z) : option Z :=
  let s1 := trimStart s in
  let '(sign, s2) :=
    match s1 with
    | 45 :: r => (-1, r)
    | 43 :: r => (1, r)
    | _ => (1, s1)
    end in
  let s3 :=
    match s2 with
    | 48 :: 120 :: r => r
    | 48 :: 88 :: r => r
    | _ => s2
    end in
  (fun v => sign * v) <$> hexPrefix None s3.

(** Storing a number in a [Uint8Array] element (ToUint8): NaN becomes 0,
    an integer is taken modulo 256. *)
Definition ToUint8 (v : option Z) : Z := default 0 v `mod` 256.

(** *** TextEncoder / TextDecoder (UTF-8), WHATWG Encoding Standard *)

Definition isHighSurrogate (c : Z) : bool := (0xD800 <=? c) && (c <=? 0xDBFF).
Definition isLowSurrogate (c : Z) : bool := (0xDC00 <=? c) && (c <=? 0xDFFF).

(** [String.prototype.isWellFormed]: no lone surrogate. *)
Fixpoint isWellFormed (s : list Z) : bool :=
  match s with
  | [] => true
  | c :: s' =>
      if isHighSurrogate c then
        match s' with
        | d :: s'' => isLowSurrogate d && isWellFormed s''
        | [] => false
        end
      else negb (isLowSurrogate c) && isWellFormed s'
  end.

(** Conversion of a string to scalar values (USVString): a surrogate pair
    is one code point, a lone surrogate becomes U+FFFD. *)
Fixpoint toScalarValues (s : list Z) : list Z :=
  match s with
  | [] => []
  | c :: s' =>
      if isHighSurrogate c then
        match s' with
        | d :: s'' =>
            if isLowSurrogate d
            then (0x10000 + Z.shiftl (c - 0xD800) 10 + (d - 0xDC00)) :: toScalarValues s''
            else 0xFFFD :: toScalarValues s'
        | [] => [0xFFFD]
        end
      else if isLowSurrogate c then 0xFFFD :: toScalarValues s'
      else c :: toScalarValues s'
  end.

(** The code units of a code point. *)
Definition codeUnits (cp : Z) : list Z :=
  if cp <? 0x10000 then [cp]
  else [0xD800 + Z.shiftr (cp - 0x10000) 10; 0xDC00 + Z.land (cp - 0x10000) 0x3FF].

(** UTF-8 encoder, one code point. *)
Definition utf8Encode (cp : Z) : list Z :=
  if cp <=? 0x7F then [cp]
  else if cp <=? 0x7FF then
    [Z.shiftr cp 6 + 0xC0; Z.lor 0x80 (Z.land cp 0x3F)]
  else if cp <=? 0xFFFF then
    [Z.shiftr cp 12 + 0xE0; Z.lor 0x80 (Z.land (Z.shiftr cp 6) 0x3F);
     Z.lor 0x80 (Z.land cp 0x3F)]
  else
    [Z.shiftr cp 18 + 0xF0; Z.lor 0x80 (Z.land (Z.shiftr cp 12) 0x3F);
     Z.lor 0x80 (Z.land (Z.shiftr cp 6) 0x3F); Z.lor 0x80 (Z.land cp 0x3F)].

(** [new TextEncoder().encode(s)] *)
Definition TextEncoder_encode (s : list Z) : list Z :=
  flat_map utf8Encode (toScalarValues s).

(** State of the UTF-8 decoder. *)
Record Utf8Decoder := mkDecoder {
  codePoint : Z;
  bytesSeen : Z;
  bytesNeeded : Z;
  lowerBoundary : Z;
  upperBoundary : Z
}.

Definition decoderInit : Utf8Decoder := mkDecoder 0 0 0 0x80 0xBF.

(** A byte read with no sequence pending: a code point to emit (U+FFFD
    for a byte that starts nothing) or the state of a started sequence. *)
Definition leadByte (b : Z) : Z + Utf8Decoder :=
  if (0 <=? b) && (b <=? 0x7F) then inl b
  else if (0xC2 <=? b) && (b <=? 0xDF) then
    inr (mkDecoder (Z.land b 0x1F) 0 1 0x80 0xBF)
  else if (0xE0 <=? b) && (b <=? 0xEF) then
    inr (mkDecoder (Z.land b 0xF) 0 2
           (if b =? 0xE0 then 0xA0 else 0x80)
           (if b =? 0xED then 0x9F else 0xBF))
  else if (0xF0 <=? b) && (b <=? 0xF4) then
    inr (mkDecoder (Z.land b 0x7) 0 3
           (if b =? 0xF0 then 0x90 else 0x80)
           (if b =? 0xF4 then 0x8F else 0xBF))
  else inl 0xFFFD.

(** The decoder run over a byte sequence (non-fatal: errors emit U+FFFD;
    a byte that breaks a pending sequence is read again as a lead). *)
Fixpoint utf8Decode (st : Utf8Decoder) (bs : list Z) : list Z :=
  match bs with
  | [] => if bytesNeeded st =? 0 then [] else [0xFFFD]
  | b :: bs' =>
      if bytesNeeded st =? 0 then
        match leadByte b with
        | inl cp => cp :: utf8Decode decoderInit bs'
        | inr st' => utf8Decode st' bs'
        end
      else if (lowerBoundary st <=? b) && (b <=? upperBoundary st) then
        let cp := Z.lor (Z.shiftl (codePoint st) 6) (Z.land b 0x3F) in
        if bytesSeen st + 1 =? bytesNeeded st
        then cp :: utf8Decode decoderInit bs'
        else utf8Decode (mkDecoder cp (bytesSeen st + 1) (bytesNeeded st) 0x80 0xBF) bs'
      else
        0xFFFD ::
        match leadByte b with
        | inl cp => cp :: utf8Decode decoderInit bs'
        | inr st' => utf8Decode st' bs'
        end
  end.

(** A decoder made without [ignoreBOM] drops one leading U+FEFF. *)
Definition stripBOM (cps : list Z) : list Z :=
  match cps with
  | 0xFEFF :: r => r
  | _ => cps
  end.

(** [new TextDecoder().decode(bytes)] *)
Definition TextDecoder_decode (bs : list Z) : list Z :=
  flat_map codeUnits (stripBOM (utf8Decode decoderInit bs)).

(** *** Values met by the client hook *)

(** [s.trim()]: white space and line terminators removed at both ends. *)
Definition trim (s : list Z) : list Z := rev (trimStart (rev (trimStart s))).

(** A Number, as far as an integer type of the ABI tells numbers apart:
    an integral value, or none (NaN, an infinity, a fraction). *)
Inductive number :=
| Integer (z : Z)
| NotInteger.

(** ToNumber of a string that reads [0x] and then radix-16 digits only
    (StringToNumber on a HexIntegerLiteral): the value of the digits;
    [0x] alone is no literal and gives NaN ([None]).  A value above 2^53
    is rounded to a Number, which is left out: rounding does not move a
    value across 2^53 - 1, the one bound it is compared with below. *)
Definition hexLiteralToNumber (value : list Z) : option Z :=
  hexPrefix None (drop 2 value).

(** [new Uint8Array(value)] for such a string.  The argument is no
    object, so it is the length of the new array, ToIndex(value): NaN
    counts as 0, an integer above 2^53 - 1 is a RangeError, and so is a
    length for which the platform creates no data block ([allocatable]);
    the elements of the new array are 0.  [None] is the RangeError. *)
Definition Uint8Array_ofHexLiteral (allocatable : Z -> bool) (value : list Z)
    : option (list Z) :=
  let integer := default 0 (hexLiteralToNumber value) in
  if (integer <=? 2 ^ 53 - 1) && allocatable integer
  then Some (repeat 0 (Z.to_nat integer))
  else None.

End JS.

(** ** ui/src/utils/crypto.ts *)
Module Crypto.
Import JS.

(** Exceptions of the module.  The source throws [Error] objects whose
    message embeds the message of the caught one; the constructors keep
    that nesting. *)
Inductive exn :=
| MissingSeparator   (* Error('Invalid encrypted data format: missing IV separator') *)
| ExpectedTwoParts   (* Error('Invalid encrypted data format: expected iv:encryptedData') *)
| OperationError     (* the DOMException of a rejected crypto.subtle call *)
| EncryptionFailed (cause : exn)   (* Error(`Encryption failed: ${cause.message}`) *)
| DecryptionFailed (cause : exn).  (* Error(`Decryption failed: ${cause.message}`) *)

Inductive result (A : Type) :=
| Ok (a : A)
| Throw (e : exn).
Arguments Ok {A} a.
Arguments Throw {A} e.

Definition bind {A B} (r : result A) (k : A -> result B) : result B :=
  match r with
  | Ok a => k a
  | Throw e => Throw e
  end.

(** [try { body } catch (error) { throw new Error(wrap error) }] *)
Definition try_catch {A} (body : result A) (wrap : exn -> exn) : result A :=
  match body with
  | Ok a => Ok a
  | Throw e => Throw (wrap e)
  end.

(** A crypto.subtle promise: a rejection is an OperationError. *)
Definition await {A} (p : option A) : result A :=
  match p with
  | Some a => Ok a
  | None => Throw OperationError
  end.

Notation "'let*' x ':=' r 'in' k" := (bind r (fun x => k))
  (at level 10, x name, r at level 100, k at level 200).

(** [hexToBytes]: one array element per two code units, each parsed on
    its own; an odd last unit is dropped by the array length. *)
Definition hexToBytes (hex : list Z) : list Z :=
  let n := if startsWith hex (js "0x") then slice_from 2 hex else hex in
  (fun i => ToUint8 (parseInt16 (substr n (i * 2) 2)))
    <$> seq 0 (length n / 2)%nat.

(** [bytesToHex] *)
Definition bytesToHex (bytes : list Z) : list Z :=
  concat ((fun b => padStart 2 (toString16 b)) <$> bytes).

Definition stringToArrayBuffer (str : list Z) : list Z := TextEncoder_encode str.
Definition arrayBufferToString (buffer : list Z) : list Z := TextDecoder_decode buffer.

(** The key objects of the Web Crypto API are opaque and not extractable;
    they are kept as the record of the arguments they were made from. *)
Record BaseKey := mkBaseKey {
  base_format : string;
  base_keyData : list Z;
  base_algorithm : string;
  base_extractable : bool;
  base_usages : list string
}.

Record CryptoKey := mkCryptoKey {
  kdf_name : string;
  kdf_salt : list Z;
  kdf_iterations : Z;
  kdf_hash : string;
  kdf_baseKey : BaseKey;
  key_name : string;
  key_length : Z;
  key_extractable : bool;
  key_usages : list string
}.

(** [crypto.subtle.importKey] and [crypto.subtle.deriveKey] with the
    arguments of the source. *)
Definition importKey (format : string) (keyData : list Z) (name : string)
    (extractable : bool) (usages : list string) : BaseKey :=
  mkBaseKey format keyData name extractable usages.

Definition deriveKey (name : string) (salt : list Z) (iterations : Z)
    (hash : string) (baseKey : BaseKey) (derivedName : string) (len : Z)
    (extractable : bool) (usages : list string) : CryptoKey :=
  mkCryptoKey name salt iterations hash baseKey derivedName len extractable usages.

(** [deriveKeyFromAddress] *)
Definition deriveKeyFromAddress (address : list Z) (chainId : N) : result CryptoKey :=
  let normalizedAddress := toLowerCase address in
  let normalizedAddress :=
    if startsWith normalizedAddress (js "0x")
    then slice_from 2 normalizedAddress else normalizedAddress in
  let keyMaterial := normalizedAddress ++ toString10 chainId in
  let keyMaterialBuffer := stringToArrayBuffer keyMaterial in
  let baseKey :=
    importKey "raw" keyMaterialBuffer "PBKDF2" false ["deriveKey"%string] in
  let salt := stringToArrayBuffer (js "secure-device-maintenance-salt") in
  let key :=
    deriveKey "PBKDF2" salt 1000 "SHA-256" baseKey "AES-GCM" 256 false
      ["encrypt"%string; "decrypt"%string] in
  Ok key.

Section Subtle.
(** [crypto.subtle.encrypt] and [crypto.subtle.decrypt] for
    [{ name: 'AES-GCM', iv }]: key, iv, data; [None] is a rejected
    promise. *)
Variable subtle_encrypt : CryptoKey -> list Z -> list Z -> option (list Z).
Variable subtle_decrypt : CryptoKey -> list Z -> list Z -> option (list Z).

(** [encryptString]; [iv] is the array filled by
    [crypto.getRandomValues(new Uint8Array(12))]. *)
Definition encryptString (iv : list Z) (plaintext address : list Z)
    (chainId : N) : result (list Z) :=
  try_catch
    (let* key := deriveKeyFromAddress address chainId in
     let plaintextBuffer := stringToArrayBuffer plaintext in
     let* encrypted := await (subtle_encrypt key iv plaintextBuffer) in
     let ivHex := bytesToHex iv in
     let encryptedHex := bytesToHex encrypted in
     Ok (ivHex ++ js ":" ++ encryptedHex))
    EncryptionFailed.

(** [decryptString] *)
Definition decryptString (encryptedData address : list Z) (chainId : N)
    : result (list Z) :=
  try_catch
    (if negb (includes encryptedData 58) then Throw MissingSeparator
     else
       let parts := split 58 encryptedData in
       match parts with
       | [ivHex; encryptedHex] =>
           let iv := hexToBytes ivHex in
           let encryptedBytes := hexToBytes encryptedHex in
           let* key := deriveKeyFromAddress address chainId in
           let* decrypted := await (subtle_decrypt key iv encryptedBytes) in
           Ok (arrayBufferToString decrypted)
       | _ => Throw ExpectedTwoParts
       end)
    DecryptionFailed.
End Subtle.

(** [encryptedStringToBytes] *)
Definition encryptedStringToBytes (encryptedData : list Z) : list Z :=
  let hexString := replace_first 58 encryptedData in
  hexToBytes hexString.

(** [bytesToEncryptedString]; [ivLength] defaults to 12 at the call sites. *)
Definition bytesToEncryptedString (bytes : list Z) (ivLength : nat) : list Z :=
  let iv := slice_to ivLength bytes in
  let encrypted := slice_from ivLength bytes in
  bytesToHex iv ++ js ":" ++ bytesToHex encrypted.

(** The error names of the specification, as classes of exceptions. *)
Definition MalformedEnvelope (e : exn) : Prop :=
  e = DecryptionFailed MissingSeparator \/ e = DecryptionFailed ExpectedTwoParts.
Definition AuthenticationFailure (e : exn) : Prop :=
  e = DecryptionFailed OperationError.

End Crypto.

(** ** contracts/DeviceMaintenance.sol *)
Module DeviceMaintenance.

Inductive DeviceStatus := Operational | Maintenance | Critical.

(** [address]: a 160-bit number; [address(0)] is [0]. *)
Abbreviation address := N.

Record Device := mkDevice {
  name : string;
  deviceType : string;
  status : DeviceStatus;
  lastMaintenance : N;
  nextCalibration : N;
  encryptedNotes : list Z;
  encryptedCalibration : list Z;
  exists_ : bool
}.

(** The value of a mapping slot that was never written. *)
Definition Device_zero : Device :=
  mkDevice EmptyString EmptyString Operational 0 0 [] [] false.

(** Storage of the contract. *)
Record State := mkState {
  devices : gmap string Device;
  authorizedTechnicians : gmap N bool;
  owner : address
}.

(** [devices[deviceId]] and [authorizedTechnicians[a]] as read by the code. *)
Definition device_at (s : State) (deviceId : string) : Device :=
  default Device_zero (devices s !! deviceId).
Definition technician_at (s : State) (a : address) : bool :=
  default false (authorizedTechnicians s !! a).

(** An [emit] statement with the values of its arguments.  (In the log
    entry an indexed argument of type [string] is a topic that holds the
    hash of the string: see [Ledger.topics].) *)
Inductive Event :=
| DeviceRegistered (deviceId name : string) (technician : address)
| MaintenanceUpdated (deviceId : string) (technician : address) (timestamp : N)
| TechnicianAuthorized (technician by_ : address)
| TechnicianRevoked (technician by_ : address).

(** Values returned to the caller. *)
Inductive Returned :=
| RetNone
| RetBool (b : bool)
| RetAddress (a : address)
| RetDeviceInfo (name deviceType : string) (status : DeviceStatus)
    (lastMaintenance nextCalibration : N)
| RetRecords (encryptedNotes encryptedCalibration : list Z)
| RetDevice (name deviceType : string) (status : DeviceStatus)
    (lastMaintenance nextCalibration : N)
    (encryptedNotes encryptedCalibration : list Z) (exists_ : bool).

(** A call either succeeds with a new storage, a return value and its
    logs, or reverts with the reason string of the failed [require]. *)
Inductive Outcome :=
| Success (s : State) (ret : Returned) (logs : list Event)
| Revert (reason : string).

Record Env := mkEnv {
  msg_sender : address;
  block_timestamp : N
}.

(** [require(cond, reason); rest] *)
Definition require (cond : bool) (reason : string) (rest : Outcome) : Outcome :=
  if cond then rest else Revert reason.

(** [modifier onlyOwner] *)
Definition onlyOwner (s : State) (env : Env) (body : Outcome) : Outcome :=
  require (msg_sender env =? owner s)%N "Only owner can perform this action" body.

(** [modifier onlyAuthorized] *)
Definition onlyAuthorized (s : State) (env : Env) (body : Outcome) : Outcome :=
  require (technician_at s (msg_sender env) || (msg_sender env =? owner s)%N)
    "Not authorized technician" body.

(** [constructor()] run by [deployer] *)
Definition constructor (deployer : address) : State :=
  mkState ∅ (<[deployer := true]> ∅) deployer.

Definition registerDevice (s : State) (env : Env)
    (deviceId name deviceType : string) (status : DeviceStatus)
    (lastMaintenance nextCalibration : N)
    (encryptedNotes encryptedCalibration : list Z) : Outcome :=
  onlyAuthorized s env
    (require (negb (exists_ (device_at s deviceId))) "Device already exists"
    (require (0 <? length encryptedNotes)%nat "Encrypted notes cannot be empty"
    (require (0 <? length encryptedCalibration)%nat
       "Encrypted calibration cannot be empty"
       (Success
          (mkState
             (<[deviceId :=
                  mkDevice name deviceType status lastMaintenance
                    nextCalibration encryptedNotes encryptedCalibration true]>
                (devices s))
             (authorizedTechnicians s) (owner s))
          RetNone
          [DeviceRegistered deviceId name (msg_sender env)])))).

Definition updateMaintenance (s : State) (env : Env)
    (deviceId : string) (status : DeviceStatus)
    (lastMaintenance nextCalibration : N)
    (encryptedNotes encryptedCalibration : list Z) : Outcome :=
  onlyAuthorized s env
    (require (exists_ (device_at s deviceId)) "Device does not exist"
    (require (0 <? length encryptedNotes)%nat "Encrypted notes cannot be empty"
    (require (0 <? length encryptedCalibration)%nat
       "Encrypted calibration cannot be empty"
       (let d := device_at s deviceId in
        Success
          (mkState
             (<[deviceId :=
                  mkDevice (name d) (deviceType d) status lastMaintenance
                    nextCalibration encryptedNotes encryptedCalibration
                    (exists_ d)]>
                (devices s))
             (authorizedTechnicians s) (owner s))
          RetNone
          [MaintenanceUpdated deviceId (msg_sender env) (block_timestamp env)])))).

Definition getDeviceInfo (s : State) (deviceId : string) : Outcome :=
  require (exists_ (device_at s deviceId)) "Device does not exist"
    (let device := device_at s deviceId in
     Success s
       (RetDeviceInfo (name device) (deviceType device) (status device)
          (lastMaintenance device) (nextCalibration device))
       []).

Definition getEncryptedRecords (s : State) (env : Env) (deviceId : string) : Outcome :=
  onlyAuthorized s env
    (require (exists_ (device_at s deviceId)) "Device does not exist"
       (let device := device_at s deviceId in
        Success s
          (RetRecords (encryptedNotes device) (encryptedCalibration device))
          [])).

Definition authorizeTechnician (s : State) (env : Env) (technician : address) : Outcome :=
  onlyOwner s env
    (require (negb (technician =? 0)%N) "Invalid address"
    (require (negb (technician_at s technician)) "Technician already authorized"
       (Success
          (mkState (devices s)
             (<[technician := true]> (authorizedTechnicians s)) (owner s))
          RetNone
          [TechnicianAuthorized technician (msg_sender env)]))).

Definition revokeTechnician (s : State) (env : Env) (technician : address) : Outcome :=
  onlyOwner s env
    (require (technician_at s technician) "Technician not authorized"
       (Success
          (mkState (devices s)
             (<[technician := false]> (authorizedTechnicians s)) (owner s))
          RetNone
          [TechnicianRevoked technician (msg_sender env)])).

Definition isAuthorized (s : State) (technician : address) : Outcome :=
  Success s (RetBool (technician_at s technician || (technician =? owner s)%N)) [].

(** The getters that the [public] state variables declare: [devices(id)]
    returns every member of the struct, [authorizedTechnicians(a)] the
    flag, [owner()] the address.  None of them carries a modifier. *)
Definition devices_getter (s : State) (deviceId : string) : Outcome :=
  let d := device_at s deviceId in
  Success s
    (RetDevice (name d) (deviceType d) (status d) (lastMaintenance d)
       (nextCalibration d) (encryptedNotes d) (encryptedCalibration d)
       (exists_ d))
    [].

Definition authorizedTechnicians_getter (s : State) (a : address) : Outcome :=
  Success s (RetBool (technician_at s a)) [].

Definition owner_getter (s : State) : Outcome :=
  Success s (RetAddress (owner s)) [].

(** The external interface of the deployed contract. *)
Inductive Call :=
| call_registerDevice (deviceId name deviceType : string) (status : DeviceStatus)
    (lastMaintenance nextCalibration : N)
    (encryptedNotes encryptedCalibration : list Z)
| call_updateMaintenance (deviceId : string) (status : DeviceStatus)
    (lastMaintenance nextCalibration : N)
    (encryptedNotes encryptedCalibration : list Z)
| call_getDeviceInfo (deviceId : string)
| call_getEncryptedRecords (deviceId : string)
| call_authorizeTechnician (technician : address)
| call_revokeTechnician (technician : address)
| call_isAuthorized (technician : address)
| call_devices (deviceId : string)
| call_authorizedTechnicians (a : address)
| call_owner.

Definition exec (s : State) (env : Env) (c : Call) : Outcome :=
  match c with
  | call_registerDevice i n t st lm nc en ec => registerDevice s env i n t st lm nc en ec
  | call_updateMaintenance i st lm nc en ec => updateMaintenance s env i st lm nc en ec
  | call_getDeviceInfo i => getDeviceInfo s i
  | call_getEncryptedRecords i => getEncryptedRecords s env i
  | call_authorizeTechnician t => authorizeTechnician s env t
  | call_revokeTechnician t => revokeTechnician s env t
  | call_isAuthorized t => isAuthorized s t
  | call_devices i => devices_getter s i
  | call_authorizedTechnicians a => authorizedTechnicians_getter s a
  | call_owner => owner_getter s
  end.

(** Storage after a transaction: a revert leaves the storage as it was. *)
Definition storage_after (s : State) (o : Outcome) : State :=
  match o with
  | Success s' _ _ => s'
  | Revert _ => s
  end.

(** What the sender of a call observes: the result and the logs. *)
Definition observation (o : Outcome) : (Returned * list Event) + string :=
  match o with
  | Success _ r l => inl (r, l)
  | Revert m => inr m
  end.

(** States of the contract deployed by [deployer]. *)
Inductive reachable (deployer : address) : State -> Prop :=
| reachable_deploy : reachable deployer (constructor deployer)
| reachable_call (s : State) (env : Env) (c : Call) :
    reachable deployer s -> reachable deployer (storage_after s (exec s env c)).

(** Two storages that differ at most in the ciphertext members of their
    records. *)
Definition public_part (d : Device) :=
  (name d, deviceType d, status d, lastMaintenance d, nextCalibration d, exists_ d).

Definition same_public (s1 s2 : State) : Prop :=
  (forall i, public_part (device_at s1 i) = public_part (device_at s2 i))
  /\ authorizedTechnicians s1 = authorizedTechnicians s2
  /\ owner s1 = owner s2.

(** The sender passes [onlyAuthorized]. *)
Definition authorized (s : State) (a : address) : bool :=
  technician_at s a || (a =? owner s)%N.

End DeviceMaintenance.

(** ** ui/src/hooks/useDeviceContract.ts

    The hook is modelled while wallet and node answer: [s] is the storage
    of the DeviceMaintenance contract deployed at [CONTRACT_ADDRESS], a
    transaction the hook sends is signed and mined, and a call is
    answered.  A wallet that refuses to sign or a node that is down makes
    the hook fail in further ways, which are not part of the model. *)
Module Hook.
Import JS Crypto.

(** The connected account ([useAccount]): the address as the string the
    wallet shows and as the sender of its transactions, and the chain. *)
Record Account := mkAccount {
  address_string : list Z;
  address_sender : N;
  chainId : N
}.

(** What the hook finds around it: the two wagmi clients, and the
    build-time setting that [config/contracts.ts] reads. *)
Record Client := mkClient {
  walletClient : bool;                       (* useWalletClient().data is set *)
  publicClient : bool;                       (* usePublicClient() is set *)
  VITE_CONTRACT_ADDRESS : option (list Z)    (* import.meta.env.VITE_CONTRACT_ADDRESS *)
}.

(** [CONTRACT_ADDRESS] of [config/contracts.ts]: the setting, or the
    address of the first local deployment when it is unset or empty. *)
Definition CONTRACT_ADDRESS (cl : Client) : list Z :=
  match VITE_CONTRACT_ADDRESS cl with
  | Some (c :: r) => c :: r
  | _ => js "0x5FbDB2315678afecb367f032d93F642f64180aa3"
  end.

Inductive exn :=
| WalletNotConnected               (* Error('Wallet not connected') *)
| PublicClientNotAvailable         (* Error('Public client not available') *)
| ContractAddressNotConfigured     (* Error('Contract address not configured. ...') *)
| InvalidContractAddress (a : list Z)  (* Error(`Invalid contract address: ${CONTRACT_ADDRESS}`) *)
| CryptoError (e : Crypto.exn)     (* propagated from encryptString *)
| InvalidArgument                  (* ethers: a value that does not fit its ABI type *)
| CallException (reason : option string).
    (* the call reverted, with the reason string of a require or with no data *)

Inductive result (A : Type) :=
| Ok (a : A)
| Throw (e : exn).
Arguments Ok {A} a.
Arguments Throw {A} e.

(** [ethers.toUtf8Bytes]: the UTF-8 bytes of a string without a lone
    surrogate, which ethers refuses (the hook passes it envelopes, which
    are ASCII). *)
Definition toUtf8Bytes (str : list Z) : list Z := TextEncoder_encode str.

(** A value of type [bytes] as ethers (version 6, whose API the hook
    uses) hands it to the caller: a string, [0x] and two lowercase
    digits per byte ([hexlify]). *)
Definition HexCharacters : list Z := js "0123456789abcdef".

Definition hexlify (data : list Z) : list Z :=
  js "0x"
  ++ flat_map
       (fun v => [nth (Z.to_nat (Z.shiftr (Z.land v 0xf0) 4)) HexCharacters 0;
                  nth (Z.to_nat (Z.land v 0x0f)) HexCharacters 0])
       data.

(** An argument of type [uint8] as ethers encodes it: a Number that is
    no integer of the range is refused before anything is sent. *)
Definition encode_uint8 (v : number) : option Z :=
  match v with
  | Integer z => if (0 <=? z) && (z <=? 255) then Some z else None
  | NotInteger => None
  end.

(** The [uint8] of the call data as the contract reads its
    [DeviceStatus] parameter: a value that is no member of the enum
    makes the call revert, without a reason, before the function body. *)
Definition decode_DeviceStatus (v : Z) : option DeviceMaintenance.DeviceStatus :=
  if v =? 0 then Some DeviceMaintenance.Operational
  else if v =? 1 then Some DeviceMaintenance.Maintenance
  else if v =? 2 then Some DeviceMaintenance.Critical
  else None.

(** [address] is set (a connected wallet gives a non-empty string). *)
Definition connected (acct : Account) : bool :=
  (0 <? length (address_string acct))%nat.

Definition env_of (acct : Account) (timestamp : N) : DeviceMaintenance.Env :=
  DeviceMaintenance.mkEnv (address_sender acct) timestamp.

Section Client.
Variable subtle_encrypt : CryptoKey -> list Z -> list Z -> option (list Z).
Variable subtle_decrypt : CryptoKey -> list Z -> list Z -> option (list Z).
(** [ethers.isAddress] *)
Variable isAddress : list Z -> bool.
(** The array lengths for which the platform creates a data block. *)
Variable allocatable : Z -> bool.

(** [validateContractAddress] *)
Definition validateContractAddress (cl : Client) : result unit :=
  if (length (CONTRACT_ADDRESS cl) =? 0)%nat
     || (length (trim (CONTRACT_ADDRESS cl)) =? 0)%nat
  then Throw ContractAddressNotConfigured
  else if negb (isAddress (CONTRACT_ADDRESS cl))
  then Throw (InvalidContractAddress (CONTRACT_ADDRESS cl))
  else Ok tt.

(** [getContract]: the contract object over the signer. *)
Definition getContract (cl : Client) : result unit :=
  if negb (walletClient cl) then Throw WalletNotConnected
  else validateContractAddress cl.

(** [getPublicContract]: the contract object over the provider. *)
Definition getPublicContract (cl : Client) : result unit :=
  if negb (publicClient cl) then Throw PublicClientNotAvailable
  else validateContractAddress cl.

(** What a hook leaves behind: the contract storage after [tx.wait()]. *)
Definition submit (s : DeviceMaintenance.State) (o : DeviceMaintenance.Outcome)
    : result DeviceMaintenance.State :=
  match o with
  | DeviceMaintenance.Success s' _ _ => Ok s'
  | DeviceMaintenance.Revert reason => Throw (CallException (Some reason))
  end.

(** A transaction whose [status] argument is the Number [status]:
    encoded by ethers, decoded by the contract, then run. *)
Definition send (s : DeviceMaintenance.State) (status : number)
    (call : DeviceMaintenance.DeviceStatus -> DeviceMaintenance.Outcome)
    : result DeviceMaintenance.State :=
  match encode_uint8 status with
  | None => Throw InvalidArgument
  | Some v =>
      match decode_DeviceStatus v with
      | None => Throw (CallException None)
      | Some st => submit s (call st)
      end
  end.

(** [registerDevice]: [now] is [Math.floor(Date.now() / 1000)], the two
    [iv]s are the nonces drawn by the two [encryptString] calls. *)
Definition registerDevice (cl : Client) (acct : Account) (now timestamp : N)
    (ivNotes ivCalibration : list Z) (s : DeviceMaintenance.State)
    (deviceId name deviceType : string) (status : number)
    (notes calibration : list Z) : result DeviceMaintenance.State :=
  if negb (connected acct) || (chainId acct =? 0)%N then Throw WalletNotConnected
  else
    match encryptString subtle_encrypt ivNotes notes (address_string acct) (chainId acct) with
    | Crypto.Throw e => Throw (CryptoError e)
    | Crypto.Ok encryptedNotes =>
    match encryptString subtle_encrypt ivCalibration calibration (address_string acct) (chainId acct) with
    | Crypto.Throw e => Throw (CryptoError e)
    | Crypto.Ok encryptedCalibration =>
        let notesBytes := toUtf8Bytes encryptedNotes in
        let calibrationBytes := toUtf8Bytes encryptedCalibration in
        match getContract cl with
        | Throw e => Throw e
        | Ok _ =>
            let lastMaintenance := now in
            let nextCalibration := (lastMaintenance + 30 * 24 * 60 * 60)%N in
            send s status
              (fun st =>
                 DeviceMaintenance.registerDevice s (env_of acct timestamp) deviceId
                   name deviceType st lastMaintenance nextCalibration
                   notesBytes calibrationBytes)
        end
    end end.

(** [updateMaintenance] *)
Definition updateMaintenance (cl : Client) (acct : Account) (now timestamp : N)
    (ivNotes ivCalibration : list Z) (s : DeviceMaintenance.State)
    (deviceId : string) (status : number)
    (notes calibration : list Z) : result DeviceMaintenance.State :=
  if negb (connected acct) || (chainId acct =? 0)%N then Throw WalletNotConnected
  else
    match encryptString subtle_encrypt ivNotes notes (address_string acct) (chainId acct) with
    | Crypto.Throw e => Throw (CryptoError e)
    | Crypto.Ok encryptedNotes =>
    match encryptString subtle_encrypt ivCalibration calibration (address_string acct) (chainId acct) with
    | Crypto.Throw e => Throw (CryptoError e)
    | Crypto.Ok encryptedCalibration =>
        let notesBytes := toUtf8Bytes encryptedNotes in
        let calibrationBytes := toUtf8Bytes encryptedCalibration in
        match getContract cl with
        | Throw e => Throw e
        | Ok _ =>
            let lastMaintenance := now in
            let nextCalibration := (lastMaintenance + 30 * 24 * 60 * 60)%N in
            send s status
              (fun st =>
                 DeviceMaintenance.updateMaintenance s (env_of acct timestamp) deviceId
                   st lastMaintenance nextCalibration notesBytes calibrationBytes)
        end
    end end.

(** [getEncryptedRecords]: [Ok None] is the [null] of the catch branch,
    which also catches what [getContract] throws.  [records[0]] and
    [records[1]] are the strings ethers makes of the two [bytes]
    values, and [new Uint8Array] is given those strings. *)
Definition getEncryptedRecords (cl : Client) (acct : Account) (timestamp : N)
    (s : DeviceMaintenance.State) (deviceId : string)
    : result (option (list Z * list Z)) :=
  if connected acct then
    match getContract cl with
    | Throw _ => Ok None
    | Ok _ =>
        match DeviceMaintenance.getEncryptedRecords s (env_of acct timestamp) deviceId with
        | DeviceMaintenance.Success _ (DeviceMaintenance.RetRecords r0 r1) _ =>
            let records0 := hexlify r0 in
            let records1 := hexlify r1 in
            match Uint8Array_ofHexLiteral allocatable records0 with
            | None => Ok None
            | Some notesBytesArray =>
                match Uint8Array_ofHexLiteral allocatable records1 with
                | None => Ok None
                | Some calibrationBytesArray =>
                    let notesStr := bytesToEncryptedString notesBytesArray 12 in
                    let calibrationStr :=
                      bytesToEncryptedString calibrationBytesArray 12 in
                    Ok (Some (notesStr, calibrationStr))
                end
            end
        | _ => Ok None
        end
    end
  else Throw WalletNotConnected.

(** [decryptDeviceRecords]: [Ok None] is [null]; the [try] also catches
    what [getEncryptedRecords] and [decryptString] throw. *)
Definition decryptDeviceRecords (cl : Client) (acct : Account) (timestamp : N)
    (s : DeviceMaintenance.State) (deviceId : string)
    : result (option (list Z * list Z)) :=
  if connected acct && negb (chainId acct =? 0)%N then
    match getEncryptedRecords cl acct timestamp s deviceId with
    | Throw _ => Ok None
    | Ok None => Ok None
    | Ok (Some (encryptedNotes, encryptedCalibration)) =>
        match decryptString subtle_decrypt encryptedNotes (address_string acct) (chainId acct) with
        | Crypto.Throw _ => Ok None
        | Crypto.Ok notes =>
            match decryptString subtle_decrypt encryptedCalibration (address_string acct) (chainId acct) with
            | Crypto.Throw _ => Ok None
            | Crypto.Ok calibration => Ok (Some (notes, calibration))
            end
        end
    end
  else Throw WalletNotConnected.
End Client.

End Hook.

(** ** A stand-in cipher for executable examples

    [crypto.subtle] is a parameter of the development.  The examples need
    one total instance: the data followed by a 16-octet tag computed from
    the key material and the nonce, checked on decryption. *)
Module SampleCipher.
Import Crypto.

Definition tag (key : CryptoKey) (iv : list Z) : list Z :=
  repeat ((fold_right Z.add 0 (base_keyData (kdf_baseKey key))
           + fold_right Z.add 0 iv) `mod` 256) 16.

Definition encrypt (key : CryptoKey) (iv data : list Z) : option (list Z) :=
  Some (data ++ tag key iv).

Definition decrypt (key : CryptoKey) (iv data : list Z) : option (list Z) :=
  let n := (length data - 16)%nat in
  if (16 <=? length data)%nat && bool_decide (drop n data = tag key iv)
  then Some (take n data) else None.

End SampleCipher.

(** ** Vocabulary of the statements *)

(** An element of a [Uint8Array]. *)
Definition octet (b : Z) : Prop := 0 <= b < 256.

(** A UTF-16 code unit. *)
Definition codeUnit (c : Z) : Prop := 0 <= c < 65536.

(** A lowercase radix-16 digit. *)
Definition lowerHexDigit (c : Z) : Prop := 48 <= c <= 57 \/ 97 <= c <= 102.

(** The contract the development asks of [crypto.subtle] for AES-GCM with a
    96-bit nonce: encryption of octets succeeds with octets, and decryption
    under the same key and nonce gives the data back. *)
Definition aead_correct
    (subtle_encrypt subtle_decrypt : Crypto.CryptoKey -> list Z -> list Z -> option (list Z))
    : Prop :=
  forall key iv data,
    length iv = 12%nat -> Forall octet iv -> Forall octet data ->
    exists ct, subtle_encrypt key iv data = Some ct
               /\ Forall octet ct
               /\ subtle_decrypt key iv ct = Some data.

(** ** Concrete storages used in the examples *)
Module Scenario.
Import DeviceMaintenance.

Definition admin : N := 0xA11CE.
Definition technician : N := 0xB0B.
Definition outsider : N := 0xE7E.

Definition deployed : State := constructor admin.

(** Storage after the administrator registered [dev-005] with the two
    byte strings of the repository's access test. *)
Definition with_dev005 : State :=
  storage_after deployed
    (exec deployed (mkEnv admin 1700000000)
       (call_registerDevice "dev-005" "Test Device" "Test Type" Operational
          1700000000 1700086400 (JS.js "secret-notes") (JS.js "secret-calibration"))).

(** The same registration with other ciphertext bytes. *)
Definition with_dev005' : State :=
  storage_after deployed
    (exec deployed (mkEnv admin 1700000000)
       (call_registerDevice "dev-005" "Test Device" "Test Type" Operational
          1700000000 1700086400 (JS.js "other-notes") (JS.js "other-calibration"))).

(** The same registration under another name and type. *)
Definition with_dev005_renamed : State :=
  storage_after deployed
    (exec deployed (mkEnv admin 1700000000)
       (call_registerDevice "dev-005" "MRI Scanner PRO-X200"
          "Magnetic Resonance Imaging" Operational
          1700000000 1700086400 (JS.js "secret-notes") (JS.js "secret-calibration"))).

(** Storage after the administrator then authorized [technician]. *)
Definition with_technician : State :=
  storage_after with_dev005
    (exec with_dev005 (mkEnv admin 1700000100) (call_authorizeTechnician technician)).

Definition env_admin : Env := mkEnv admin 1700100005.
Definition env_outsider : Env := mkEnv outsider 1700000500.

Definition update_dev005 : Call :=
  call_updateMaintenance "dev-005" Maintenance 1700100000 1705284000
    (JS.js "updated-notes") (JS.js "updated-calibration").

Definition register_dev005_again : Call :=
  call_registerDevice "dev-005" "Another" "Type" Critical 1 2 (JS.js "n") (JS.js "c").

End Scenario.

(** ** Concrete inputs of the cipher examples *)
Module Sample.
Import JS.

(** The account of the local network in the repository's README. *)
Definition address : list Z := js "0x5FbDB2315678afecb367f032d93F642f64180aa3".
Definition chain : N := 31337.

(** A nonce, as [crypto.getRandomValues] may fill it. *)
Definition iv : list Z := [0; 1; 2; 3; 4; 5; 6; 7; 8; 9; 10; 11].
Definition iv' : list Z := [11; 10; 9; 8; 7; 6; 5; 4; 3; 2; 1; 0].

(** The envelope of ["ok"] under [SampleCipher] with [iv]. *)
Definition envelope : list Z :=
  js "000102030405060708090a0b:6f6b32323232323232323232323232323232".

(** The same envelope with every leading hex zero of the nonce field
    replaced by a space. *)
Definition envelope_spaced : list Z :=
  js " 0 1 2 3 4 5 6 7 8 9 a b:6f6b32323232323232323232323232323232".

(** The technician's wallet on that chain. *)
Definition technician_account : Hook.Account :=
  Hook.mkAccount (js "0x0000000000000000000000000000000000000B0B")
    Scenario.technician chain.

(** The surroundings of the hook in the examples: both clients present,
    the contract address left at its default. *)
Definition client : Hook.Client := Hook.mkClient true true None.

(** A stand-in for [ethers.isAddress]: it accepts the default contract
    address, as ethers does, and nothing else. *)
Definition isAddress (value : list Z) : bool := bool_decide (value = address).

(** A platform that creates arrays of up to 2^32 elements. *)
Definition allocatable (n : Z) : bool := n <=? 2 ^ 32.

(** Storage after the technician's hook call
    [updateMaintenance("dev-005", 1, "ok", "42")] under [SampleCipher]. *)
Definition after_hook_update : DeviceMaintenance.State :=
  match Hook.updateMaintenance SampleCipher.encrypt isAddress client technician_account
          1700100000 1700100005 iv iv' Scenario.with_technician "dev-005"
          (Integer 1) (js "ok") (js "42") with
  | Hook.Ok s' => s'
  | Hook.Throw _ => Scenario.with_technician
  end.

(** Storage after the technician's hook call
    [registerDevice("dev-007", "Pump", "Infusion", 2, "ok", "42")]. *)
Definition after_hook_register : DeviceMaintenance.State :=
  match Hook.registerDevice SampleCipher.encrypt isAddress client technician_account
          1700100000 1700100005 iv iv' Scenario.with_technician "dev-007"
          "Pump" "Infusion" (Integer 2) (js "ok") (js "42") with
  | Hook.Ok s' => s'
  | Hook.Throw _ => Scenario.with_technician
  end.

(** Storage after the technician registered [dev-006] with the contract
    directly, with the byte strings [00 05] and [02]. *)
Definition with_short_records : DeviceMaintenance.State :=
  DeviceMaintenance.storage_after Scenario.with_technician
    (DeviceMaintenance.exec Scenario.with_technician
       (Hook.env_of technician_account 1700100000)
       (DeviceMaintenance.call_registerDevice "dev-006" "Pump" "Infusion"
          DeviceMaintenance.Operational 1700100000 1702692000 [0; 5] [2])).

(** A wallet that is not authorized. *)
Definition outsider_account : Hook.Account :=
  Hook.mkAccount (js "0x0000000000000000000000000000000000000E7E")
    Scenario.outsider chain.

(** U+FEFF followed by ["ok"], and its envelope under [SampleCipher]
    with [iv]. *)
Definition plaintext_bom : list Z := [0xFEFF; 111; 107].
Definition envelope_bom : list Z :=
  js "000102030405060708090a0b:efbbbf6f6b32323232323232323232323232323232".

End Sample.

(** ** Auxiliary definitions of the proofs *)

(** The loop of [hexToBytes] read two units at a time. *)
Fixpoint hexPairs (n : list Z) : list Z :=
  match n with
  | c1 :: c2 :: r => JS.ToUint8 (JS.parseInt16 [c1; c2]) :: hexPairs r
  | _ => []
  end.

(** The two units [bytesToHex] writes for one octet. *)
Definition hexOfOctet (b : Z) : list Z := JS.padStart 2 (JS.toString16 b).

Definition isLowerHexDigit (c : Z) : bool :=
  ((48 <=? c) && (c <=? 57)) || ((97 <=? c) && (c <=? 102)).

Definition octets : list Z := Z.of_nat <$> seq 0 256.

Definition lowerHexDigits : list Z := JS.js "0123456789abcdef".

(** The well-formed identity of the specification: 20 octets in hex, with
    or without the [0x] prefix, in either case of the letters. *)
Definition wellFormedIdentity (address : list Z) : bool :=
  let digits :=
    if JS.startsWith address (JS.js "0x") then JS.slice_from 2 address else address in
  (length digits =? 40)%nat
  && forallb (fun c => match JS.hexDigit c with Some _ => true | None => false end) digits.

(** A Unicode scalar value: a code point that is not a surrogate. *)
Definition scalar (cp : Z) : Prop :=
  0 <= cp < 0x110000 /\ ~ (0xD800 <= cp <= 0xDFFF).

(** ** Sequences of transactions *)
Module Ledger.
Import DeviceMaintenance.

(** The logs of a transaction: a revert leaves none. *)
Definition logs_of (o : Outcome) : list Event :=
  match o with
  | Success _ _ l => l
  | Revert _ => []
  end.

(** Transactions applied in order, each with its own sender and block
    time; the storage at the end and the logs in order of emission. *)
Fixpoint run (s : State) (txs : list (Env * Call)) : State * list Event :=
  match txs with
  | [] => (s, [])
  | (env, c) :: rest =>
      let o := exec s env c in
      let '(s', logs) := run (storage_after s o) rest in
      (s', logs_of o ++ logs)
  end.

(** The [deviceId] arguments of the [DeviceRegistered] events emitted,
    in order. *)
Definition registered_ids (logs : list Event) : list string :=
  flat_map (fun e => match e with
                     | DeviceRegistered i _ _ => [i]
                     | _ => []
                     end) logs.

(** An indexed argument in a log entry: a value of type [address] is the
    topic itself, a [string] is in the log as the hash of its bytes. *)
Inductive Topic :=
| TopicAddress (a : address)
| TopicHash (h : N).

Section Logs.
(** Keccak-256 of the bytes of a string, as a number. *)
Variable keccak256 : string -> N.

(** The topics of a log entry after the first, which is the hash of
    the signature of the event. *)
Definition topics (e : Event) : list Topic :=
  match e with
  | DeviceRegistered deviceId _ technician =>
      [TopicHash (keccak256 deviceId); TopicAddress technician]
  | MaintenanceUpdated deviceId technician _ =>
      [TopicHash (keccak256 deviceId); TopicAddress technician]
  | TechnicianAuthorized technician by_ =>
      [TopicAddress technician; TopicAddress by_]
  | TechnicianRevoked technician by_ =>
      [TopicAddress technician; TopicAddress by_]
  end.

(** The [deviceId] topics of the [DeviceRegistered] entries, in order:
    what a reader of the logs has of the registered ids. *)
Definition registered_topics (logs : list Event) : list Topic :=
  flat_map (fun e => match e with
                     | DeviceRegistered _ _ _ => take 1 (topics e)
                     | _ => []
                     end) logs.
End Logs.

(** The calls that carry [onlyAuthorized]. *)
Definition gated (c : Call) : bool :=
  match c with
  | call_registerDevice _ _ _ _ _ _ _ _
  | call_updateMaintenance _ _ _ _ _ _
  | call_getEncryptedRecords _ => true
  | _ => false
  end.

(** Two storages on which every slot reads the same. *)
Definition same_reads (s1 s2 : State) : Prop :=
  devices s1 = devices s2
  /\ owner s1 = owner s2
  /\ forall a, technician_at s1 a = technician_at s2 a.

(** The records of a storage are well-formed: an existing record has two
    non-empty ciphertexts, and a slot without the flag was never written. *)
Definition records_wellformed (s : State) : Prop :=
  forall i,
    (exists_ (device_at s i) = true ->
     encryptedNotes (device_at s i) <> [] /\ encryptedCalibration (device_at s i) <> [])
    /\ (exists_ (device_at s i) = false -> device_at s i = Device_zero).

End Ledger.

(** ** The read paths of the hook (useDeviceContract.ts) *)
Module HookViews.
Import DeviceMaintenance.

(** [DeviceInfo]; [status] is the number of the enum member. *)
Record DeviceInfo := mkDeviceInfo {
  info_deviceId : string;
  info_name : string;
  info_deviceType : string;
  info_status : N;
  info_lastMaintenance : N;
  info_nextCalibration : N
}.

(** [Number(info[2])] *)
Definition statusNumber (st : DeviceStatus) : N :=
  match st with
  | Operational => 0
  | Maintenance => 1
  | Critical => 2
  end%N.

Section Views.
(** [ethers.isAddress] *)
Variable isAddress : list Z -> bool.

(** [getDeviceInfo]: every branch of the catch returns [null]. *)
Definition getDeviceInfo (cl : Hook.Client) (s : State) (deviceId : string)
    : option DeviceInfo :=
  match Hook.validateContractAddress isAddress cl with
  | Hook.Throw _ => None
  | Hook.Ok _ =>
      match Hook.getPublicContract isAddress cl with
      | Hook.Throw _ => None
      | Hook.Ok _ =>
          match DeviceMaintenance.getDeviceInfo s deviceId with
          | Success _ (RetDeviceInfo n t st lm nc) _ =>
              Some (mkDeviceInfo deviceId n t (statusNumber st) lm nc)
          | _ => None
          end
      end
  end.

(** [checkAuthorization] *)
Definition checkAuthorization (cl : Hook.Client) (acct : Hook.Account) (s : State)
    : bool :=
  if Hook.connected acct then
    match Hook.getPublicContract isAddress cl with
    | Hook.Throw _ => false
    | Hook.Ok _ =>
        match DeviceMaintenance.isAuthorized s (Hook.address_sender acct) with
        | Success _ (RetBool b) _ => b
        | _ => false
        end
    end
  else false.
End Views.

End HookViews.

(** ** Further vocabulary *)

(** A code unit of the ASCII range, where [String.prototype.toLowerCase]
    is the mapping of the letters A-Z written out in [JS.toLowerCase]. *)
Definition asciiUnit (c : Z) : Prop := 0 <= c < 128.

(** A radix-16 digit in either case. *)
Definition hexDigitUnit (c : Z) : Prop :=
  48 <= c <= 57 \/ 97 <= c <= 102 \/ 65 <= c <= 70.

Definition anyHexDigits : list Z := JS.js "0123456789abcdefABCDEF".

(** A cipher whose results are octets, as every [ArrayBuffer] is. *)
Definition octet_output
    (subtle : Crypto.CryptoKey -> list Z -> list Z -> option (list Z)) : Prop :=
  forall key iv data out,
    Forall octet data -> subtle key iv data = Some out -> Forall octet out.

(** The string with every lone surrogate replaced by U+FFFD
    ([String.prototype.toWellFormed]). *)
Fixpoint toWellFormed (s : list Z) : list Z :=
  match s with
  | [] => []
  | c :: s' =>
      if JS.isHighSurrogate c then
        match s' with
        | d :: s'' =>
            if JS.isLowSurrogate d then c :: d :: toWellFormed s''
            else 0xFFFD :: toWellFormed s'
        | [] => [0xFFFD]
        end
      else if JS.isLowSurrogate c then 0xFFFD :: toWellFormed s'
      else c :: toWellFormed s'
  end.

(** The canonical form [deriveKeyFromAddress] gives an identity. *)
Definition canonicalIdentity (address : list Z) : list Z :=
  if JS.startsWith (JS.toLowerCase address) (JS.js "0x")
  then JS.slice_from 2 (JS.toLowerCase address) else JS.toLowerCase address.

(** * Properties of the contract *)
Section ContractFacts.
Import DeviceMaintenance.

Lemma device_at_insert_eq (m : gmap string Device) a o i d :
  device_at (mkState (<[i := d]> m) a o) i = d.
Proof. unfold device_at; simpl. by rewrite lookup_insert_eq. Qed.

Lemma device_at_insert_ne (m : gmap string Device) a o i j d :
  i <> j -> device_at (mkState (<[i := d]> m) a o) j = device_at (mkState m a o) j.
Proof. intros Hne. unfold device_at; simpl. by rewrite lookup_insert_ne. Qed.

Lemma technician_at_insert_eq d (m : gmap N bool) o a b :
  technician_at (mkState d (<[a := b]> m) o) a = b.
Proof. unfold technician_at; simpl. by rewrite lookup_insert_eq. Qed.

Lemma require_true c reason rest : c = true -> require c reason rest = rest.
Proof. by intros ->. Qed.

Lemma require_false c reason rest : c = false -> require c reason rest = Revert reason.
Proof. by intros ->. Qed.

(** No call changes the owner. *)
Lemma owner_storage_after s env c : owner (storage_after s (exec s env c)) = owner s.
Proof.
  destruct c; simpl; try reflexivity;
    unfold registerDevice, updateMaintenance, getDeviceInfo, getEncryptedRecords,
      authorizeTechnician, revokeTechnician, onlyAuthorized, onlyOwner, require;
    repeat match goal with
           | |- context [if ?b then _ else _] => destruct b
           end; reflexivity.
Qed.

Lemma reachable_owner deployer s : reachable deployer s -> owner s = deployer.
Proof.
  induction 1 as [|s env c _ IH]; [reflexivity|].
  by rewrite owner_storage_after.
Qed.

(** A view call leaves the storage alone. *)
Lemma view_calls_keep_storage s env c :
  match c with
  | call_registerDevice _ _ _ _ _ _ _ _ | call_updateMaintenance _ _ _ _ _ _
  | call_authorizeTechnician _ | call_revokeTechnician _ => True
  | _ => storage_after s (exec s env c) = s
  end.
Proof.
  destruct c; simpl; try exact I; try reflexivity;
    unfold getDeviceInfo, getEncryptedRecords, onlyAuthorized, require;
    repeat match goal with
           | |- context [if ?b then _ else _] => destruct b
           end; reflexivity.
Qed.

(** Every call but the [devices] getter gives a sender outside the
    authorization table the same observation on two storages that differ
    in ciphertext only. *)
Lemma unauthorized_observation_gated s1 s2 env c :
  same_public s1 s2 ->
  authorized s1 (msg_sender env) = false ->
  (forall i, c <> call_devices i) ->
  observation (exec s1 env c) = observation (exec s2 env c).
Proof.
  intros (Hdev & Hauth & Hown) Hun Hc.
  assert (Hun2 : authorized s2 (msg_sender env) = false).
  { unfold authorized, technician_at in *. by rewrite <- Hauth, <- Hown. }
  assert (Hex : forall i, exists_ (device_at s1 i) = exists_ (device_at s2 i)).
  { intros i. specialize (Hdev i). unfold public_part in Hdev. congruence. }
  unfold authorized in Hun, Hun2.
  destruct c; simpl.
  - unfold registerDevice, onlyAuthorized. by rewrite !require_false.
  - unfold updateMaintenance, onlyAuthorized. by rewrite !require_false.
  - unfold getDeviceInfo, require. rewrite <- Hex.
    destruct (exists_ (device_at s1 deviceId)); [|done].
    specialize (Hdev deviceId). unfold public_part in Hdev. simpl.
    injection Hdev as Hn Ht Hs Hl Hc' _. congruence.
  - unfold getEncryptedRecords, onlyAuthorized. by rewrite !require_false.
  - apply orb_false_elim in Hun as [_ Hun]. apply orb_false_elim in Hun2 as [_ Hun2].
    unfold authorizeTechnician, onlyOwner. by rewrite !require_false.
  - apply orb_false_elim in Hun as [_ Hun]. apply orb_false_elim in Hun2 as [_ Hun2].
    unfold revokeTechnician, onlyOwner. by rewrite !require_false.
  - unfold isAuthorized, technician_at. simpl. by rewrite Hauth, Hown.
  - by destruct (Hc deviceId).
  - unfold authorizedTechnicians_getter, technician_at. simpl. by rewrite Hauth.
  - unfold owner_getter. simpl. by rewrite Hown.
Qed.

End ContractFacts.

(** * Properties of the hex codecs *)
Section HexFacts.
Import JS Crypto.

Lemma octet_in_octets b : octet b -> In b octets.
Proof.
  intros [H0 H1]. unfold octets.
  replace b with (Z.of_nat (Z.to_nat b)) by lia.
  apply in_map, in_seq. lia.
Qed.

Lemma lowerHexDigit_in c : lowerHexDigit c -> In c lowerHexDigits.
Proof.
  unfold lowerHexDigit. intros H.
  assert (c = 48 \/ c = 49 \/ c = 50 \/ c = 51 \/ c = 52 \/ c = 53 \/ c = 54
          \/ c = 55 \/ c = 56 \/ c = 57 \/ c = 97 \/ c = 98 \/ c = 99
          \/ c = 100 \/ c = 101 \/ c = 102) as Hc by lia.
  vm_compute. intuition.
Qed.

Lemma isLowerHexDigit_spec c : isLowerHexDigit c = true <-> lowerHexDigit c.
Proof. unfold isLowerHexDigit, lowerHexDigit. lia. Qed.

(** One octet: two lowercase digits that parse back to it. *)
Lemma hexOfOctet_check :
  forallb (fun b =>
             match hexOfOctet b with
             | [c1; c2] => isLowerHexDigit c1 && isLowerHexDigit c2
                           && (ToUint8 (parseInt16 [c1; c2]) =? b)
             | _ => false
             end) octets = true.
Proof. by vm_compute. Qed.

Lemma hexOfOctet_spec b :
  octet b ->
  exists c1 c2, hexOfOctet b = [c1; c2]
                /\ lowerHexDigit c1 /\ lowerHexDigit c2
                /\ ToUint8 (parseInt16 [c1; c2]) = b.
Proof.
  intros Hb. pose proof hexOfOctet_check as H.
  rewrite forallb_forall in H. specialize (H b (octet_in_octets b Hb)).
  destruct (hexOfOctet b) as [|c1 [|c2 [|? ?]]]; try discriminate.
  apply andb_prop in H as [H H3]. apply andb_prop in H as [H1 H2].
  exists c1, c2. rewrite <- !isLowerHexDigit_spec. split; [done|].
  repeat split; try done. lia.
Qed.

(** Two lowercase digits: an octet that prints back to them. *)
Lemma hexPair_check :
  forallb (fun c1 =>
    forallb (fun c2 =>
      let b := ToUint8 (parseInt16 [c1; c2]) in
      (0 <=? b) && (b <? 256)
      && bool_decide (hexOfOctet b = [c1; c2])) lowerHexDigits) lowerHexDigits = true.
Proof. by vm_compute. Qed.

Lemma hexPair_spec c1 c2 :
  lowerHexDigit c1 -> lowerHexDigit c2 ->
  octet (ToUint8 (parseInt16 [c1; c2]))
  /\ hexOfOctet (ToUint8 (parseInt16 [c1; c2])) = [c1; c2].
Proof.
  intros H1 H2. pose proof hexPair_check as H.
  rewrite forallb_forall in H. specialize (H c1 (lowerHexDigit_in c1 H1)).
  rewrite forallb_forall in H. specialize (H c2 (lowerHexDigit_in c2 H2)).
  cbv beta zeta in H. apply andb_prop in H as [H Heq]. apply andb_prop in H as [Ha Hb].
  apply bool_decide_eq_true in Heq. unfold octet. split; [lia|done].
Qed.

(** The indexed loop of [hexToBytes] is the pairwise reading. *)
Lemma hexToBytes_loop (n : list Z) :
  (fun i => ToUint8 (parseInt16 (substr n (i * 2) 2))) <$> seq 0 (length n / 2)%nat
  = hexPairs n.
Proof.
  induction n as [n IH] using (induction_ltof1 _ (@length Z)); unfold ltof in IH.
  destruct n as [|c1 [|c2 r]]; [reflexivity | reflexivity |].
  change (length (c1 :: c2 :: r)) with (2 + length r)%nat.
  replace ((2 + length r) / 2)%nat with (S (length r / 2)).
  2:{ change 2%nat with (1 * 2)%nat at 2. rewrite Nat.div_add_l by lia. lia. }
  rewrite <- cons_seq, <- seq_shift. simpl hexPairs.
  rewrite fmap_cons. f_equal.
  rewrite <- IH by (simpl; lia).
  rewrite <- list_fmap_compose. apply list_fmap_ext. intros i x _. simpl.
  reflexivity.
Qed.

Lemma startsWith_0x_lowerHex (h : list Z) :
  Forall lowerHexDigit h -> startsWith h (js "0x") = false.
Proof.
  intros H. change (js "0x") with [48; 120].
  destruct h as [|c1 [|c2 r]]; [reflexivity| |]; cbn [startsWith].
  - by destruct (48 =? c1).
  - inversion H as [|? ? _ H2]; subst. inversion H2 as [|? ? Hc2 _]; subst.
    unfold lowerHexDigit in Hc2.
    destruct (Z.eqb_spec 120 c2); [lia|]. by destruct (48 =? c1).
Qed.

Lemma hexToBytes_lowerHex (h : list Z) :
  Forall lowerHexDigit h -> hexToBytes h = hexPairs h.
Proof.
  intros H. unfold hexToBytes. rewrite (startsWith_0x_lowerHex h H).
  apply hexToBytes_loop.
Qed.

Lemma bytesToHex_nil : bytesToHex [] = [].
Proof. reflexivity. Qed.

Lemma bytesToHex_cons b bs : bytesToHex (b :: bs) = hexOfOctet b ++ bytesToHex bs.
Proof. reflexivity. Qed.

Lemma bytesToHex_app bs1 bs2 : bytesToHex (bs1 ++ bs2) = bytesToHex bs1 ++ bytesToHex bs2.
Proof. unfold bytesToHex. by rewrite fmap_app, concat_app. Qed.

Lemma bytesToHex_lowerHex bs : Forall octet bs -> Forall lowerHexDigit (bytesToHex bs).
Proof.
  induction 1 as [|b bs Hb _ IH]; [constructor|].
  rewrite bytesToHex_cons.
  destruct (hexOfOctet_spec b Hb) as (c1 & c2 & -> & H1 & H2 & _).
  simpl. auto.
Qed.

Lemma bytesToHex_length bs : Forall octet bs -> length (bytesToHex bs) = (2 * length bs)%nat.
Proof.
  induction 1 as [|b bs Hb _ IH]; [reflexivity|].
  rewrite bytesToHex_cons.
  destruct (hexOfOctet_spec b Hb) as (c1 & c2 & -> & _).
  simpl. lia.
Qed.

Lemma hexPairs_bytesToHex bs : Forall octet bs -> hexPairs (bytesToHex bs) = bs.
Proof.
  induction 1 as [|b bs Hb _ IH]; [reflexivity|].
  rewrite bytesToHex_cons.
  destruct (hexOfOctet_spec b Hb) as (c1 & c2 & -> & _ & _ & Hp).
  change ([c1; c2] ++ bytesToHex bs) with (c1 :: c2 :: bytesToHex bs).
  simpl hexPairs. by rewrite Hp, IH.
Qed.

(** [hexToBytes] inverts [bytesToHex] on octets. *)
Lemma hexToBytes_bytesToHex bs : Forall octet bs -> hexToBytes (bytesToHex bs) = bs.
Proof.
  intros H. rewrite hexToBytes_lowerHex by by apply bytesToHex_lowerHex.
  by apply hexPairs_bytesToHex.
Qed.

Lemma hexPairs_app h1 h2 :
  Nat.Even (length h1) -> hexPairs (h1 ++ h2) = hexPairs h1 ++ hexPairs h2.
Proof.
  induction h1 as [h1 IH] using (induction_ltof1 _ (@length Z)); unfold ltof in IH.
  intros Hev. destruct h1 as [|c1 [|c2 r]].
  - reflexivity.
  - destruct Hev as [k Hk]. simpl in Hk. lia.
  - simpl. f_equal. apply IH; [simpl; lia|].
    destruct Hev as [k Hk]. simpl in Hk. exists (k - 1)%nat. lia.
Qed.

Lemma hexPairs_length h : length (hexPairs h) = (length h / 2)%nat.
Proof.
  induction h as [h IH] using (induction_ltof1 _ (@length Z)); unfold ltof in IH.
  destruct h as [|c1 [|c2 r]]; [reflexivity | reflexivity |].
  simpl hexPairs. simpl length. rewrite IH by (simpl; lia).
  change (S (S (length r))) with (1 * 2 + length r)%nat.
  rewrite Nat.div_add_l by lia. lia.
Qed.

Lemma hexPairs_octets h : Forall lowerHexDigit h -> Forall octet (hexPairs h).
Proof.
  induction h as [h IH] using (induction_ltof1 _ (@length Z)); unfold ltof in IH.
  intros H. destruct h as [|c1 [|c2 r]]; [constructor | constructor |].
  inversion H as [|? ? H1 H']; subst. inversion H' as [|? ? H2 Hr]; subst.
  simpl hexPairs. constructor.
  - by apply hexPair_spec.
  - apply IH; [simpl; lia | done].
Qed.

(** [bytesToHex] inverts the pairwise reading on lowercase digits. *)
Lemma bytesToHex_hexPairs h :
  Forall lowerHexDigit h -> Nat.Even (length h) -> bytesToHex (hexPairs h) = h.
Proof.
  induction h as [h IH] using (induction_ltof1 _ (@length Z)); unfold ltof in IH.
  intros H Hev. destruct h as [|c1 [|c2 r]].
  - reflexivity.
  - destruct Hev as [k Hk]. simpl in Hk. lia.
  - inversion H as [|? ? H1 H']; subst. inversion H' as [|? ? H2 Hr]; subst.
    simpl hexPairs. rewrite bytesToHex_cons.
    destruct (hexPair_spec c1 c2 H1 H2) as [_ ->].
    rewrite IH; [reflexivity | simpl; lia | done |].
    destruct Hev as [k Hk]. simpl in Hk. exists (k - 1)%nat. lia.
Qed.

End HexFacts.

(** * Properties of the string primitives *)
Section StringFacts.
Import JS.

Lemma split_not_nil sep s : split sep s <> [].
Proof.
  destruct s as [|c s]; simpl; [done|].
  destruct (c =? sep); [done|]. by destruct (split sep s).
Qed.

Lemma split_length sep s :
  length (split sep s) = S (count_occ Z.eq_dec s sep).
Proof.
  induction s as [|c s IH]; [reflexivity|]. simpl.
  destruct (Z.eqb_spec c sep) as [->|Hne].
  - destruct (Z.eq_dec sep sep); [|done]. simpl. by rewrite IH.
  - destruct (Z.eq_dec c sep); [done|].
    destruct (split sep s) eqn:E; [by destruct (split_not_nil sep s)|].
    by rewrite <- IH.
Qed.

Lemma includes_count s c :
  includes s c = negb (count_occ Z.eq_dec s c =? 0)%nat.
Proof.
  induction s as [|x s IH]; [reflexivity|]. unfold includes in *. simpl.
  destruct (Z.eqb_spec c x) as [->|Hne].
  - by destruct (Z.eq_dec x x).
  - destruct (Z.eq_dec x c); [congruence|]. by rewrite IH.
Qed.

Lemma split_no_sep sep s : ~ In sep s -> split sep s = [s].
Proof.
  induction s as [|c s IH]; [reflexivity|]. intros Hn. simpl.
  destruct (Z.eqb_spec c sep) as [->|Hne]; [destruct Hn; by left|].
  rewrite IH; [reflexivity|]. intros Hin. apply Hn. by right.
Qed.

Lemma split_app_sep sep s1 s2 :
  ~ In sep s1 -> split sep (s1 ++ sep :: s2) = s1 :: split sep s2.
Proof.
  induction s1 as [|c s IH]; intros Hn; simpl.
  - by rewrite Z.eqb_refl.
  - destruct (Z.eqb_spec c sep) as [->|Hne]; [destruct Hn; by left|].
    rewrite IH; [reflexivity|]. intros Hin. apply Hn. by right.
Qed.

(** A string that splits in two is the two parts around one separator. *)
Lemma split_two_inv sep e f1 f2 :
  split sep e = [f1; f2] ->
  e = f1 ++ sep :: f2 /\ ~ In sep f1 /\ ~ In sep f2.
Proof.
  revert f1. induction e as [|c e IH]; intros f1; simpl; [done|].
  destruct (Z.eqb_spec c sep) as [->|Hne].
  - intros H. injection H as <- H.
    assert (count_occ Z.eq_dec e sep = 0%nat) as Hc.
    { pose proof (split_length sep e) as Hl. rewrite H in Hl. simpl in Hl. lia. }
    apply count_occ_not_In in Hc.
    rewrite (split_no_sep _ _ Hc) in H. injection H as <-.
    split; [reflexivity|]. split; [apply in_nil | exact Hc].
  - destruct (split sep e) as [|p ps] eqn:E; [by destruct (split_not_nil sep e)|].
    intros H. injection H as <- ->.
    destruct (IH p eq_refl) as (-> & Hn1 & Hn2).
    split; [reflexivity|]. split; [|exact Hn2].
    intros [Heq|Hin]; [congruence|by apply Hn1].
Qed.

Lemma includes_app_sep sep s1 s2 : includes (s1 ++ sep :: s2) sep = true.
Proof.
  unfold includes. rewrite existsb_app. simpl. rewrite Z.eqb_refl.
  by rewrite orb_true_r.
Qed.

Lemma replace_first_app_sep sep s1 s2 :
  ~ In sep s1 -> replace_first sep (s1 ++ sep :: s2) = s1 ++ s2.
Proof.
  induction s1 as [|c s IH]; intros Hn; simpl.
  - by rewrite Z.eqb_refl.
  - destruct (Z.eqb_spec c sep) as [->|Hne]; [destruct Hn; by left|].
    rewrite IH; [reflexivity|]. intros Hin. apply Hn. by right.
Qed.

Lemma lowerHex_no_colon h : Forall lowerHexDigit h -> ~ In 58 h.
Proof.
  intros H Hin. rewrite Forall_forall in H. specialize (H 58).
  unfold lowerHexDigit in H.
  assert (58 ∈ h) as Hel by by apply list_elem_of_In.
  specialize (H Hel). lia.
Qed.

End StringFacts.

(** * Properties of the text codecs *)
Section BitFacts.

Lemma lor_high_low a y n :
  0 <= n -> 0 <= y < 2 ^ n -> Z.lor (a * 2 ^ n) y = a * 2 ^ n + y.
Proof.
  intros Hn Hy. symmetry. apply Z.add_nocarry_lor.
  apply Z.bits_inj'. intros i Hi.
  rewrite Z.land_spec, Z.bits_0.
  destruct (Z.lt_ge_cases i n) as [Hlt|Hge].
  - rewrite Z.mul_pow2_bits_low by lia. reflexivity.
  - rewrite <- (Z.mod_small y (2 ^ n)) by lia.
    rewrite Z.mod_pow2_bits_high by lia. apply andb_false_r.
Qed.

Lemma land_mask x n : 0 <= n -> Z.land x (2 ^ n - 1) = x mod 2 ^ n.
Proof.
  intros Hn. rewrite <- Z.land_ones by done. f_equal.
  rewrite Z.ones_equiv. lia.
Qed.

Lemma land_0x3F x : Z.land x 0x3F = x mod 64.
Proof. exact (land_mask x 6 ltac:(lia)). Qed.
Lemma land_0x1F x : Z.land x 0x1F = x mod 32.
Proof. exact (land_mask x 5 ltac:(lia)). Qed.
Lemma land_0xF x : Z.land x 0xF = x mod 16.
Proof. exact (land_mask x 4 ltac:(lia)). Qed.
Lemma land_0x7 x : Z.land x 0x7 = x mod 8.
Proof. exact (land_mask x 3 ltac:(lia)). Qed.
Lemma land_0x3FF x : Z.land x 0x3FF = x mod 1024.
Proof. exact (land_mask x 10 ltac:(lia)). Qed.

Lemma shiftr_6 x : Z.shiftr x 6 = x / 64.
Proof. by rewrite Z.shiftr_div_pow2. Qed.
Lemma shiftr_10 x : Z.shiftr x 10 = x / 1024.
Proof. by rewrite Z.shiftr_div_pow2. Qed.
Lemma shiftr_12 x : Z.shiftr x 12 = x / 4096.
Proof. by rewrite Z.shiftr_div_pow2. Qed.
Lemma shiftr_18 x : Z.shiftr x 18 = x / 262144.
Proof. by rewrite Z.shiftr_div_pow2. Qed.
Lemma shiftl_6 x : Z.shiftl x 6 = x * 64.
Proof. by rewrite Z.shiftl_mul_pow2. Qed.
Lemma shiftl_10 x : Z.shiftl x 10 = x * 1024.
Proof. by rewrite Z.shiftl_mul_pow2. Qed.

Lemma lor_0x80 y : Z.lor 0x80 (y mod 64) = 128 + y mod 64.
Proof.
  apply (lor_high_low 2 (y mod 64) 6); [lia|].
  change (2 ^ 6) with 64. apply Z.mod_pos_bound. lia.
Qed.

Lemma lor_shiftl_6 x y : Z.lor (x * 64) (y mod 64) = x * 64 + y mod 64.
Proof.
  apply (lor_high_low x (y mod 64) 6); [lia|].
  change (2 ^ 6) with 64. apply Z.mod_pos_bound. lia.
Qed.

End BitFacts.

Ltac bits_to_arith :=
  rewrite ?land_0x3F, ?land_0x1F, ?land_0xF, ?land_0x7, ?land_0x3FF,
    ?shiftr_6, ?shiftr_10, ?shiftr_12, ?shiftr_18, ?shiftl_6, ?shiftl_10,
    ?lor_0x80, ?lor_shiftl_6.

(** Decide the first comparison of the goal from the hypotheses. *)
Ltac case_cmp :=
  match goal with
  | |- context [?a <=? ?b] => destruct (Z.leb_spec a b); try lia
  | |- context [?a <? ?b] => destruct (Z.ltb_spec a b); try lia
  | |- context [?a =? ?b] => destruct (Z.eqb_spec a b); try lia
  end.

Section Utf8Facts.
Import JS.

Lemma utf8Encode_1 cp : 0 <= cp <= 0x7F -> utf8Encode cp = [cp].
Proof. intros H. unfold utf8Encode. by case_cmp. Qed.

Lemma utf8Encode_2 cp :
  0x80 <= cp <= 0x7FF -> utf8Encode cp = [cp / 64 + 192; 128 + cp mod 64].
Proof. intros H. unfold utf8Encode. repeat case_cmp. by bits_to_arith. Qed.

Lemma utf8Encode_3 cp :
  0x800 <= cp <= 0xFFFF ->
  utf8Encode cp = [cp / 4096 + 224; 128 + (cp / 64) mod 64; 128 + cp mod 64].
Proof. intros H. unfold utf8Encode. repeat case_cmp. by bits_to_arith. Qed.

Lemma utf8Encode_4 cp :
  0x10000 <= cp ->
  utf8Encode cp = [cp / 262144 + 240; 128 + (cp / 4096) mod 64;
                   128 + (cp / 64) mod 64; 128 + cp mod 64].
Proof. intros H. unfold utf8Encode. repeat case_cmp. by bits_to_arith. Qed.

Lemma utf8Encode_octets cp : scalar cp -> Forall octet (utf8Encode cp).
Proof.
  intros [Hr Hs]. unfold octet.
  destruct (Z.le_gt_cases cp 0x7F); [rewrite utf8Encode_1 by lia|
  destruct (Z.le_gt_cases cp 0x7FF); [rewrite utf8Encode_2 by lia|
  destruct (Z.le_gt_cases cp 0xFFFF); [rewrite utf8Encode_3 by lia|
    rewrite utf8Encode_4 by lia]]];
    repeat constructor; Z.to_euclidean_division_equations; lia.
Qed.

Lemma in_range_true lo hi b : lo <= b <= hi -> (lo <=? b) && (b <=? hi) = true.
Proof. intros H. apply andb_true_intro. split; apply Z.leb_le; lia. Qed.

Lemma in_range_false lo hi b : b < lo \/ hi < b -> (lo <=? b) && (b <=? hi) = false.
Proof.
  intros H. apply andb_false_iff.
  destruct H; [left|right]; apply Z.leb_gt; lia.
Qed.

Lemma leadByte_1 b : 0 <= b <= 0x7F -> leadByte b = inl b.
Proof. intros H. unfold leadByte. by rewrite (in_range_true 0 0x7F b). Qed.

Lemma leadByte_2 b :
  0xC2 <= b <= 0xDF -> leadByte b = inr (mkDecoder (b mod 32) 0 1 0x80 0xBF).
Proof.
  intros H. unfold leadByte.
  rewrite (in_range_false 0 0x7F b) by lia.
  rewrite (in_range_true 0xC2 0xDF b) by lia. by bits_to_arith.
Qed.

Lemma leadByte_3 b :
  0xE0 <= b <= 0xEF ->
  leadByte b = inr (mkDecoder (b mod 16) 0 2
                      (if b =? 0xE0 then 0xA0 else 0x80)
                      (if b =? 0xED then 0x9F else 0xBF)).
Proof.
  intros H. unfold leadByte.
  rewrite (in_range_false 0 0x7F b) by lia.
  rewrite (in_range_false 0xC2 0xDF b) by lia.
  rewrite (in_range_true 0xE0 0xEF b) by lia. by bits_to_arith.
Qed.

Lemma leadByte_4 b :
  0xF0 <= b <= 0xF4 ->
  leadByte b = inr (mkDecoder (b mod 8) 0 3
                      (if b =? 0xF0 then 0x90 else 0x80)
                      (if b =? 0xF4 then 0x8F else 0xBF)).
Proof.
  intros H. unfold leadByte.
  rewrite (in_range_false 0 0x7F b) by lia.
  rewrite (in_range_false 0xC2 0xDF b) by lia.
  rewrite (in_range_false 0xE0 0xEF b) by lia.
  rewrite (in_range_true 0xF0 0xF4 b) by lia. by bits_to_arith.
Qed.

(** One step of the decoder with no sequence pending. *)
Lemma utf8Decode_lead b bs :
  utf8Decode decoderInit (b :: bs)
  = match leadByte b with
    | inl cp => cp :: utf8Decode decoderInit bs
    | inr st => utf8Decode st bs
    end.
Proof. reflexivity. Qed.

(** One step of the decoder on a continuation byte within bounds. *)
Lemma utf8Decode_continuation cp seen needed lo hi b bs :
  needed <> 0 -> lo <= b <= hi ->
  utf8Decode (mkDecoder cp seen needed lo hi) (b :: bs)
  = if seen + 1 =? needed
    then (cp * 64 + b mod 64) :: utf8Decode decoderInit bs
    else utf8Decode (mkDecoder (cp * 64 + b mod 64) (seen + 1) needed 0x80 0xBF) bs.
Proof.
  intros Hn Hb. cbn [utf8Decode bytesNeeded bytesSeen codePoint lowerBoundary upperBoundary].
  destruct (Z.eqb_spec needed 0); [done|].
  rewrite (in_range_true lo hi b) by done. by bits_to_arith.
Qed.

Lemma utf8Decode_1 b0 rest :
  0 <= b0 <= 0x7F ->
  utf8Decode decoderInit (b0 :: rest) = b0 :: utf8Decode decoderInit rest.
Proof. intros H. by rewrite utf8Decode_lead, leadByte_1. Qed.

Lemma utf8Decode_2 b0 b1 rest :
  0xC2 <= b0 <= 0xDF -> 0x80 <= b1 <= 0xBF ->
  utf8Decode decoderInit (b0 :: b1 :: rest)
  = (b0 mod 32 * 64 + b1 mod 64) :: utf8Decode decoderInit rest.
Proof.
  intros H0 H1. rewrite utf8Decode_lead, leadByte_2 by done.
  by rewrite utf8Decode_continuation by lia.
Qed.

Lemma utf8Decode_3 b0 b1 b2 rest :
  0xE0 <= b0 <= 0xEF ->
  (if b0 =? 0xE0 then 0xA0 else 0x80) <= b1 <= (if b0 =? 0xED then 0x9F else 0xBF) ->
  0x80 <= b2 <= 0xBF ->
  utf8Decode decoderInit (b0 :: b1 :: b2 :: rest)
  = ((b0 mod 16 * 64 + b1 mod 64) * 64 + b2 mod 64) :: utf8Decode decoderInit rest.
Proof.
  intros H0 H1 H2. rewrite utf8Decode_lead, leadByte_3 by done.
  rewrite utf8Decode_continuation by (done || lia).
  change (0 + 1 =? 2) with false. cbv iota.
  by rewrite utf8Decode_continuation by lia.
Qed.

Lemma utf8Decode_4 b0 b1 b2 b3 rest :
  0xF0 <= b0 <= 0xF4 ->
  (if b0 =? 0xF0 then 0x90 else 0x80) <= b1 <= (if b0 =? 0xF4 then 0x8F else 0xBF) ->
  0x80 <= b2 <= 0xBF -> 0x80 <= b3 <= 0xBF ->
  utf8Decode decoderInit (b0 :: b1 :: b2 :: b3 :: rest)
  = (((b0 mod 8 * 64 + b1 mod 64) * 64 + b2 mod 64) * 64 + b3 mod 64)
      :: utf8Decode decoderInit rest.
Proof.
  intros H0 H1 H2 H3. rewrite utf8Decode_lead, leadByte_4 by done.
  rewrite utf8Decode_continuation by (done || lia).
  change (0 + 1 =? 3) with false. cbv iota.
  rewrite utf8Decode_continuation by lia.
  change (0 + 1 + 1 =? 3) with false. cbv iota.
  by rewrite utf8Decode_continuation by lia.
Qed.

(** The decoder reads back what the encoder wrote for a scalar value. *)
Lemma utf8Decode_encode cp rest :
  scalar cp ->
  utf8Decode decoderInit (utf8Encode cp ++ rest) = cp :: utf8Decode decoderInit rest.
Proof.
  intros [Hr Hs].
  destruct (Z.le_gt_cases cp 0x7F); [|
  destruct (Z.le_gt_cases cp 0x7FF); [|
  destruct (Z.le_gt_cases cp 0xFFFF)]].
  - rewrite utf8Encode_1 by lia. cbn [app]. by rewrite utf8Decode_1 by lia.
  - rewrite utf8Encode_2 by lia. cbn [app].
    rewrite utf8Decode_2 by (Z.to_euclidean_division_equations; lia).
    f_equal. Z.to_euclidean_division_equations; lia.
  - rewrite utf8Encode_3 by lia. cbn [app].
    rewrite utf8Decode_3.
    + f_equal. Z.to_euclidean_division_equations; lia.
    + Z.to_euclidean_division_equations; lia.
    + repeat case_cmp; Z.to_euclidean_division_equations; lia.
    + Z.to_euclidean_division_equations; lia.
  - rewrite utf8Encode_4 by lia. cbn [app].
    rewrite utf8Decode_4.
    + f_equal. Z.to_euclidean_division_equations; lia.
    + Z.to_euclidean_division_equations; lia.
    + repeat case_cmp; Z.to_euclidean_division_equations; lia.
    + Z.to_euclidean_division_equations; lia.
    + Z.to_euclidean_division_equations; lia.
Qed.

Lemma utf8Decode_flat_encode cps :
  Forall scalar cps -> utf8Decode decoderInit (flat_map utf8Encode cps) = cps.
Proof.
  induction 1 as [|cp cps Hcp _ IH]; [reflexivity|].
  cbn [flat_map]. by rewrite utf8Decode_encode, IH.
Qed.

End Utf8Facts.

Section Utf16Facts.
Import JS.

Lemma isHighSurrogate_spec c : isHighSurrogate c = true <-> 0xD800 <= c <= 0xDBFF.
Proof. unfold isHighSurrogate. lia. Qed.

Lemma isLowSurrogate_spec c : isLowSurrogate c = true <-> 0xDC00 <= c <= 0xDFFF.
Proof. unfold isLowSurrogate. lia. Qed.

Lemma toScalarValues_cons c s :
  toScalarValues (c :: s)
  = if isHighSurrogate c then
      match s with
      | d :: s'' =>
          if isLowSurrogate d
          then (0x10000 + Z.shiftl (c - 0xD800) 10 + (d - 0xDC00)) :: toScalarValues s''
          else 0xFFFD :: toScalarValues s
      | [] => [0xFFFD]
      end
    else if isLowSurrogate c then 0xFFFD :: toScalarValues s
    else c :: toScalarValues s.
Proof. reflexivity. Qed.

Lemma isWellFormed_cons c s :
  isWellFormed (c :: s)
  = if isHighSurrogate c then
      match s with
      | d :: s'' => isLowSurrogate d && isWellFormed s''
      | [] => false
      end
    else negb (isLowSurrogate c) && isWellFormed s.
Proof. reflexivity. Qed.

(** Induction over a string one code point at a time. *)
Lemma jsstring_ind2 (P : list Z -> Prop) :
  P [] ->
  (forall c, P [c]) ->
  (forall c d s, P s -> P (d :: s) -> P (c :: d :: s)) ->
  forall s, P s.
Proof.
  intros H0 H1 H2 s.
  enough (P s /\ forall c, P (c :: s)) by tauto.
  induction s as [|d s [IH1 IH2]]; [by split|].
  split; [apply IH2|]. intros c. by apply H2.
Qed.

Lemma toScalarValues_scalar s : Forall codeUnit s -> Forall scalar (toScalarValues s).
Proof.
  unfold codeUnit, scalar.
  induction s as [| c | c d s IH1 IH2] using jsstring_ind2; intros H.
  - constructor.
  - inversion H as [|? ? Hc _]; subst. rewrite toScalarValues_cons.
    cbn [toScalarValues].
    destruct (isHighSurrogate c) eqn:Eh; [repeat constructor; lia|].
    destruct (isLowSurrogate c) eqn:El; [repeat constructor; lia|].
    unfold isHighSurrogate in Eh. unfold isLowSurrogate in El.
    repeat constructor; lia.
  - inversion H as [|? ? Hc H']; subst. inversion H' as [|? ? Hd H'']; subst.
    rewrite toScalarValues_cons.
    destruct (isHighSurrogate c) eqn:Eh.
    + destruct (isLowSurrogate d) eqn:El.
      * apply isHighSurrogate_spec in Eh. apply isLowSurrogate_spec in El.
        constructor; [|by apply IH1]. rewrite shiftl_10. lia.
      * constructor; [lia|]. by apply IH2.
    + destruct (isLowSurrogate c) eqn:El.
      * constructor; [lia|]. by apply IH2.
      * unfold isHighSurrogate in Eh. unfold isLowSurrogate in El.
        constructor; [lia|]. by apply IH2.
Qed.

(** A well-formed string is the code units of its scalar values. *)
Lemma codeUnits_toScalarValues s :
  Forall codeUnit s -> isWellFormed s = true ->
  flat_map codeUnits (toScalarValues s) = s.
Proof.
  unfold codeUnit.
  induction s as [| c | c d s IH1 IH2] using jsstring_ind2; intros H Hwf.
  - reflexivity.
  - inversion H as [|? ? Hc _]; subst.
    cbn [isWellFormed toScalarValues] in *.
    destruct (isHighSurrogate c); [discriminate|].
    destruct (isLowSurrogate c); [discriminate|].
    cbn [flat_map app]. unfold codeUnits. by case_cmp.
  - inversion H as [|? ? Hc H']; subst. inversion H' as [|? ? Hd H'']; subst.
    rewrite isWellFormed_cons in Hwf. rewrite toScalarValues_cons.
    destruct (isHighSurrogate c) eqn:Eh.
    + apply andb_prop in Hwf as [El Hwf]. rewrite El.
      apply isHighSurrogate_spec in Eh. apply isLowSurrogate_spec in El.
      cbn [flat_map]. rewrite IH1 by done.
      unfold codeUnits. rewrite shiftl_10. case_cmp. bits_to_arith.
      cbn [app]. f_equal; [|f_equal]; Z.to_euclidean_division_equations; lia.
    + destruct (isLowSurrogate c) eqn:El; [discriminate|].
      cbn [flat_map]. rewrite IH2 by done.
      unfold codeUnits. by case_cmp.
Qed.

(** Dropping a leading U+FEFF commutes with the conversion. *)
Lemma stripBOM_toScalarValues s :
  Forall codeUnit s -> stripBOM (toScalarValues s) = toScalarValues (stripBOM s).
Proof.
  unfold codeUnit. intros H.
  destruct s as [|c s]; [reflexivity|].
  inversion H as [|? ? Hc H']; subst.
  destruct (Z.eq_dec c 0xFEFF) as [->|Hne]; [reflexivity|].
  assert (stripBOM (c :: s) = c :: s) as ->.
  { unfold stripBOM. destruct c as [|p|p]; try done.
    repeat (destruct p as [p|p|]; try done). }
  rewrite toScalarValues_cons.
  assert (forall x r, x <> 0xFEFF -> stripBOM (x :: r) = x :: r) as Hs.
  { intros x r Hx. unfold stripBOM. destruct x as [|p|p]; try done.
    repeat (destruct p as [p|p|]; try done). }
  destruct (isHighSurrogate c) eqn:Eh.
  - apply isHighSurrogate_spec in Eh.
    destruct s as [|d s']; [by apply Hs|].
    inversion H' as [|? ? Hd _]; subst.
    destruct (isLowSurrogate d) eqn:El; [|by apply Hs].
    apply isLowSurrogate_spec in El.
    apply Hs. rewrite shiftl_10. lia.
  - destruct (isLowSurrogate c); by apply Hs.
Qed.

Lemma stripBOM_wellFormed s :
  Forall codeUnit s -> isWellFormed s = true ->
  Forall codeUnit (stripBOM s) /\ isWellFormed (stripBOM s) = true.
Proof.
  intros H Hwf. destruct s as [|c s]; [done|].
  destruct (Z.eq_dec c 0xFEFF) as [->|Hne].
  - cbn [stripBOM]. inversion H; subst. split; [done|].
    rewrite isWellFormed_cons in Hwf. exact Hwf.
  - assert (stripBOM (c :: s) = c :: s) as ->; [|done].
    unfold stripBOM. destruct c as [|p|p]; try done.
    repeat (destruct p as [p|p|]; try done).
Qed.

Lemma TextEncoder_octets s : Forall codeUnit s -> Forall octet (TextEncoder_encode s).
Proof.
  intros H. unfold TextEncoder_encode.
  pose proof (toScalarValues_scalar s H) as Hs.
  induction Hs as [|cp cps Hcp _ IH]; [constructor|].
  cbn [flat_map]. apply Forall_app. split; [by apply utf8Encode_octets | done].
Qed.

(** Decoding the encoding of a well-formed string returns the string
    without one leading U+FEFF. *)
Lemma TextDecoder_TextEncoder s :
  Forall codeUnit s -> isWellFormed s = true ->
  TextDecoder_decode (TextEncoder_encode s) = stripBOM s.
Proof.
  intros H Hwf. unfold TextDecoder_decode, TextEncoder_encode.
  rewrite utf8Decode_flat_encode by by apply toScalarValues_scalar.
  rewrite stripBOM_toScalarValues by done.
  destruct (stripBOM_wellFormed s H Hwf) as [H' Hwf'].
  by apply codeUnits_toScalarValues.
Qed.

End Utf16Facts.

(** * Claims about the contract *)
Section ContractClaims.
Import DeviceMaintenance Scenario.

Lemma with_dev005_storage :
  with_dev005 =
  mkState
    (<["dev-005"%string :=
         mkDevice "Test Device" "Test Type" Operational 1700000000 1700086400
           (JS.js "secret-notes") (JS.js "secret-calibration") true]> ∅)
    (<[admin := true]> ∅) admin.
Proof. by vm_compute. Qed.

Lemma with_dev005'_storage :
  with_dev005' =
  mkState
    (<["dev-005"%string :=
         mkDevice "Test Device" "Test Type" Operational 1700000000 1700086400
           (JS.js "other-notes") (JS.js "other-calibration") true]> ∅)
    (<[admin := true]> ∅) admin.
Proof. by vm_compute. Qed.

Lemma with_dev005_same_public : same_public with_dev005 with_dev005'.
Proof.
  rewrite with_dev005_storage, with_dev005'_storage.
  split; [|done]. intros i.
  destruct (decide ("dev-005"%string = i)) as [<-|Hne].
  - by rewrite !device_at_insert_eq.
  - by rewrite !device_at_insert_ne.
Qed.

(** C1 (the claim fails on the code): [devices] is declared [public], so
    the contract has a getter [devices(id)] outside [onlyAuthorized].  On
    two storages that differ only in the ciphertext of [dev-005], a sender
    who is neither the owner nor authorized is refused by
    [getEncryptedRecords] and reads the two different ciphertexts through
    [devices]. *)
Theorem C1_devices_getter_returns_ciphertext :
  same_public with_dev005 with_dev005'
  /\ authorized with_dev005 outsider = false
  /\ authorized with_dev005' outsider = false
  /\ observation (exec with_dev005 env_outsider (call_getEncryptedRecords "dev-005"))
     = inr "Not authorized technician"%string
  /\ observation (exec with_dev005 env_outsider (call_devices "dev-005"))
     = inl (RetDevice "Test Device" "Test Type" Operational 1700000000 1700086400
              (JS.js "secret-notes") (JS.js "secret-calibration") true, [])
  /\ observation (exec with_dev005' env_outsider (call_devices "dev-005"))
     = inl (RetDevice "Test Device" "Test Type" Operational 1700000000 1700086400
              (JS.js "other-notes") (JS.js "other-calibration") true, []).
Proof.
  split; [apply with_dev005_same_public|].
  repeat split; by vm_compute.
Qed.

(** C5 (as amended): a successful [updateMaintenance] by a sender that
    passes [onlyAuthorized], on an existing id and with two non-empty
    ciphertexts, overwrites status, both timestamps and both ciphertext
    members of that record, keeps its name, device type and existence
    flag, leaves every other record, the authorization table and the
    owner as they were, and emits exactly one [MaintenanceUpdated] with the
    id, the sender and the block timestamp. *)
Theorem C5_update_overwrites_maintenance_fields
    s env deviceId status lastMaintenance nextCalibration notes calibration :
  authorized s (msg_sender env) = true ->
  exists_ (device_at s deviceId) = true ->
  notes <> [] -> calibration <> [] ->
  exists s',
    exec s env (call_updateMaintenance deviceId status lastMaintenance
                  nextCalibration notes calibration)
    = Success s' RetNone
        [MaintenanceUpdated deviceId (msg_sender env) (block_timestamp env)]
    /\ device_at s' deviceId
       = mkDevice (name (device_at s deviceId)) (deviceType (device_at s deviceId))
           status lastMaintenance nextCalibration notes calibration true
    /\ (forall j, j <> deviceId -> device_at s' j = device_at s j)
    /\ authorizedTechnicians s' = authorizedTechnicians s
    /\ owner s' = owner s.
Proof.
  intros Hauth Hex Hn Hc. simpl.
  unfold updateMaintenance, onlyAuthorized.
  unfold authorized in Hauth.
  rewrite (require_true _ _ _ Hauth), (require_true _ _ _ Hex).
  rewrite !require_true by (by destruct notes, calibration).
  eexists; split; [reflexivity|].
  destruct s as [d a o]; simpl. rewrite Hex.
  split; [apply device_at_insert_eq|].
  split; [|done].
  intros j Hj. by apply device_at_insert_ne.
Qed.

Lemma C5_witness :
  exists s',
    exec with_technician (mkEnv technician 1700100005) update_dev005
    = Success s' RetNone [MaintenanceUpdated "dev-005" technician 1700100005]
    /\ device_at s' "dev-005"
       = mkDevice (name (device_at with_technician "dev-005"))
           (deviceType (device_at with_technician "dev-005"))
           Maintenance 1700100000 1705284000
           (JS.js "updated-notes") (JS.js "updated-calibration") true
    /\ (forall j, j <> "dev-005"%string -> device_at s' j = device_at with_technician j)
    /\ authorizedTechnicians s' = authorizedTechnicians with_technician
    /\ owner s' = owner with_technician.
Proof.
  apply (C5_update_overwrites_maintenance_fields with_technician
           (mkEnv technician 1700100005) "dev-005" Maintenance 1700100000
           1705284000 (JS.js "updated-notes") (JS.js "updated-calibration"));
    [vm_compute; reflexivity | vm_compute; reflexivity | discriminate | discriminate].
Defined.

(** C5 (the claim as stated fails): the same successful update applied to
    two storages whose [dev-005] differ in name and type leaves two
    different names and types: they are not overwritten by the call. *)
Lemma C5_counterexample :
  observation (exec with_dev005 env_admin update_dev005)
    = inl (RetNone, [MaintenanceUpdated "dev-005" admin 1700100005])
  /\ observation (exec with_dev005_renamed env_admin update_dev005)
     = inl (RetNone, [MaintenanceUpdated "dev-005" admin 1700100005])
  /\ name (device_at (storage_after with_dev005
                        (exec with_dev005 env_admin update_dev005)) "dev-005")
     = "Test Device"%string
  /\ deviceType (device_at (storage_after with_dev005
                              (exec with_dev005 env_admin update_dev005)) "dev-005")
     = "Test Type"%string
  /\ name (device_at (storage_after with_dev005_renamed
                        (exec with_dev005_renamed env_admin update_dev005)) "dev-005")
     = "MRI Scanner PRO-X200"%string
  /\ deviceType (device_at (storage_after with_dev005_renamed
                              (exec with_dev005_renamed env_admin update_dev005)) "dev-005")
     = "Magnetic Resonance Imaging"%string.
Proof. repeat split; by vm_compute. Qed.

(** C7: on a storage that holds a record under [deviceId], a
    [registerDevice] call with that id reverts, with "Device already
    exists" for a sender that passes [onlyAuthorized] (the modifier runs
    first and refuses any other sender), and the storage, hence the
    existing record with all its fields and its existence flag, is
    unchanged. *)
Theorem C7_register_existing_id_reverts
    s env deviceId name deviceType status lastMaintenance nextCalibration
    notes calibration :
  exists_ (device_at s deviceId) = true ->
  exec s env (call_registerDevice deviceId name deviceType status
                lastMaintenance nextCalibration notes calibration)
  = Revert (if authorized s (msg_sender env)
            then "Device already exists" else "Not authorized technician")
  /\ storage_after s
       (exec s env (call_registerDevice deviceId name deviceType status
                      lastMaintenance nextCalibration notes calibration)) = s
  /\ device_at
       (storage_after s
          (exec s env (call_registerDevice deviceId name deviceType status
                         lastMaintenance nextCalibration notes calibration)))
       deviceId
     = device_at s deviceId.
Proof.
  intros Hex. simpl.
  unfold registerDevice, onlyAuthorized, authorized.
  destruct (technician_at s (msg_sender env) || (msg_sender env =? owner s)%N); simpl.
  - rewrite Hex. simpl. done.
  - done.
Qed.

Lemma C7_witness :
  exec with_dev005 env_admin register_dev005_again = Revert "Device already exists"
  /\ storage_after with_dev005 (exec with_dev005 env_admin register_dev005_again)
     = with_dev005
  /\ device_at
       (storage_after with_dev005 (exec with_dev005 env_admin register_dev005_again))
       "dev-005"
     = device_at with_dev005 "dev-005".
Proof.
  apply (C7_register_existing_id_reverts with_dev005 env_admin
           "dev-005" "Another" "Type" Critical 1%N 2%N (JS.js "n") (JS.js "c")).
  vm_compute. reflexivity.
Defined.

(** C8: in every state reachable from a deployment, the owner is the
    deployer and [isAuthorized(owner)] returns true.  A [revokeTechnician]
    call by the owner on the owner itself does not revert while the table
    entry seeded by the constructor is set; it clears that entry, and
    [isAuthorized(owner)] still returns true afterwards. *)
Theorem C8_owner_always_authorized deployer s :
  reachable deployer s ->
  owner s = deployer
  /\ (forall env, exec s env (call_isAuthorized deployer) = Success s (RetBool true) [])
  /\ technician_at (constructor deployer) deployer = true
  /\ (forall env, msg_sender env = deployer -> technician_at s deployer = true ->
        exists s',
          exec s env (call_revokeTechnician deployer)
          = Success s' RetNone [TechnicianRevoked deployer deployer]
          /\ reachable deployer s'
          /\ technician_at s' deployer = false
          /\ exec s' env (call_isAuthorized deployer) = Success s' (RetBool true) []).
Proof.
  intros Hr. pose proof (reachable_owner _ _ Hr) as Ho.
  split; [done|]. split; [|split].
  - intros env. simpl. unfold isAuthorized. rewrite Ho, N.eqb_refl.
    by rewrite orb_true_r.
  - apply technician_at_insert_eq.
  - intros env Hs Ht. simpl.
    unfold revokeTechnician, onlyOwner.
    rewrite require_true by (rewrite Hs, Ho; apply N.eqb_refl).
    rewrite (require_true _ _ _ Ht). rewrite Hs.
    eexists; split; [reflexivity|].
    split; [|split].
    + pose proof (reachable_call deployer s env (call_revokeTechnician deployer) Hr) as Hr'.
      simpl in Hr'. unfold revokeTechnician, onlyOwner in Hr'.
      rewrite require_true in Hr' by (rewrite Hs, Ho; apply N.eqb_refl).
      rewrite (require_true _ _ _ Ht), Hs in Hr'. exact Hr'.
    + apply technician_at_insert_eq.
    + unfold isAuthorized. simpl. rewrite Ho, N.eqb_refl. by rewrite orb_true_r.
Qed.

Lemma C8_witness :
  owner deployed = admin
  /\ (forall env, exec deployed env (call_isAuthorized admin) = Success deployed (RetBool true) [])
  /\ technician_at (constructor admin) admin = true
  /\ (forall env, msg_sender env = admin -> technician_at deployed admin = true ->
        exists s',
          exec deployed env (call_revokeTechnician admin)
          = Success s' RetNone [TechnicianRevoked admin admin]
          /\ reachable admin s'
          /\ technician_at s' admin = false
          /\ exec s' env (call_isAuthorized admin) = Success s' (RetBool true) []).
Proof.
  apply (C8_owner_always_authorized admin deployed).
  apply reachable_deploy.
Defined.

(** The self-revocation at deployment, run. *)
Example owner_revokes_itself :
  observation (exec deployed env_admin (call_revokeTechnician admin))
    = inl (RetNone, [TechnicianRevoked admin admin])
  /\ observation
       (exec (storage_after deployed (exec deployed env_admin (call_revokeTechnician admin)))
          env_outsider (call_isAuthorized admin))
     = inl (RetBool true, [])
  /\ observation
       (exec (storage_after deployed (exec deployed env_admin (call_revokeTechnician admin)))
          env_admin (call_revokeTechnician admin))
     = inr "Technician not authorized"%string.
Proof. repeat split; by vm_compute. Qed.

End ContractClaims.

(** * Claims about key derivation and the envelope codecs *)
Section CryptoClaims.
Import JS Crypto.

(** The derivation never throws. *)
Lemma deriveKeyFromAddress_total (address : list Z) (chainId : N) :
  exists key, deriveKeyFromAddress address chainId = Ok key.
Proof. eexists. reflexivity. Qed.

(** C3 (the claim fails on the code): for every address and chain id the
    derivation succeeds with a PBKDF2 / SHA-256 key request over the UTF-8
    bytes of the canonical address followed by the decimal chain id, the
    fixed salt, and a 256-bit AES-GCM key; but the iteration count it
    passes is 1000, below the 100,000 of the claim. *)
Theorem C3_derivation_parameters (address : list Z) (chainId : N) :
  exists key,
    deriveKeyFromAddress address chainId = Ok key
    /\ kdf_name key = "PBKDF2"%string
    /\ kdf_hash key = "SHA-256"%string
    /\ kdf_salt key = stringToArrayBuffer (js "secure-device-maintenance-salt")
    /\ key_name key = "AES-GCM"%string
    /\ key_length key = 256
    /\ base_keyData (kdf_baseKey key)
       = stringToArrayBuffer
           ((if startsWith (toLowerCase address) (js "0x")
             then slice_from 2 (toLowerCase address) else toLowerCase address)
            ++ toString10 chainId)
    /\ kdf_iterations key = 1000
    /\ kdf_iterations key < 100000.
Proof.
  eexists. split; [reflexivity|]. simpl. repeat split; lia.
Qed.

(** C9 (the claim as stated fails): an identity that is not 20 octets of
    hex is accepted and a key is derived from it. *)
Lemma C9_counterexample :
  wellFormedIdentity (js "not-an-address") = false
  /\ deriveKeyFromAddress (js "not-an-address") 1
     = Ok (deriveKey "PBKDF2" (stringToArrayBuffer (js "secure-device-maintenance-salt"))
             1000 "SHA-256"
             (importKey "raw" (js "not-an-address1") "PBKDF2" false ["deriveKey"%string])
             "AES-GCM" 256 false ["encrypt"%string; "decrypt"%string]).
Proof. split; by vm_compute. Qed.

(** C9 (as amended): the derivation does not validate the identity: for
    every string, well-formed identity or not, it returns a key, derived
    from the lower-cased string without a leading [0x] followed by the
    decimal chain id; it never throws. *)
Theorem C9_derivation_accepts_any_identity (address : list Z) (chainId : N) :
  exists key,
    deriveKeyFromAddress address chainId = Ok key
    /\ base_keyData (kdf_baseKey key)
       = stringToArrayBuffer
           ((if startsWith (toLowerCase address) (js "0x")
             then slice_from 2 (toLowerCase address) else toLowerCase address)
            ++ toString10 chainId)
    /\ forall e, deriveKeyFromAddress address chainId <> Throw e.
Proof.
  eexists. split; [reflexivity|]. split; [reflexivity|]. intros e. discriminate.
Qed.

(** C6 (the claim as stated fails): an input with exactly one [:] whose
    fields are not hex is not rejected as malformed.  Its fields are read
    by [hexToBytes] and handed to the cipher: ["zz:zz"] fails there, with
    the error of a failed decryption, and an envelope whose nonce field has
    spaces for its hex zeros decrypts to the plaintext. *)
Lemma C6_counterexample :
  decryptString SampleCipher.decrypt (js "zz:zz") Sample.address Sample.chain
    = Throw (DecryptionFailed OperationError)
  /\ hexToBytes (js "zz") = [0]
  /\ encryptString SampleCipher.encrypt Sample.iv (js "ok") Sample.address Sample.chain
     = Ok Sample.envelope
  /\ decryptString SampleCipher.decrypt Sample.envelope_spaced Sample.address Sample.chain
     = Ok (js "ok").
Proof. repeat split; by vm_compute. Qed.

(** C6 (as amended): [decryptString] fails with one of the two format
    errors exactly when the input does not contain exactly one [:]: with
    none the error is the missing separator, with two or more it is the
    number of parts.  With exactly one, the two fields are not checked to
    be hex: they are read by [hexToBytes] as they are, and the call ends
    as the cipher does on those bytes, with the decoded plaintext or with
    the error of a failed decryption. *)
Theorem C6_malformed_iff_separator_count
    (subtle_decrypt : CryptoKey -> list Z -> list Z -> option (list Z))
    (encryptedData address : list Z) (chainId : N) :
  ((exists err, decryptString subtle_decrypt encryptedData address chainId = Throw err
                /\ MalformedEnvelope err)
   <-> count_occ Z.eq_dec encryptedData 58 <> 1%nat)
  /\ (forall ivHex encryptedHex,
        split 58 encryptedData = [ivHex; encryptedHex] ->
        exists key,
          deriveKeyFromAddress address chainId = Ok key
          /\ decryptString subtle_decrypt encryptedData address chainId
             = match subtle_decrypt key (hexToBytes ivHex) (hexToBytes encryptedHex) with
               | Some decrypted => Ok (arrayBufferToString decrypted)
               | None => Throw (DecryptionFailed OperationError)
               end)
  /\ (count_occ Z.eq_dec encryptedData 58 = 0%nat ->
      decryptString subtle_decrypt encryptedData address chainId
      = Throw (DecryptionFailed MissingSeparator))
  /\ ((2 <= count_occ Z.eq_dec encryptedData 58%Z)%nat ->
      decryptString subtle_decrypt encryptedData address chainId
      = Throw (DecryptionFailed ExpectedTwoParts)).
Proof.
  pose proof (split_length 58 encryptedData) as Hlen.
  pose proof (includes_count encryptedData 58) as Hinc.
  split; [|split; [|split]].
  - unfold decryptString, MalformedEnvelope. split.
    + intros (err & Hd & Herr).
      destruct (includes encryptedData 58) eqn:Ei; simpl in Hd.
      * destruct (split 58 encryptedData) as [|p1 [|p2 [|p3 ps]]] eqn:Es;
          simpl in Hlen; try lia.
        exfalso. simpl in Hd.
        destruct (subtle_decrypt _ _ _); simpl in Hd;
          destruct Herr; congruence.
      * destruct (count_occ Z.eq_dec encryptedData 58); [lia|discriminate].
    + intros Hc.
      destruct (includes encryptedData 58) eqn:Ei; simpl.
      * destruct (split 58 encryptedData) as [|p1 [|p2 [|p3 ps]]] eqn:Es;
          simpl in Hlen; try lia; eauto.
      * eauto.
  - intros ivHex encryptedHex Hs. eexists. split; [reflexivity|].
    unfold decryptString. rewrite Hs in Hlen. simpl in Hlen.
    rewrite Hinc, Hs.
    replace (count_occ Z.eq_dec encryptedData 58) with 1%nat by lia. simpl.
    by destruct (subtle_decrypt _ _ _).
  - intros Hc. unfold decryptString. by rewrite Hinc, Hc.
  - intros Hc. unfold decryptString. rewrite Hinc.
    destruct (count_occ Z.eq_dec encryptedData 58) as [|[|n]] eqn:En; [lia|lia|].
    cbn [Nat.eqb negb].
    by destruct (split 58 encryptedData) as [|p1 [|p2 [|p3 ps]]];
      cbn [length] in Hlen; try lia.
Qed.

(** C10: on an envelope with exactly one [:], whose two fields are
    lowercase hex of even length, the first of 12 octets,
    [bytesToEncryptedString] with an iv length of 12 inverts
    [encryptedStringToBytes]. *)
Theorem C10_storage_codec_inverse (e ivHex encryptedHex : list Z) :
  split 58 e = [ivHex; encryptedHex] ->
  Forall lowerHexDigit ivHex -> Forall lowerHexDigit encryptedHex ->
  Nat.Even (length ivHex) -> Nat.Even (length encryptedHex) ->
  length (hexToBytes ivHex) = 12%nat ->
  bytesToEncryptedString (encryptedStringToBytes e) 12 = e.
Proof.
  intros Hs H1 H2 He1 He2 Hl.
  destruct (split_two_inv _ _ _ _ Hs) as (-> & Hn1 & _).
  unfold encryptedStringToBytes, bytesToEncryptedString, slice_to, slice_from.
  rewrite replace_first_app_sep by done.
  rewrite hexToBytes_lowerHex in Hl by done.
  rewrite hexToBytes_lowerHex by (by apply Forall_app).
  rewrite hexPairs_app by done.
  rewrite <- Hl, take_app_length, drop_app_length.
  by rewrite !bytesToHex_hexPairs.
Qed.

Lemma C10_witness :
  bytesToEncryptedString (encryptedStringToBytes Sample.envelope) 12 = Sample.envelope.
Proof.
  apply (C10_storage_codec_inverse Sample.envelope
           (js "000102030405060708090a0b")
           (js "6f6b32323232323232323232323232323232")).
  - vm_compute. reflexivity.
  - apply Forall_forall. intros c Hc. apply isLowerHexDigit_spec.
    revert c Hc. apply Forall_forall. vm_compute. repeat constructor.
  - apply Forall_forall. intros c Hc. apply isLowerHexDigit_spec.
    revert c Hc. apply Forall_forall. vm_compute. repeat constructor.
  - exists 12%nat. reflexivity.
  - exists 18%nat. reflexivity.
  - vm_compute. reflexivity.
Defined.

End CryptoClaims.

(** * The record cipher *)
Section CipherClaims.
Import JS Crypto.

Lemma stripBOM_other s : startsWith s [0xFEFF] = false -> stripBOM s = s.
Proof.
  destruct s as [|c s]; [done|]. cbn [startsWith].
  destruct (Z.eqb_spec 0xFEFF c) as [<-|Hne]; [by destruct s|]. intros _.
  unfold stripBOM. destruct c as [|p|p]; try done.
  repeat (destruct p as [p|p|]; try done).
Qed.

(** The stand-in cipher meets the contract asked of [crypto.subtle]. *)
Lemma SampleCipher_correct : aead_correct SampleCipher.encrypt SampleCipher.decrypt.
Proof.
  intros key iv data _ _ Hd. exists (data ++ SampleCipher.tag key iv).
  split; [reflexivity|]. split.
  - apply Forall_app. split; [done|].
    unfold SampleCipher.tag. apply Forall_forall. intros x Hx.
    apply list_elem_of_In, repeat_spec in Hx. subst x.
    unfold octet. apply Z.mod_pos_bound. lia.
  - unfold SampleCipher.decrypt.
    assert (length (SampleCipher.tag key iv) = 16%nat) as Ht
      by apply repeat_length.
    rewrite length_app, Ht.
    replace (length data + 16 - 16)%nat with (length data) by lia.
    rewrite drop_app_length, take_app_length.
    rewrite bool_decide_eq_true_2 by done.
    by destruct (Nat.leb_spec 16 (length data + 16)); [|lia].
Qed.

(** The envelope [encryptString] builds from a nonce and a ciphertext is
    parsed back to them by [decryptString]. *)
Lemma envelope_parse iv ct :
  Forall octet iv -> Forall octet ct ->
  let e := bytesToHex iv ++ js ":" ++ bytesToHex ct in
  includes e 58 = true
  /\ split 58 e = [bytesToHex iv; bytesToHex ct].
Proof.
  intros Hiv Hct e. subst e. change (js ":") with [58]. cbn [app].
  split; [apply includes_app_sep|].
  rewrite split_app_sep by by apply lowerHex_no_colon, bytesToHex_lowerHex.
  by rewrite split_no_sep by by apply lowerHex_no_colon, bytesToHex_lowerHex.
Qed.

(** C4 (the claim fails on the code, at a concrete input): the plaintext
    U+FEFF "ok" is well-formed, and under a cipher that meets the
    contract its envelope decrypts to "ok": the leading U+FEFF is lost. *)
Lemma C4_counterexample :
  aead_correct SampleCipher.encrypt SampleCipher.decrypt
  /\ Forall codeUnit Sample.plaintext_bom
  /\ isWellFormed Sample.plaintext_bom = true
  /\ encryptString SampleCipher.encrypt Sample.iv Sample.plaintext_bom
       Sample.address Sample.chain = Ok Sample.envelope_bom
  /\ decryptString SampleCipher.decrypt Sample.envelope_bom Sample.address Sample.chain
     = Ok [111; 107].
Proof.
  split; [apply SampleCipher_correct|].
  split; [repeat constructor; unfold codeUnit; lia|].
  repeat split; by vm_compute.
Qed.

(** C4 (the claim fails on the code; what the code does): under a
    cipher that meets the contract of AES-GCM, for a 12-octet nonce and
    every well-formed plaintext, [encryptString] returns an envelope and
    [decryptString], with the same address and chain id, returns the
    plaintext without one leading U+FEFF: [arrayBufferToString] makes
    its decoder without [ignoreBOM].  So the round trip holds whenever
    the plaintext does not begin with U+FEFF, the empty string and
    strings of multi-unit characters included, and fails for every
    plaintext that begins with U+FEFF. *)
Theorem C4_roundtrip_up_to_BOM
    (subtle_encrypt subtle_decrypt : CryptoKey -> list Z -> list Z -> option (list Z))
    (iv plaintext address : list Z) (chainId : N) :
  aead_correct subtle_encrypt subtle_decrypt ->
  length iv = 12%nat -> Forall octet iv ->
  Forall codeUnit plaintext -> isWellFormed plaintext = true ->
  exists envelope,
    encryptString subtle_encrypt iv plaintext address chainId = Ok envelope
    /\ decryptString subtle_decrypt envelope address chainId = Ok (stripBOM plaintext)
    /\ (startsWith plaintext [0xFEFF] = false ->
        decryptString subtle_decrypt envelope address chainId = Ok plaintext)
    /\ (startsWith plaintext [0xFEFF] = true ->
        decryptString subtle_decrypt envelope address chainId <> Ok plaintext).
Proof.
  intros Haead Hlen Hiv Hp Hwf.
  destruct (deriveKeyFromAddress_total address chainId) as (key & Hkey).
  destruct (Haead key iv (stringToArrayBuffer plaintext) Hlen Hiv
              (TextEncoder_octets plaintext Hp)) as (ct & Henc & Hct & Hdec).
  exists (bytesToHex iv ++ js ":" ++ bytesToHex ct).
  assert (decryptString subtle_decrypt (bytesToHex iv ++ js ":" ++ bytesToHex ct)
            address chainId = Ok (stripBOM plaintext)) as Hd.
  { destruct (envelope_parse iv ct Hiv Hct) as [Hinc Hsplit].
    unfold decryptString. rewrite Hinc, Hsplit. cbn [negb].
    rewrite !hexToBytes_bytesToHex by done.
    rewrite Hkey. cbn [bind]. rewrite Hdec. cbn [await bind try_catch].
    unfold arrayBufferToString. by rewrite TextDecoder_TextEncoder. }
  split; [|split; [|split]].
  - unfold encryptString. rewrite Hkey. cbn [bind]. rewrite Henc. reflexivity.
  - exact Hd.
  - intros Hb. by rewrite Hd, stripBOM_other.
  - intros Hb. rewrite Hd. destruct plaintext as [|c r]; [discriminate|].
    cbn [startsWith] in Hb. apply andb_prop in Hb as [Hc _].
    apply Z.eqb_eq in Hc. subst c. cbn [stripBOM].
    intros E. injection E as E. apply (f_equal length) in E.
    cbn [length] in E. lia.
Qed.

Lemma C4_witness :
  exists envelope,
    encryptString SampleCipher.encrypt Sample.iv [0xE9; 0xD83D; 0xDE00]
      Sample.address Sample.chain = Ok envelope
    /\ decryptString SampleCipher.decrypt envelope Sample.address Sample.chain
       = Ok (stripBOM [0xE9; 0xD83D; 0xDE00])
    /\ (startsWith [0xE9; 0xD83D; 0xDE00] [0xFEFF] = false ->
        decryptString SampleCipher.decrypt envelope Sample.address Sample.chain
        = Ok [0xE9; 0xD83D; 0xDE00])
    /\ (startsWith [0xE9; 0xD83D; 0xDE00] [0xFEFF] = true ->
        decryptString SampleCipher.decrypt envelope Sample.address Sample.chain
        <> Ok [0xE9; 0xD83D; 0xDE00]).
Proof.
  apply (C4_roundtrip_up_to_BOM SampleCipher.encrypt SampleCipher.decrypt
           Sample.iv [0xE9; 0xD83D; 0xDE00] Sample.address Sample.chain).
  - apply SampleCipher_correct.
  - reflexivity.
  - repeat constructor; unfold octet; lia.
  - repeat constructor; unfold codeUnit; lia.
  - vm_compute. reflexivity.
Defined.
End CipherClaims.

(** * The client hook over the contract *)
Section HookClaims.
Import JS Crypto.

Lemma hexOfOctet_length_ge b : (2 <= length (hexOfOctet b))%nat.
Proof. unfold hexOfOctet, padStart. rewrite length_app, repeat_length. lia. Qed.

Lemma bytesToHex_length_ge bs : (2 * length bs <= length (bytesToHex bs))%nat.
Proof.
  induction bs as [|b bs IH]; [done|].
  rewrite bytesToHex_cons, length_app. pose proof (hexOfOctet_length_ge b).
  simpl. lia.
Qed.

Lemma utf8Encode_length_ge cp : (1 <= length (utf8Encode cp))%nat.
Proof. unfold utf8Encode. repeat case_cmp; simpl; lia. Qed.

Lemma utf8Encode_length_pair cp : 0x10000 <= cp -> length (utf8Encode cp) = 4%nat.
Proof. intros H. by rewrite utf8Encode_4. Qed.

(** The UTF-8 bytes of a string are at least as many as its code units. *)
Lemma TextEncoder_length_ge s : (length s <= length (TextEncoder_encode s))%nat.
Proof.
  unfold TextEncoder_encode.
  induction s as [| c | c d s IH1 IH2] using jsstring_ind2.
  - done.
  - rewrite toScalarValues_cons. cbn [toScalarValues].
    destruct (isHighSurrogate c); [|destruct (isLowSurrogate c)];
      cbn [flat_map]; rewrite length_app;
      match goal with |- context [utf8Encode ?x] =>
        pose proof (utf8Encode_length_ge x) end; simpl; lia.
  - rewrite toScalarValues_cons.
    destruct (isHighSurrogate c) eqn:Eh.
    + destruct (isLowSurrogate d) eqn:El.
      * apply isHighSurrogate_spec in Eh. apply isLowSurrogate_spec in El.
        cbn [flat_map]. rewrite length_app, utf8Encode_length_pair.
        -- simpl. lia.
        -- rewrite shiftl_10. lia.
      * cbn [flat_map]. rewrite length_app.
        pose proof (utf8Encode_length_ge 0xFFFD). simpl in *. lia.
    + destruct (isLowSurrogate c); cbn [flat_map]; rewrite length_app;
        match goal with |- context [length (utf8Encode ?x)] =>
          pose proof (utf8Encode_length_ge x) end; simpl in *; lia.
Qed.

(** What [bytesToEncryptedString] makes of the bytes that
    [updateMaintenance] and [registerDevice] of the hook store is longer
    than the string they stored, hence never that string. *)
Lemma reencoded_envelope_longer (e : list Z) (ivLength : nat) :
  (length e < length (bytesToEncryptedString (Hook.toUtf8Bytes e) ivLength))%nat.
Proof.
  unfold bytesToEncryptedString, Hook.toUtf8Bytes, slice_to, slice_from.
  change (js ":") with [58]. rewrite !length_app. cbn [length].
  pose proof (bytesToHex_length_ge (take ivLength (TextEncoder_encode e))) as H1.
  pose proof (bytesToHex_length_ge (drop ivLength (TextEncoder_encode e))) as H2.
  pose proof (TextEncoder_length_ge e) as H3.
  pose proof (take_drop ivLength (TextEncoder_encode e)) as H4.
  apply (f_equal length) in H4. rewrite length_app in H4. lia.
Qed.

Lemma reencoded_envelope_differs (e : list Z) (ivLength : nat) :
  bytesToEncryptedString (Hook.toUtf8Bytes e) ivLength <> e.
Proof.
  intros H. pose proof (reencoded_envelope_longer e ivLength) as Hl.
  rewrite H in Hl. lia.
Qed.

Import DeviceMaintenance.

(** A successful [updateMaintenance] was sent by an authorized sender for
    an existing record, and stores its arguments. *)
Lemma updateMaintenance_success_inv s env i st lm nc en ec s' r l :
  updateMaintenance s env i st lm nc en ec = Success s' r l ->
  authorized s (msg_sender env) = true
  /\ exists_ (device_at s i) = true
  /\ s' = mkState
            (<[i := mkDevice (name (device_at s i)) (deviceType (device_at s i))
                      st lm nc en ec true]> (devices s))
            (authorizedTechnicians s) (owner s).
Proof.
  unfold updateMaintenance, onlyAuthorized, require, authorized. cbv zeta.
  destruct (technician_at s (msg_sender env) || (msg_sender env =? owner s)%N);
    [|discriminate].
  destruct (exists_ (device_at s i)) eqn:Ex; [|discriminate].
  destruct (0 <? length en)%nat; [|discriminate].
  destruct (0 <? length ec)%nat; [|discriminate].
  intros H. injection H as <- _ _. done.
Qed.

Lemma registerDevice_success_inv s env i n t st lm nc en ec s' r l :
  registerDevice s env i n t st lm nc en ec = Success s' r l ->
  authorized s (msg_sender env) = true
  /\ exists_ (device_at s i) = false
  /\ s' = mkState (<[i := mkDevice n t st lm nc en ec true]> (devices s))
            (authorizedTechnicians s) (owner s).
Proof.
  unfold registerDevice, onlyAuthorized, require, authorized.
  destruct (technician_at s (msg_sender env) || (msg_sender env =? owner s)%N);
    [|discriminate].
  destruct (exists_ (device_at s i)) eqn:Ex; [discriminate|]. cbn [negb].
  destruct (0 <? length en)%nat; [|discriminate].
  destruct (0 <? length ec)%nat; [|discriminate].
  intros H. injection H as <- _ _. done.
Qed.

(** A transaction that went through carried a member of the enum. *)
Lemma send_success_inv s status call s' :
  Hook.send s status call = Hook.Ok s' ->
  exists st r l,
    status = Integer (Z.of_N (HookViews.statusNumber st))
    /\ call st = Success s' r l.
Proof.
  unfold Hook.send, Hook.encode_uint8, Hook.decode_DeviceStatus, Hook.submit.
  destruct status as [z|]; [|discriminate].
  destruct ((0 <=? z) && (z <=? 255)); [|discriminate].
  destruct (Z.eqb_spec z 0) as [->|_].
  { intros H. exists Operational.
    destruct (call Operational) as [s1 r l|]; [|discriminate].
    injection H as ->. by exists r, l. }
  destruct (Z.eqb_spec z 1) as [->|_].
  { intros H. exists Maintenance.
    destruct (call Maintenance) as [s1 r l|]; [|discriminate].
    injection H as ->. by exists r, l. }
  destruct (Z.eqb_spec z 2) as [->|_]; [|discriminate].
  intros H. exists Critical.
  destruct (call Critical) as [s1 r l|]; [|discriminate].
  injection H as ->. by exists r, l.
Qed.

(** What a successful [updateMaintenance] of the hook went through. *)
Lemma hook_update_inv subtle_encrypt isAddress cl acct now timestamp
    ivNotes ivCalibration s deviceId status notes calibration s' :
  Hook.updateMaintenance subtle_encrypt isAddress cl acct now timestamp
    ivNotes ivCalibration s deviceId status notes calibration = Hook.Ok s' ->
  exists e1 e2 st r l,
    Hook.connected acct = true
    /\ encryptString subtle_encrypt ivNotes notes
         (Hook.address_string acct) (Hook.chainId acct) = Ok e1
    /\ encryptString subtle_encrypt ivCalibration calibration
         (Hook.address_string acct) (Hook.chainId acct) = Ok e2
    /\ Hook.getContract isAddress cl = Hook.Ok tt
    /\ status = Integer (Z.of_N (HookViews.statusNumber st))
    /\ updateMaintenance s (Hook.env_of acct timestamp) deviceId st now
         (now + 2592000)%N (Hook.toUtf8Bytes e1) (Hook.toUtf8Bytes e2)
       = Success s' r l.
Proof.
  unfold Hook.updateMaintenance. intros H.
  destruct (Hook.connected acct) eqn:Ec; [|discriminate].
  destruct (Hook.chainId acct =? 0)%N; [discriminate|]. cbn [negb orb] in H.
  destruct (encryptString _ ivNotes _ _ _) as [e1|] eqn:E1; [|discriminate].
  destruct (encryptString _ ivCalibration _ _ _) as [e2|] eqn:E2; [|discriminate].
  destruct (Hook.getContract isAddress cl) as [[]|] eqn:Eg; [|discriminate].
  cbv zeta in H. apply send_success_inv in H as (st & r & l & Hst & Hcall).
  by exists e1, e2, st, r, l.
Qed.

(** What a successful [registerDevice] of the hook went through. *)
Lemma hook_register_inv subtle_encrypt isAddress cl acct now timestamp
    ivNotes ivCalibration s deviceId name deviceType status notes calibration s' :
  Hook.registerDevice subtle_encrypt isAddress cl acct now timestamp
    ivNotes ivCalibration s deviceId name deviceType status notes calibration
  = Hook.Ok s' ->
  exists e1 e2 st r l,
    Hook.connected acct = true
    /\ encryptString subtle_encrypt ivNotes notes
         (Hook.address_string acct) (Hook.chainId acct) = Ok e1
    /\ encryptString subtle_encrypt ivCalibration calibration
         (Hook.address_string acct) (Hook.chainId acct) = Ok e2
    /\ Hook.getContract isAddress cl = Hook.Ok tt
    /\ status = Integer (Z.of_N (HookViews.statusNumber st))
    /\ registerDevice s (Hook.env_of acct timestamp) deviceId name deviceType st now
         (now + 2592000)%N (Hook.toUtf8Bytes e1) (Hook.toUtf8Bytes e2)
       = Success s' r l.
Proof.
  unfold Hook.registerDevice. intros H.
  destruct (Hook.connected acct) eqn:Ec; [|discriminate].
  destruct (Hook.chainId acct =? 0)%N; [discriminate|]. cbn [negb orb] in H.
  destruct (encryptString _ ivNotes _ _ _) as [e1|] eqn:E1; [|discriminate].
  destruct (encryptString _ ivCalibration _ _ _) as [e2|] eqn:E2; [|discriminate].
  destruct (Hook.getContract isAddress cl) as [[]|] eqn:Eg; [|discriminate].
  cbv zeta in H. apply send_success_inv in H as (st & r & l & Hst & Hcall).
  by exists e1, e2, st, r, l.
Qed.

(** *** The strings ethers returns and [new Uint8Array] *)

Lemma HexCharacters_digit k :
  0 <= k < 16 -> hexDigit (nth (Z.to_nat k) Hook.HexCharacters 0) = Some k.
Proof.
  intros H.
  assert (k = 0 \/ k = 1 \/ k = 2 \/ k = 3 \/ k = 4 \/ k = 5 \/ k = 6 \/ k = 7
          \/ k = 8 \/ k = 9 \/ k = 10 \/ k = 11 \/ k = 12 \/ k = 13 \/ k = 14
          \/ k = 15) as Hk by lia.
  repeat (destruct Hk as [->|Hk]; [reflexivity|]). by subst k.
Qed.

Lemma high_nibble v : Z.shiftr (Z.land v 0xf0) 4 = (v / 16) mod 16.
Proof.
  rewrite Z.shiftr_land. change (Z.shiftr 0xf0 4) with (Z.ones 4).
  rewrite Z.land_ones, Z.shiftr_div_pow2 by lia. reflexivity.
Qed.

Lemma low_nibble v : Z.land v 0x0f = v mod 16.
Proof. change 0x0f with (Z.ones 4). by rewrite Z.land_ones by lia. Qed.

Lemma hexPrefix_cons acc c s :
  hexPrefix acc (c :: s)
  = match hexDigit c with
    | Some d => hexPrefix (Some (16 * default 0 acc + d)) s
    | None => acc
    end.
Proof. reflexivity. Qed.

(** Radix-16 digits with a value in hand are read to the end, and
    the value read is at least the value in hand, shifted. *)
Lemma hexPrefix_digits ds :
  Forall (fun c => exists d, hexDigit c = Some d /\ 0 <= d) ds ->
  forall a, 0 <= a ->
    exists v, hexPrefix (Some a) ds = Some v /\ a * 16 ^ Z.of_nat (length ds) <= v.
Proof.
  induction 1 as [|c ds (d & Hd & Hd0) _ IH]; intros a Ha.
  - exists a. split; [reflexivity|]. cbn [length]. change (16 ^ Z.of_nat 0) with 1. lia.
  - rewrite hexPrefix_cons, Hd. cbn [default].
    destruct (IH (16 * a + d)) as (v & Hv & Hle); [lia|].
    exists v. split; [exact Hv|].
    cbn [length]. rewrite Nat2Z.inj_succ, Z.pow_succ_r by lia.
    assert (0 <= 16 ^ Z.of_nat (length ds)) by (apply Z.pow_nonneg; lia).
    nia.
Qed.

Lemma hexlify_digits data :
  Forall (fun c => exists d, hexDigit c = Some d /\ 0 <= d)
    (flat_map
       (fun v => [nth (Z.to_nat (Z.shiftr (Z.land v 0xf0) 4)) Hook.HexCharacters 0;
                  nth (Z.to_nat (Z.land v 0x0f)) Hook.HexCharacters 0])
       data).
Proof.
  induction data as [|v data IH]; [constructor|].
  cbn [flat_map app].
  constructor.
  { exists ((v / 16) mod 16). rewrite high_nibble.
    pose proof (Z.mod_pos_bound (v / 16) 16 ltac:(lia)).
    split; [by apply HexCharacters_digit | lia]. }
  constructor; [|exact IH].
  exists (v mod 16). rewrite low_nibble.
  pose proof (Z.mod_pos_bound v 16 ltac:(lia)).
  split; [by apply HexCharacters_digit | lia].
Qed.

Lemma hexlify_digits_length data :
  length (flat_map
            (fun v => [nth (Z.to_nat (Z.shiftr (Z.land v 0xf0) 4)) Hook.HexCharacters 0;
                       nth (Z.to_nat (Z.land v 0x0f)) Hook.HexCharacters 0])
            data)
  = (2 * length data)%nat.
Proof. induction data as [|v data IH]; [reflexivity|]. cbn [flat_map app length]. lia. Qed.

(** Eight bytes or more that begin with a byte of 16 or more denote, as
    the string ethers returns, a number above 2^53 - 1: [new Uint8Array]
    of that string is a RangeError on every platform. *)
Lemma Uint8Array_of_bytes_RangeError allocatable c rest :
  16 <= c < 256 -> (7 <= length rest)%nat ->
  Uint8Array_ofHexLiteral allocatable (Hook.hexlify (c :: rest)) = None.
Proof.
  intros Hc Hlen.
  unfold Uint8Array_ofHexLiteral, hexLiteralToNumber, Hook.hexlify.
  change (js "0x") with [48; 120]. cbn [app drop flat_map].
  rewrite hexPrefix_cons, high_nibble.
  assert (1 <= (c / 16) mod 16 < 16) as Hk.
  { rewrite Z.mod_small by (split; [apply Z.div_pos|apply Z.div_lt_upper_bound]; lia).
    split; [|apply Z.div_lt_upper_bound; lia].
    apply Z.div_le_lower_bound; lia. }
  rewrite HexCharacters_digit by lia. cbn [default].
  match goal with |- context [hexPrefix _ (?x :: ?ds)] =>
    destruct (hexPrefix_digits (x :: ds)) with (a := 16 * 0 + (c / 16) mod 16)
      as (v & -> & Hv)
  end.
  { constructor; [|apply hexlify_digits].
    exists (c mod 16). rewrite low_nibble.
    pose proof (Z.mod_pos_bound c 16 ltac:(lia)).
    split; [by apply HexCharacters_digit | lia]. }
  { lia. }
  cbn [default length] in *. rewrite hexlify_digits_length in Hv.
  assert (16 ^ 15 <= 16 ^ Z.of_nat (S (2 * length rest))) as Hp
    by (apply Z.pow_le_mono_r; lia).
  assert (2 ^ 53 - 1 < v) as Hbig.
  { change (16 ^ 15) with 1152921504606846976 in Hp. change (2 ^ 53 - 1) with 9007199254740991.
    nia. }
  apply Z.leb_gt in Hbig. unfold id. by rewrite Hbig.
Qed.

Lemma TextEncoder_cons_ascii c s :
  0 <= c <= 127 -> TextEncoder_encode (c :: s) = c :: TextEncoder_encode s.
Proof.
  intros Hc. unfold TextEncoder_encode. rewrite toScalarValues_cons.
  assert (isHighSurrogate c = false) as -> by (unfold isHighSurrogate; lia).
  assert (isLowSurrogate c = false) as -> by (unfold isLowSurrogate; lia).
  cbn [flat_map]. by rewrite utf8Encode_1 by lia.
Qed.

(** The bytes the hook stores for an envelope: at least 25, the first
    the code of a radix-16 digit. *)
Lemma envelope_bytes_shape subtle_encrypt iv plaintext address chainId e :
  length iv = 12%nat -> Forall octet iv ->
  encryptString subtle_encrypt iv plaintext address chainId = Ok e ->
  exists c rest,
    Hook.toUtf8Bytes e = c :: rest /\ 48 <= c <= 102 /\ (24 <= length rest)%nat.
Proof.
  intros Hlen Hiv H. unfold encryptString in H.
  destruct (deriveKeyFromAddress_total address chainId) as [key Hk].
  rewrite Hk in H. cbn [bind] in H.
  destruct (subtle_encrypt key iv (stringToArrayBuffer plaintext)) as [ct|];
    [|discriminate].
  cbn [await bind try_catch] in H.
  assert (e = bytesToHex iv ++ js ":" ++ bytesToHex ct) as -> by congruence.
  destruct iv as [|b iv]; [discriminate|].
  inversion Hiv as [|? ? Hb Hiv']; subst.
  destruct (hexOfOctet_spec b Hb) as (c1 & c2 & Hh & Hc1 & _ & _).
  rewrite bytesToHex_cons, Hh. cbn [app].
  exists c1. eexists. unfold Hook.toUtf8Bytes.
  split; [apply TextEncoder_cons_ascii; unfold lowerHexDigit in Hc1; lia|].
  split; [unfold lowerHexDigit in Hc1; lia|].
  match goal with |- (_ <= length (TextEncoder_encode ?x))%nat =>
    pose proof (TextEncoder_length_ge x) as Hl end.
  pose proof (bytesToHex_length_ge iv) as Hl2.
  change (js ":") with [58] in *.
  cbn [length] in *. rewrite !length_app in Hl. cbn [length] in Hl. lia.
Qed.

(** A read of the hook that meets such bytes returns [null]. *)
Lemma hook_read_null isAddress allocatable cl acct timestamp s deviceId c rest r1 :
  getEncryptedRecords s (Hook.env_of acct timestamp) deviceId
  = Success s (RetRecords (c :: rest) r1) [] ->
  16 <= c < 256 -> (7 <= length rest)%nat ->
  Hook.connected acct = true ->
  Hook.getEncryptedRecords isAddress allocatable cl acct timestamp s deviceId
  = Hook.Ok None.
Proof.
  intros Hget Hc Hlen Hconn. unfold Hook.getEncryptedRecords.
  rewrite Hconn, Hget. destruct (Hook.getContract isAddress cl); [|reflexivity].
  cbv zeta. by rewrite Uint8Array_of_bytes_RangeError.
Qed.

Lemma hook_decrypt_null subtle_decrypt isAddress allocatable cl acct timestamp s deviceId :
  Hook.getEncryptedRecords isAddress allocatable cl acct timestamp s deviceId
  = Hook.Ok None ->
  Hook.connected acct = true -> Hook.chainId acct <> 0%N ->
  Hook.decryptDeviceRecords subtle_decrypt isAddress allocatable cl acct timestamp s deviceId
  = Hook.Ok None.
Proof.
  intros H Hconn Hchain. unfold Hook.decryptDeviceRecords.
  rewrite Hconn, H. apply N.eqb_neq in Hchain. by rewrite Hchain.
Qed.

(** C2 (the claim fails on the code): after a successful
    [updateMaintenance] or [registerDevice] of the hook, the contract
    holds, and returns to the same account, the UTF-8 bytes of the two
    envelope strings.  But [getEncryptedRecords] of the hook gives
    [new Uint8Array] the string that ethers made of those bytes, which
    is a RangeError, and returns [null]; so does
    [decryptDeviceRecords].  (And the strings that
    [bytesToEncryptedString] makes of the stored bytes would not be the
    envelopes either: it is the inverse of [encryptedStringToBytes],
    not of [toUtf8Bytes].) *)
Theorem C2_hook_reads_back_null
    (subtle_encrypt subtle_decrypt : CryptoKey -> list Z -> list Z -> option (list Z))
    (isAddress : list Z -> bool) (allocatable : Z -> bool)
    (cl : Hook.Client) (acct : Hook.Account) (now timestamp timestamp' : N)
    (ivNotes ivCalibration : list Z) (s s' : State)
    (deviceId name deviceType : string) (status : number)
    (notes calibration : list Z) :
  length ivNotes = 12%nat -> Forall octet ivNotes ->
  Hook.updateMaintenance subtle_encrypt isAddress cl acct now timestamp
    ivNotes ivCalibration s deviceId status notes calibration = Hook.Ok s'
  \/ Hook.registerDevice subtle_encrypt isAddress cl acct now timestamp
       ivNotes ivCalibration s deviceId name deviceType status notes calibration
     = Hook.Ok s' ->
  exists e1 e2,
    encryptString subtle_encrypt ivNotes notes
      (Hook.address_string acct) (Hook.chainId acct) = Ok e1
    /\ encryptString subtle_encrypt ivCalibration calibration
         (Hook.address_string acct) (Hook.chainId acct) = Ok e2
    /\ getEncryptedRecords s' (Hook.env_of acct timestamp') deviceId
       = Success s' (RetRecords (Hook.toUtf8Bytes e1) (Hook.toUtf8Bytes e2)) []
    /\ Hook.getEncryptedRecords isAddress allocatable cl acct timestamp' s' deviceId
       = Hook.Ok None
    /\ Hook.decryptDeviceRecords subtle_decrypt isAddress allocatable cl acct
         timestamp' s' deviceId
       = Hook.Ok None
    /\ bytesToEncryptedString (Hook.toUtf8Bytes e1) 12 <> e1
    /\ bytesToEncryptedString (Hook.toUtf8Bytes e2) 12 <> e2.
Proof.
  intros Hlen Hiv H.
  assert (exists e1 e2,
            Hook.connected acct = true /\ Hook.chainId acct <> 0%N
            /\ encryptString subtle_encrypt ivNotes notes
                 (Hook.address_string acct) (Hook.chainId acct) = Ok e1
            /\ encryptString subtle_encrypt ivCalibration calibration
                 (Hook.address_string acct) (Hook.chainId acct) = Ok e2
            /\ getEncryptedRecords s' (Hook.env_of acct timestamp') deviceId
               = Success s' (RetRecords (Hook.toUtf8Bytes e1) (Hook.toUtf8Bytes e2)) [])
    as (e1 & e2 & Hconn & Hchain & He1 & He2 & Hget).
  { assert (Hook.chainId acct <> 0%N) as Hchain.
    { intros E. destruct H as [H|H];
        [unfold Hook.updateMaintenance in H|unfold Hook.registerDevice in H];
        rewrite E, orb_true_r in H; discriminate. }
    destruct H as [H|H].
    - apply hook_update_inv in H
        as (e1 & e2 & st & r & l & Hconn & He1 & He2 & _ & _ & Hu).
      exists e1, e2. repeat (split; [done|]).
      apply updateMaintenance_success_inv in Hu as (Hauth & Hex & ->).
      unfold getEncryptedRecords, onlyAuthorized.
      rewrite require_true by exact Hauth.
      rewrite device_at_insert_eq. reflexivity.
    - apply hook_register_inv in H
        as (e1 & e2 & st & r & l & Hconn & He1 & He2 & _ & _ & Hu).
      exists e1, e2. repeat (split; [done|]).
      apply registerDevice_success_inv in Hu as (Hauth & Hex & ->).
      unfold getEncryptedRecords, onlyAuthorized.
      rewrite require_true by exact Hauth.
      rewrite device_at_insert_eq. reflexivity. }
  exists e1, e2. split; [done|]. split; [done|]. split; [exact Hget|].
  destruct (envelope_bytes_shape _ _ _ _ _ _ Hlen Hiv He1) as (c & rest & Hb & Hc & Hr).
  assert (Hook.getEncryptedRecords isAddress allocatable cl acct timestamp' s' deviceId
          = Hook.Ok None) as Hnull.
  { rewrite Hb in Hget.
    apply (hook_read_null _ _ _ _ _ _ _ c rest _ Hget); [lia|lia|done]. }
  split; [exact Hnull|].
  split; [by apply hook_decrypt_null|].
  split; apply reencoded_envelope_differs.
Qed.

Lemma C2_witness :
  exists e1 e2,
    encryptString SampleCipher.encrypt Sample.iv (js "ok")
      (Hook.address_string Sample.technician_account)
      (Hook.chainId Sample.technician_account) = Ok e1
    /\ encryptString SampleCipher.encrypt Sample.iv' (js "42")
         (Hook.address_string Sample.technician_account)
         (Hook.chainId Sample.technician_account) = Ok e2
    /\ getEncryptedRecords Sample.after_hook_update
         (Hook.env_of Sample.technician_account 1700100009) "dev-005"
       = Success Sample.after_hook_update
           (RetRecords (Hook.toUtf8Bytes e1) (Hook.toUtf8Bytes e2)) []
    /\ Hook.getEncryptedRecords Sample.isAddress Sample.allocatable Sample.client
         Sample.technician_account 1700100009 Sample.after_hook_update "dev-005"
       = Hook.Ok None
    /\ Hook.decryptDeviceRecords SampleCipher.decrypt Sample.isAddress
         Sample.allocatable Sample.client Sample.technician_account 1700100009
         Sample.after_hook_update "dev-005"
       = Hook.Ok None
    /\ bytesToEncryptedString (Hook.toUtf8Bytes e1) 12 <> e1
    /\ bytesToEncryptedString (Hook.toUtf8Bytes e2) 12 <> e2.
Proof.
  apply (C2_hook_reads_back_null SampleCipher.encrypt SampleCipher.decrypt
           Sample.isAddress Sample.allocatable Sample.client
           Sample.technician_account 1700100000 1700100005 1700100009
           Sample.iv Sample.iv' Scenario.with_technician Sample.after_hook_update
           "dev-005" EmptyString EmptyString (Integer 1) (js "ok") (js "42")).
  - reflexivity.
  - unfold Sample.iv. repeat (constructor; [unfold octet; lia|]). constructor.
  - left. vm_compute. reflexivity.
Defined.

(** The scenario run under the stand-in cipher: the technician stores
    the envelope of "ok"; the contract returns its 61 bytes, which
    ethers hands over as a string of 124 units; the read of the hook and
    the decryption of the hook both return [null]. *)
Example hook_update_then_decrypt :
  encryptString SampleCipher.encrypt Sample.iv (js "ok")
    (Hook.address_string Sample.technician_account) Sample.chain
    = Ok (js "000102030405060708090a0b:6f6b27272727272727272727272727272727")
  /\ encryptedNotes (device_at Sample.after_hook_update "dev-005")
     = js "000102030405060708090a0b:6f6b27272727272727272727272727272727"
  /\ Hook.hexlify (encryptedNotes (device_at Sample.after_hook_update "dev-005"))
     = js ("0x3030303130323033303430353036303730383039306130623a"
           ++ "366636623237323732373237323732373237323732373237323732373237323732373237")
  /\ Hook.getEncryptedRecords Sample.isAddress Sample.allocatable Sample.client
       Sample.technician_account 1700100009 Sample.after_hook_update "dev-005"
     = Hook.Ok None
  /\ Hook.decryptDeviceRecords SampleCipher.decrypt Sample.isAddress
       Sample.allocatable Sample.client Sample.technician_account
       1700100009 Sample.after_hook_update "dev-005"
     = Hook.Ok None.
Proof. repeat split; by vm_compute. Qed.

End HookClaims.

(** * Further properties of the contract *)
Section ContractExtras.
Import DeviceMaintenance Ledger.

(** Every call ends in one of these shapes. *)
Lemma exec_cases s env c :
  (exists reason, exec s env c = Revert reason)
  \/ (exists r l, exec s env c = Success s r l /\ l = [])
  \/ (exists i d l, exec s env c
        = Success (mkState (<[i := d]> (devices s)) (authorizedTechnicians s) (owner s))
            RetNone l
      /\ authorized s (msg_sender env) = true
      /\ encryptedNotes d <> [] /\ encryptedCalibration d <> []
      /\ exists_ d = true
      /\ ((exists_ (device_at s i) = false
           /\ l = [DeviceRegistered i (name d) (msg_sender env)])
          \/ (exists_ (device_at s i) = true
              /\ name d = name (device_at s i)
              /\ deviceType d = deviceType (device_at s i)
              /\ l = [MaintenanceUpdated i (msg_sender env) (block_timestamp env)])))
  \/ (exists t b l, exec s env c
        = Success (mkState (devices s) (<[t := b]> (authorizedTechnicians s)) (owner s))
            RetNone l
      /\ msg_sender env = owner s
      /\ technician_at s t = negb b
      /\ (b = true -> t <> 0%N)
      /\ l = [if b then TechnicianAuthorized t (msg_sender env)
              else TechnicianRevoked t (msg_sender env)]).
Proof.
  destruct c as [deviceId n t st lm nc encryptedNotes0 encryptedCalibration0
                |deviceId st lm nc encryptedNotes0 encryptedCalibration0
                |deviceId|deviceId|technician|technician|technician|deviceId|a|]; simpl.
  - unfold registerDevice, onlyAuthorized, require.
    destruct (technician_at s (msg_sender env) || (msg_sender env =? owner s)%N) eqn:Ea;
      [|left; eauto].
    destruct (exists_ (device_at s deviceId)) eqn:Ex; [left; eauto|]. simpl.
    destruct encryptedNotes0 as [|n0 ns]; [left; eauto|].
    destruct encryptedCalibration0 as [|c0 cs]; [left; eauto|]. simpl.
    right; right; left. eexists _, _, _. split; [reflexivity|]. simpl.
    repeat split; try done. left. done.
  - unfold updateMaintenance, onlyAuthorized, require.
    destruct (technician_at s (msg_sender env) || (msg_sender env =? owner s)%N) eqn:Ea;
      [|left; eauto].
    destruct (exists_ (device_at s deviceId)) eqn:Ex; [|left; eauto]. simpl.
    destruct encryptedNotes0 as [|n0 ns]; [left; eauto|].
    destruct encryptedCalibration0 as [|c0 cs]; [left; eauto|]. simpl.
    right; right; left. eexists _, _, _. split; [reflexivity|]. simpl.
    repeat split; try done. right. done.
  - unfold getDeviceInfo, require.
    destruct (exists_ (device_at s deviceId)); [right; left|left]; eauto.
  - unfold getEncryptedRecords, onlyAuthorized, require.
    destruct (technician_at s (msg_sender env) || (msg_sender env =? owner s)%N);
      [|left; eauto].
    destruct (exists_ (device_at s deviceId)); [right; left|left]; eauto.
  - unfold authorizeTechnician, onlyOwner, require.
    destruct (N.eqb_spec (msg_sender env) (owner s)) as [Ho|]; [|left; eauto].
    destruct (N.eqb_spec technician 0) as [|Hz]; [left; eauto|]. simpl.
    destruct (technician_at s technician) eqn:Et; [left; eauto|]. simpl.
    right; right; right. exists technician, true. eexists. split; [reflexivity|].
    by rewrite Et.
  - unfold revokeTechnician, onlyOwner, require.
    destruct (N.eqb_spec (msg_sender env) (owner s)) as [Ho|]; [|left; eauto].
    destruct (technician_at s technician) eqn:Et; [|left; eauto]. simpl.
    right; right; right. exists technician, false. eexists. split; [reflexivity|].
    by rewrite Et.
  - right; left. eauto.
  - right; left. eauto.
  - right; left. eauto.
  - right; left. eauto.
Qed.


Lemma technician_at_insert_ne d (m : gmap N bool) o a a' b :
  a <> a' -> technician_at (mkState d (<[a := b]> m) o) a' = technician_at (mkState d m o) a'.
Proof. intros Hne. unfold technician_at; simpl. by rewrite lookup_insert_ne. Qed.

Lemma device_at_state s : forall i, device_at (mkState (devices s) (authorizedTechnicians s) (owner s)) i = device_at s i.
Proof. by destruct s. Qed.

(** Registration: effect and reads after it.  A [registerDevice] by a
    sender that passes [onlyAuthorized], under a fresh id and with two
    non-empty ciphertexts, succeeds with one [DeviceRegistered] log, stores
    exactly its arguments with the existence flag set, and changes nothing
    else; afterwards [getDeviceInfo] returns the visible fields to any
    sender, and [getEncryptedRecords] returns the two ciphertexts to every
    sender that passes [onlyAuthorized] and reverts for every other. *)
Theorem register_then_read s env i n t st lm nc en ec :
  authorized s (msg_sender env) = true ->
  exists_ (device_at s i) = false ->
  en <> [] -> ec <> [] ->
  exists s',
    exec s env (call_registerDevice i n t st lm nc en ec)
    = Success s' RetNone [DeviceRegistered i n (msg_sender env)]
    /\ device_at s' i = mkDevice n t st lm nc en ec true
    /\ (forall j, j <> i -> device_at s' j = device_at s j)
    /\ authorizedTechnicians s' = authorizedTechnicians s
    /\ owner s' = owner s
    /\ (forall env', exec s' env' (call_getDeviceInfo i)
                     = Success s' (RetDeviceInfo n t st lm nc) [])
    /\ (forall env', authorized s (msg_sender env') = true ->
           exec s' env' (call_getEncryptedRecords i)
           = Success s' (RetRecords en ec) [])
    /\ (forall env', authorized s (msg_sender env') = false ->
           exec s' env' (call_getEncryptedRecords i)
           = Revert "Not authorized technician").
Proof.
  intros Hauth Hex Hn Hc. simpl.
  unfold registerDevice, onlyAuthorized. unfold authorized in Hauth.
  rewrite (require_true _ _ _ Hauth), Hex. cbn [negb].
  rewrite !require_true by (by destruct en, ec).
  eexists; split; [reflexivity|].
  destruct s as [d a o]; cbn [devices authorizedTechnicians owner].
  split; [apply device_at_insert_eq|].
  split; [intros j Hj; by apply device_at_insert_ne|].
  split; [done|]. split; [done|].
  split; [|split].
  - intros env'. simpl. unfold getDeviceInfo.
    by rewrite device_at_insert_eq.
  - intros env' Ha. simpl. unfold getEncryptedRecords, onlyAuthorized.
    rewrite require_true by exact Ha. by rewrite device_at_insert_eq.
  - intros env' Ha. simpl. unfold getEncryptedRecords, onlyAuthorized.
    by rewrite require_false by exact Ha.
Qed.

Lemma register_then_read_witness :
  exists s',
    exec Scenario.deployed (mkEnv Scenario.admin 1700000000)
      (call_registerDevice "dev-001" "MRI-X200" "MRI" Operational 1 2
         (JS.js "E1") (JS.js "E2"))
    = Success s' RetNone [DeviceRegistered "dev-001" "MRI-X200" Scenario.admin]
    /\ device_at s' "dev-001"
       = mkDevice "MRI-X200" "MRI" Operational 1 2 (JS.js "E1") (JS.js "E2") true
    /\ (forall j, j <> "dev-001"%string -> device_at s' j = device_at Scenario.deployed j)
    /\ authorizedTechnicians s' = authorizedTechnicians Scenario.deployed
    /\ owner s' = owner Scenario.deployed
    /\ (forall env', exec s' env' (call_getDeviceInfo "dev-001")
                     = Success s' (RetDeviceInfo "MRI-X200" "MRI" Operational 1 2) [])
    /\ (forall env', authorized Scenario.deployed (msg_sender env') = true ->
           exec s' env' (call_getEncryptedRecords "dev-001")
           = Success s' (RetRecords (JS.js "E1") (JS.js "E2")) [])
    /\ (forall env', authorized Scenario.deployed (msg_sender env') = false ->
           exec s' env' (call_getEncryptedRecords "dev-001")
           = Revert "Not authorized technician").
Proof.
  apply (register_then_read Scenario.deployed (mkEnv Scenario.admin 1700000000)
           "dev-001" "MRI-X200" "MRI" Operational 1%N 2%N (JS.js "E1") (JS.js "E2"));
    [vm_compute; reflexivity | vm_compute; reflexivity | discriminate | discriminate].
Defined.

(** The two writes succeed exactly under their [require]s: registration
    for an authorized sender, a fresh id and two non-empty ciphertexts;
    update for an authorized sender, an existing id and two non-empty
    ciphertexts.  In every other case the call reverts. *)
Theorem writes_succeed_iff s env i n t st lm nc en ec :
  ((exists s' r l, exec s env (call_registerDevice i n t st lm nc en ec) = Success s' r l)
   <-> (authorized s (msg_sender env) = true /\ exists_ (device_at s i) = false
        /\ en <> [] /\ ec <> []))
  /\ ((exists s' r l, exec s env (call_updateMaintenance i st lm nc en ec) = Success s' r l)
      <-> (authorized s (msg_sender env) = true /\ exists_ (device_at s i) = true
           /\ en <> [] /\ ec <> [])).
Proof.
  unfold authorized. simpl.
  unfold registerDevice, updateMaintenance, onlyAuthorized, require.
  destruct (technician_at s (msg_sender env) || (msg_sender env =? owner s)%N);
    destruct (exists_ (device_at s i)); destruct en, ec; simpl;
    split; split; try (intros (? & ? & ? & ?); discriminate);
    try (intros (? & ? & ? & ?); congruence); eauto.
Qed.

(** Granting: [authorizeTechnician] succeeds exactly when the sender is
    the owner, the target is not the zero address and its flag is not
    set; a success sets that flag only, logs one [TechnicianAuthorized],
    and [isAuthorized] of the target then returns true. *)
Theorem authorize_effect s env t :
  ((exists s' r l, exec s env (call_authorizeTechnician t) = Success s' r l)
   <-> (msg_sender env = owner s /\ t <> 0%N /\ technician_at s t = false))
  /\ (forall s' r l,
        exec s env (call_authorizeTechnician t) = Success s' r l ->
        r = RetNone /\ l = [TechnicianAuthorized t (msg_sender env)]
        /\ technician_at s' t = true
        /\ (forall a, a <> t -> technician_at s' a = technician_at s a)
        /\ devices s' = devices s /\ owner s' = owner s
        /\ forall env', exec s' env' (call_isAuthorized t) = Success s' (RetBool true) []).
Proof.
  simpl. unfold authorizeTechnician, onlyOwner, require.
  destruct (N.eqb_spec (msg_sender env) (owner s)) as [Ho|Ho].
  2:{ split; [split|]; [intros (? & ? & ? & ?); discriminate | tauto | discriminate]. }
  destruct (N.eqb_spec t 0) as [Hz|Hz]; cbn [negb].
  { split; [split|]; [intros (? & ? & ? & ?); discriminate | tauto | discriminate]. }
  destruct (technician_at s t) eqn:Et; cbn [negb].
  { split; [split|]; [intros (? & ? & ? & ?); discriminate | intros (_ & _ & ?); discriminate | discriminate]. }
  split; [split; eauto|].
  intros s' r l H. injection H as <- <- <-.
  destruct s as [d a o]; cbn [devices authorizedTechnicians owner] in *.
  split; [done|]. split; [done|].
  split; [apply technician_at_insert_eq|].
  split; [intros x Hx; by apply technician_at_insert_ne|].
  split; [done|]. split; [done|].
  intros env'. simpl. unfold isAuthorized.
  by rewrite technician_at_insert_eq.
Qed.

(** Revoking: [revokeTechnician] succeeds exactly when the sender is the
    owner and the target's flag is set; a success clears that flag only
    and logs one [TechnicianRevoked]; afterwards the target passes
    [onlyAuthorized], and [isAuthorized] returns true for it, exactly when
    it is the owner. *)
Theorem revoke_effect s env t :
  ((exists s' r l, exec s env (call_revokeTechnician t) = Success s' r l)
   <-> (msg_sender env = owner s /\ technician_at s t = true))
  /\ (forall s' r l,
        exec s env (call_revokeTechnician t) = Success s' r l ->
        r = RetNone /\ l = [TechnicianRevoked t (msg_sender env)]
        /\ technician_at s' t = false
        /\ (forall a, a <> t -> technician_at s' a = technician_at s a)
        /\ devices s' = devices s /\ owner s' = owner s
        /\ authorized s' t = (t =? owner s)%N
        /\ forall env', exec s' env' (call_isAuthorized t)
                        = Success s' (RetBool (t =? owner s)%N) []).
Proof.
  simpl. unfold revokeTechnician, onlyOwner, require.
  destruct (N.eqb_spec (msg_sender env) (owner s)) as [Ho|Ho].
  2:{ split; [split|]; [intros (? & ? & ? & ?); discriminate | tauto | discriminate]. }
  destruct (technician_at s t) eqn:Et.
  2:{ split; [split|]; [intros (? & ? & ? & ?); discriminate | intros (_ & ?); discriminate | discriminate]. }
  split; [split; eauto|].
  intros s' r l H. injection H as <- <- <-.
  destruct s as [d a o]; cbn [devices authorizedTechnicians owner] in *.
  split; [done|]. split; [done|].
  split; [apply technician_at_insert_eq|].
  split; [intros x Hx; by apply technician_at_insert_ne|].
  split; [done|]. split; [done|].
  split.
  - unfold authorized. by rewrite technician_at_insert_eq.
  - intros env'. simpl. unfold isAuthorized.
    by rewrite technician_at_insert_eq.
Qed.

(** A sender that does not pass [onlyAuthorized] changes nothing: every
    call it makes leaves the storage as it was and emits no log. *)
Theorem unauthorized_sender_changes_nothing s env c :
  authorized s (msg_sender env) = false ->
  storage_after s (exec s env c) = s /\ logs_of (exec s env c) = [].
Proof.
  intros Hun.
  destruct (exec_cases s env c) as
    [[reason ->] | [(r & l & -> & ->) | [(i & d & l & _ & Ha & _) | (t & b & l & _ & Ho & _)]]].
  - done.
  - done.
  - congruence.
  - unfold authorized in Hun. rewrite Ho, N.eqb_refl, orb_true_r in Hun. discriminate.
Qed.

Lemma unauthorized_sender_changes_nothing_witness :
  storage_after Scenario.with_dev005
    (exec Scenario.with_dev005 Scenario.env_outsider Scenario.update_dev005)
  = Scenario.with_dev005
  /\ logs_of (exec Scenario.with_dev005 Scenario.env_outsider Scenario.update_dev005) = [].
Proof.
  apply (unauthorized_sender_changes_nothing Scenario.with_dev005
           Scenario.env_outsider Scenario.update_dev005).
  vm_compute. reflexivity.
Defined.

(** Only the owner changes authorizations: a call from any other sender,
    authorized technicians included, leaves the table and the owner as
    they were. *)
Theorem only_owner_changes_authorizations s env c :
  msg_sender env <> owner s ->
  authorizedTechnicians (storage_after s (exec s env c)) = authorizedTechnicians s
  /\ owner (storage_after s (exec s env c)) = owner s.
Proof.
  intros Hne.
  destruct (exec_cases s env c) as
    [[reason ->] | [(r & l & -> & ->) | [(i & d & l & -> & _) | (t & b & l & _ & Ho & _)]]];
    try done.
Qed.

Lemma only_owner_changes_authorizations_witness :
  authorizedTechnicians
    (storage_after Scenario.with_technician
       (exec Scenario.with_technician (mkEnv Scenario.technician 1700100005)
          (call_authorizeTechnician Scenario.outsider)))
  = authorizedTechnicians Scenario.with_technician
  /\ owner
       (storage_after Scenario.with_technician
          (exec Scenario.with_technician (mkEnv Scenario.technician 1700100005)
             (call_authorizeTechnician Scenario.outsider)))
     = owner Scenario.with_technician.
Proof.
  apply (only_owner_changes_authorizations Scenario.with_technician
           (mkEnv Scenario.technician 1700100005)
           (call_authorizeTechnician Scenario.outsider)).
  vm_compute. discriminate.
Defined.


Lemma device_at_after_insert s i d j :
  device_at (mkState (<[i := d]> (devices s)) (authorizedTechnicians s) (owner s)) j
  = if decide (i = j) then d else device_at s j.
Proof.
  destruct (decide (i = j)) as [<-|Hne].
  - apply device_at_insert_eq.
  - rewrite device_at_insert_ne by done. apply device_at_state.
Qed.

Lemma technician_at_after_insert s t b a :
  technician_at (mkState (devices s) (<[t := b]> (authorizedTechnicians s)) (owner s)) a
  = if decide (t = a) then b else technician_at s a.
Proof.
  destruct (decide (t = a)) as [<-|Hne].
  - apply technician_at_insert_eq.
  - rewrite technician_at_insert_ne by done. by destruct s.
Qed.

Lemma reachable_records_step s env c :
  records_wellformed s -> records_wellformed (storage_after s (exec s env c)).
Proof.
  intros Hinv.
  destruct (exec_cases s env c) as
    [[reason ->] | [(r & l & -> & ->) | [(i & d & l & -> & _ & Hn & Hc & Hd & _)
                                        | (t & b & l & -> & _)]]].
  - exact Hinv.
  - exact Hinv.
  - intros j. cbn [storage_after]. rewrite device_at_after_insert.
    destruct (decide (i = j)) as [<-|Hne]; [|apply Hinv].
    split; [done|]. rewrite Hd. discriminate.
  - intros j. cbn [storage_after]. destruct s as [dv a o]. apply Hinv.
Qed.

Lemma reachable_records_inv deployer s :
  reachable deployer s -> records_wellformed s.
Proof.
  induction 1 as [|s env c _ IH].
  - intros i. split; [discriminate|done].
  - by apply reachable_records_step.
Qed.

(** Invariant of the storage: in every state reachable from a
    deployment, a record that exists has two non-empty ciphertexts, and a
    slot whose existence flag is not set holds the zero record (no name, no
    type, no ciphertext). *)
Theorem reachable_records_wellformed deployer s :
  reachable deployer s -> records_wellformed s.
Proof. apply reachable_records_inv. Qed.

Lemma reachable_records_wellformed_witness : records_wellformed Scenario.with_technician.
Proof.
  apply (reachable_records_wellformed Scenario.admin Scenario.with_technician).
  apply reachable_call, reachable_call, reachable_deploy.
Defined.

(** Reads of an id that was never registered: [getDeviceInfo] reverts
    with "Device does not exist" for every sender, [getEncryptedRecords]
    does so for a sender that passes [onlyAuthorized] and refuses the
    others first, an update reverts, and the [devices] getter does not
    revert but returns the zero record. *)
Theorem missing_record_reads deployer s env i :
  reachable deployer s -> exists_ (device_at s i) = false ->
  exec s env (call_getDeviceInfo i) = Revert "Device does not exist"
  /\ exec s env (call_getEncryptedRecords i)
     = Revert (if authorized s (msg_sender env)
               then "Device does not exist" else "Not authorized technician")
  /\ exec s env (call_devices i)
     = Success s (RetDevice EmptyString EmptyString Operational 0 0 [] [] false) []
  /\ forall st lm nc en ec,
       exec s env (call_updateMaintenance i st lm nc en ec)
       = Revert (if authorized s (msg_sender env)
                 then "Device does not exist" else "Not authorized technician").
Proof.
  intros Hr Hex. destruct (reachable_records_inv _ _ Hr i) as [_ Hz].
  specialize (Hz Hex). cbn [exec].
  unfold getDeviceInfo, getEncryptedRecords, updateMaintenance, devices_getter,
    onlyAuthorized, require, authorized.
  rewrite Hex, Hz. cbn.
  by destruct (technician_at s (msg_sender env) || (msg_sender env =? owner s)%N).
Qed.

Lemma missing_record_reads_witness :
  exec Scenario.with_dev005 Scenario.env_outsider (call_getDeviceInfo "dev-404")
    = Revert "Device does not exist"
  /\ exec Scenario.with_dev005 Scenario.env_outsider (call_getEncryptedRecords "dev-404")
     = Revert (if authorized Scenario.with_dev005 (msg_sender Scenario.env_outsider)
               then "Device does not exist" else "Not authorized technician")
  /\ exec Scenario.with_dev005 Scenario.env_outsider (call_devices "dev-404")
     = Success Scenario.with_dev005
         (RetDevice EmptyString EmptyString Operational 0 0 [] [] false) []
  /\ forall st lm nc en ec,
       exec Scenario.with_dev005 Scenario.env_outsider
         (call_updateMaintenance "dev-404" st lm nc en ec)
       = Revert (if authorized Scenario.with_dev005 (msg_sender Scenario.env_outsider)
                 then "Device does not exist" else "Not authorized technician").
Proof.
  apply (missing_record_reads Scenario.admin Scenario.with_dev005
           Scenario.env_outsider "dev-404").
  - apply reachable_call, reachable_deploy.
  - vm_compute. reflexivity.
Defined.

Lemma run_cons s env c rest :
  run s ((env, c) :: rest)
  = (fst (run (storage_after s (exec s env c)) rest),
     logs_of (exec s env c) ++ snd (run (storage_after s (exec s env c)) rest)).
Proof. cbn [run]. by destruct (run _ rest). Qed.

Lemma exec_keeps_records s env c i :
  exists_ (device_at s i) = true ->
  exists_ (device_at (storage_after s (exec s env c)) i) = true
  /\ name (device_at (storage_after s (exec s env c)) i) = name (device_at s i)
  /\ deviceType (device_at (storage_after s (exec s env c)) i) = deviceType (device_at s i).
Proof.
  intros Hex.
  destruct (exec_cases s env c) as
    [[reason ->] | [(r & l & -> & ->) | [(j & d & l & -> & _ & _ & _ & Hd & Hcase)
                                        | (t & b & l & -> & _)]]].
  - done.
  - done.
  - cbn [storage_after]. rewrite device_at_after_insert.
    destruct (decide (j = i)) as [->|Hne]; [|done].
    destruct Hcase as [[Hf _]|(_ & Hn & Ht & _)]; [congruence|done].
  - cbn [storage_after]. destruct s as [dv a o]. done.
Qed.

(** Records are never deleted or renamed: a record that exists keeps its
    existence flag, its name and its device type through every sequence
    of transactions, whoever sends them. *)
Theorem records_persist s txs i :
  exists_ (device_at s i) = true ->
  exists_ (device_at (fst (run s txs)) i) = true
  /\ name (device_at (fst (run s txs)) i) = name (device_at s i)
  /\ deviceType (device_at (fst (run s txs)) i) = deviceType (device_at s i).
Proof.
  revert s. induction txs as [|[env c] rest IH]; intros s Hex; [done|].
  rewrite run_cons. cbn [fst].
  destruct (exec_keeps_records s env c i Hex) as (H1 & H2 & H3).
  destruct (IH _ H1) as (H4 & H5 & H6).
  split; [done|]. split; congruence.
Qed.

Lemma records_persist_witness :
  exists_ (device_at (fst (run Scenario.with_technician
                             [(mkEnv Scenario.technician 1700100005, Scenario.update_dev005);
                              (Scenario.env_admin, Scenario.register_dev005_again);
                              (Scenario.env_admin, call_revokeTechnician Scenario.technician)]))
             "dev-005") = true
  /\ name (device_at (fst (run Scenario.with_technician
                             [(mkEnv Scenario.technician 1700100005, Scenario.update_dev005);
                              (Scenario.env_admin, Scenario.register_dev005_again);
                              (Scenario.env_admin, call_revokeTechnician Scenario.technician)]))
             "dev-005")
     = name (device_at Scenario.with_technician "dev-005")
  /\ deviceType (device_at (fst (run Scenario.with_technician
                             [(mkEnv Scenario.technician 1700100005, Scenario.update_dev005);
                              (Scenario.env_admin, Scenario.register_dev005_again);
                              (Scenario.env_admin, call_revokeTechnician Scenario.technician)]))
             "dev-005")
     = deviceType (device_at Scenario.with_technician "dev-005").
Proof.
  apply (records_persist Scenario.with_technician
           [(mkEnv Scenario.technician 1700100005, Scenario.update_dev005);
            (Scenario.env_admin, Scenario.register_dev005_again);
            (Scenario.env_admin, call_revokeTechnician Scenario.technician)]
           "dev-005").
  vm_compute. reflexivity.
Defined.

Lemma registered_ids_app l1 l2 :
  registered_ids (l1 ++ l2) = registered_ids l1 ++ registered_ids l2.
Proof. unfold registered_ids. apply flat_map_app. Qed.

(** One transaction either registers nothing and keeps every existence
    flag, or registers one fresh id and sets its flag. *)
Lemma exec_registration_step s env c :
  (registered_ids (logs_of (exec s env c)) = []
   /\ forall i, exists_ (device_at (storage_after s (exec s env c)) i)
                = exists_ (device_at s i))
  \/ (exists i0,
        registered_ids (logs_of (exec s env c)) = [i0]
        /\ exists_ (device_at s i0) = false
        /\ forall i, exists_ (device_at (storage_after s (exec s env c)) i)
                     = if decide (i0 = i) then true else exists_ (device_at s i)).
Proof.
  destruct (exec_cases s env c) as
    [[reason ->] | [(r & l & -> & ->) | [(j & d & l & -> & _ & _ & _ & Hd & Hcase)
                                        | (t & b & l & -> & _ & _ & _ & ->)]]].
  - left. done.
  - left. done.
  - destruct Hcase as [[Hf ->]|(Ht & _ & _ & ->)].
    + right. exists j. split; [done|]. split; [done|].
      intros i. cbn [storage_after]. rewrite device_at_after_insert.
      by destruct (decide (j = i)).
    + left. split; [done|].
      intros i. cbn [storage_after]. rewrite device_at_after_insert.
      destruct (decide (j = i)) as [<-|]; [congruence|done].
  - left. split; [by destruct b|].
    intros i. cbn [storage_after]. by destruct s.
Qed.

Lemma run_registrations s txs :
  (forall i, exists_ (device_at (fst (run s txs)) i) = true
             <-> exists_ (device_at s i) = true \/ In i (registered_ids (snd (run s txs))))
  /\ NoDup (registered_ids (snd (run s txs)))
  /\ (forall i, In i (registered_ids (snd (run s txs))) -> exists_ (device_at s i) = false).
Proof.
  revert s. induction txs as [|[env c] rest IH]; intros s.
  - cbn. split; [intros i; tauto|]. split; [constructor|tauto].
  - rewrite run_cons. cbn [fst snd]. rewrite registered_ids_app.
    destruct (IH (storage_after s (exec s env c))) as (IH1 & IH2 & IH3).
    destruct (exec_registration_step s env c) as [[-> Hsame]|(i0 & -> & Hf & Hset)].
    + cbn [app]. split; [|split; [done|]].
      * intros i. rewrite IH1, Hsame. tauto.
      * intros i Hi. rewrite <- Hsame. by apply IH3.
    + cbn [app]. split; [|split].
      * intros i. rewrite IH1, Hset. cbn [In].
        destruct (decide (i0 = i)) as [->|Hne]; [tauto|].
        split; [intros [?|?]; tauto|intros [?|[?|?]]; tauto].
      * constructor; [|done]. intros Hin. apply list_elem_of_In, IH3 in Hin.
        rewrite Hset in Hin. by destruct (decide (i0 = i0)).
      * intros i [<-|Hi]; [done|]. apply IH3 in Hi. rewrite Hset in Hi.
        by destruct (decide (i0 = i)).
Qed.

Lemma registered_topics_ids keccak256 logs :
  registered_topics keccak256 logs
  = (fun i => TopicHash (keccak256 i)) <$> registered_ids logs.
Proof.
  induction logs as [|e logs IH]; [reflexivity|].
  unfold registered_topics, registered_ids in *. cbn [flat_map].
  rewrite fmap_app, IH. by destruct e.
Qed.

(** The registration logs list the records, by hash: after any sequence
    of transactions on a fresh deployment there is a list of ids without
    repetition, which are exactly the ids that exist in storage, such
    that the [DeviceRegistered] log entries carry, in order, the hashes
    of these ids as their [deviceId] topic.  So there is one entry per
    record, and the log holds the hash of each id, not the id. *)
Theorem registration_topics_match_records (keccak256 : string -> N) deployer txs :
  exists ids,
    NoDup ids
    /\ (forall i, exists_ (device_at (fst (run (constructor deployer) txs)) i) = true
                  <-> In i ids)
    /\ registered_topics keccak256 (snd (run (constructor deployer) txs))
       = (fun i => TopicHash (keccak256 i)) <$> ids.
Proof.
  exists (registered_ids (snd (run (constructor deployer) txs))).
  destruct (run_registrations (constructor deployer) txs) as (H1 & H2 & _).
  split; [done|]. split; [|apply registered_topics_ids].
  intros i. rewrite H1.
  split; [intros [H|H]; [discriminate|done] | tauto].
Qed.

(** The zero address is never authorized: on a contract deployed by a
    non-zero address, in every reachable state the flag of [address(0)] is
    not set, [isAuthorized(address(0))] returns false, and it does not pass
    [onlyAuthorized]. *)
Theorem zero_address_never_authorized deployer s :
  reachable deployer s -> deployer <> 0%N ->
  technician_at s 0%N = false
  /\ authorized s 0%N = false
  /\ forall env, exec s env (call_isAuthorized 0%N) = Success s (RetBool false) [].
Proof.
  intros Hr Hd.
  assert (technician_at s 0%N = false) as Ht.
  { induction Hr as [|s env c _ IH].
    - unfold technician_at, constructor. cbn [authorizedTechnicians].
      by rewrite lookup_insert_ne.
    - destruct (exec_cases s env c) as
        [[reason ->] | [(r & l & -> & ->) | [(i & d & l & -> & _)
                                            | (t & b & l & -> & _ & _ & Hb & _)]]].
      + exact IH.
      + exact IH.
      + exact IH.
      + cbn [storage_after]. rewrite technician_at_after_insert.
        destruct (decide (t = 0%N)) as [->|]; [|done].
        destruct b; [by destruct Hb|done]. }
  pose proof (reachable_owner _ _ Hr) as Ho.
  assert (authorized s 0%N = false) as Ha.
  { unfold authorized. rewrite Ht, Ho. by destruct (N.eqb_spec 0 deployer). }
  split; [done|]. split; [done|].
  intros env. simpl. unfold isAuthorized. unfold authorized in Ha. by rewrite Ha.
Qed.

Lemma zero_address_never_authorized_witness :
  technician_at Scenario.with_technician 0%N = false
  /\ authorized Scenario.with_technician 0%N = false
  /\ forall env, exec Scenario.with_technician env (call_isAuthorized 0%N)
                 = Success Scenario.with_technician (RetBool false) [].
Proof.
  apply (zero_address_never_authorized Scenario.admin Scenario.with_technician).
  - apply reachable_call, reachable_call, reachable_deploy.
  - discriminate.
Defined.

(** Who is refused: a call reverts with "Not authorized technician"
    exactly when it is one of the three gated calls and [isAuthorized] of
    its sender returns false. *)
Theorem not_authorized_iff s env env' c :
  exec s env c = Revert "Not authorized technician"
  <-> (gated c = true
       /\ exec s env' (call_isAuthorized (msg_sender env)) = Success s (RetBool false) []).
Proof.
  cbn [exec]. unfold isAuthorized.
  destruct c; cbn [exec gated];
    unfold registerDevice, updateMaintenance, getDeviceInfo, getEncryptedRecords,
      authorizeTechnician, revokeTechnician, isAuthorized, devices_getter,
      authorizedTechnicians_getter, owner_getter, onlyAuthorized, onlyOwner, require;
    destruct (technician_at s (msg_sender env) || (msg_sender env =? owner s)%N) eqn:Ea;
    repeat match goal with
           | |- context [if ?b then _ else _] => destruct b
           end;
    split; try (intros [? ?]); try discriminate; try done.
Qed.


Lemma same_reads_device s1 s2 i : same_reads s1 s2 -> device_at s1 i = device_at s2 i.
Proof. intros (Hd & _). unfold device_at. by rewrite Hd. Qed.

(** A call cannot tell two storages apart on which every slot reads the
    same, and leaves two such storages. *)
Lemma exec_same_reads s1 s2 env c :
  same_reads s1 s2 ->
  observation (exec s1 env c) = observation (exec s2 env c)
  /\ logs_of (exec s1 env c) = logs_of (exec s2 env c)
  /\ same_reads (storage_after s1 (exec s1 env c)) (storage_after s2 (exec s2 env c)).
Proof.
  intros (Hd & Ho & Ht).
  destruct s1 as [d1 a1 o1], s2 as [d2 a2 o2].
  cbn [devices owner] in Hd, Ho. subst d2 o2.
  destruct c as [deviceId n t st lm nc en ec|deviceId st lm nc en ec
                |deviceId|deviceId|technician|technician|technician|deviceId|a|];
    cbn [exec];
    unfold registerDevice, updateMaintenance, getDeviceInfo, getEncryptedRecords,
      authorizeTechnician, revokeTechnician, isAuthorized, devices_getter,
      authorizedTechnicians_getter, owner_getter, onlyAuthorized, onlyOwner, require;
    rewrite ?Ht; unfold device_at; cbn [devices owner authorizedTechnicians];
    repeat match goal with
           | |- context [if ?b then _ else _] => destruct b
           end;
    cbn [observation logs_of storage_after];
    (split; [reflexivity|]); (split; [reflexivity|]);
    (split; [reflexivity|]); (split; [reflexivity|]);
    try exact Ht.
  - intros a.
    rewrite (technician_at_after_insert (mkState d1 a1 o1)).
    rewrite (technician_at_after_insert (mkState d1 a2 o1)).
    by rewrite Ht.
  - intros a.
    rewrite (technician_at_after_insert (mkState d1 a1 o1)).
    rewrite (technician_at_after_insert (mkState d1 a2 o1)).
    by rewrite Ht.
Qed.

Lemma run_same_reads s1 s2 txs :
  same_reads s1 s2 -> snd (run s1 txs) = snd (run s2 txs).
Proof.
  revert s1 s2. induction txs as [|[env c] rest IH]; intros s1 s2 Hs; [done|].
  rewrite !run_cons. cbn [snd].
  destruct (exec_same_reads s1 s2 env c Hs) as (_ & -> & Hs').
  by rewrite (IH _ _ Hs').
Qed.

(** Granting and then revoking leaves no trace in what the contract
    answers: after the owner authorized a technician that was not
    authorized and revoked it again, every call returns, reverts and logs
    as it would have before the two, and so does every sequence of
    transactions. *)
Theorem grant_then_revoke_is_invisible s env1 env2 t :
  msg_sender env1 = owner s -> msg_sender env2 = owner s ->
  t <> 0%N -> technician_at s t = false ->
  exists s1 s2,
    exec s env1 (call_authorizeTechnician t)
    = Success s1 RetNone [TechnicianAuthorized t (owner s)]
    /\ exec s1 env2 (call_revokeTechnician t)
       = Success s2 RetNone [TechnicianRevoked t (owner s)]
    /\ (forall env c, observation (exec s2 env c) = observation (exec s env c))
    /\ (forall txs, snd (run s2 txs) = snd (run s txs)).
Proof.
  intros H1 H2 Hz Ht. simpl.
  unfold authorizeTechnician, revokeTechnician, onlyOwner. rewrite H1.
  rewrite (require_true _ _ _ (N.eqb_refl _)).
  rewrite require_true by (by destruct (N.eqb_spec t 0)).
  rewrite require_true by (by rewrite Ht).
  eexists. eexists. split; [reflexivity|].
  cbn [owner]. rewrite H2, (require_true _ _ _ (N.eqb_refl _)).
  rewrite require_true by apply technician_at_insert_eq.
  cbn [devices authorizedTechnicians]. split; [reflexivity|].
  assert (same_reads
            (mkState (devices s)
               (<[t := false]> (<[t := true]> (authorizedTechnicians s))) (owner s)) s)
    as Hs.
  { split; [done|]. split; [done|]. intros a.
    unfold technician_at at 1. cbn [authorizedTechnicians].
    rewrite insert_insert_eq.
    destruct (decide (t = a)) as [<-|Hne].
    - by rewrite lookup_insert_eq, Ht.
    - by rewrite lookup_insert_ne. }
  split.
  - intros env c. by apply exec_same_reads.
  - intros txs. by apply run_same_reads.
Qed.

Lemma grant_then_revoke_is_invisible_witness :
  exists s1 s2,
    exec Scenario.with_dev005 Scenario.env_admin
      (call_authorizeTechnician Scenario.technician)
    = Success s1 RetNone
        [TechnicianAuthorized Scenario.technician (owner Scenario.with_dev005)]
    /\ exec s1 Scenario.env_admin (call_revokeTechnician Scenario.technician)
       = Success s2 RetNone
           [TechnicianRevoked Scenario.technician (owner Scenario.with_dev005)]
    /\ (forall env c, observation (exec s2 env c)
                      = observation (exec Scenario.with_dev005 env c))
    /\ (forall txs, snd (run s2 txs) = snd (run Scenario.with_dev005 txs)).
Proof.
  apply (grant_then_revoke_is_invisible Scenario.with_dev005
           Scenario.env_admin Scenario.env_admin Scenario.technician);
    [vm_compute; reflexivity | vm_compute; reflexivity | discriminate
    | vm_compute; reflexivity].
Defined.

End ContractExtras.

(** * Further properties of the codecs *)
Section CodecExtras.
Import JS Crypto.

(** Hex round trip on bytes: [bytesToHex] writes two lowercase digits per
    octet and [hexToBytes] reads them back. *)
Theorem hex_roundtrip_bytes (bytes : list Z) :
  Forall octet bytes ->
  hexToBytes (bytesToHex bytes) = bytes
  /\ length (bytesToHex bytes) = (2 * length bytes)%nat
  /\ Forall lowerHexDigit (bytesToHex bytes).
Proof.
  intros H. split; [by apply hexToBytes_bytesToHex|].
  split; [by apply bytesToHex_length | by apply bytesToHex_lowerHex].
Qed.

Lemma hex_roundtrip_bytes_witness :
  hexToBytes (bytesToHex [0; 9; 16; 171; 255]) = [0; 9; 16; 171; 255]
  /\ length (bytesToHex [0; 9; 16; 171; 255]) = (2 * length [0; 9; 16; 171; 255])%nat
  /\ Forall lowerHexDigit (bytesToHex [0; 9; 16; 171; 255]).
Proof.
  apply (hex_roundtrip_bytes [0; 9; 16; 171; 255]).
  repeat constructor; unfold octet; lia.
Defined.

Lemma hexDigitUnit_in c : hexDigitUnit c -> In c anyHexDigits.
Proof.
  unfold hexDigitUnit. intros H.
  assert (c = 48 \/ c = 49 \/ c = 50 \/ c = 51 \/ c = 52 \/ c = 53 \/ c = 54
          \/ c = 55 \/ c = 56 \/ c = 57 \/ c = 97 \/ c = 98 \/ c = 99
          \/ c = 100 \/ c = 101 \/ c = 102 \/ c = 65 \/ c = 66 \/ c = 67
          \/ c = 68 \/ c = 69 \/ c = 70) as Hc by lia.
  vm_compute. intuition.
Qed.

Lemma anyHexPair_check :
  forallb (fun c1 =>
    forallb (fun c2 =>
      bool_decide (hexOfOctet (ToUint8 (parseInt16 [c1; c2]))
                   = [lowerUnit c1; lowerUnit c2])) anyHexDigits) anyHexDigits = true.
Proof. by vm_compute. Qed.

Lemma anyHexPair_spec c1 c2 :
  hexDigitUnit c1 -> hexDigitUnit c2 ->
  hexOfOctet (ToUint8 (parseInt16 [c1; c2])) = [lowerUnit c1; lowerUnit c2].
Proof.
  intros H1 H2. pose proof anyHexPair_check as H.
  rewrite forallb_forall in H. specialize (H c1 (hexDigitUnit_in c1 H1)).
  rewrite forallb_forall in H. specialize (H c2 (hexDigitUnit_in c2 H2)).
  cbv beta in H. by apply bool_decide_eq_true in H.
Qed.

Lemma startsWith_0x_hex (h : list Z) :
  Forall hexDigitUnit h -> startsWith h (js "0x") = false.
Proof.
  intros H. change (js "0x") with [48; 120].
  destruct h as [|c1 [|c2 r]]; [reflexivity| |]; cbn [startsWith].
  - by destruct (48 =? c1).
  - inversion H as [|? ? _ H2]; subst. inversion H2 as [|? ? Hc2 _]; subst.
    unfold hexDigitUnit in Hc2.
    destruct (Z.eqb_spec 120 c2); [lia|]. by destruct (48 =? c1).
Qed.

Lemma bytesToHex_hexPairs_any h :
  Forall hexDigitUnit h -> Nat.Even (length h) ->
  bytesToHex (hexPairs h) = toLowerCase h.
Proof.
  induction h as [h IH] using (induction_ltof1 _ (@length Z)); unfold ltof in IH.
  intros H Hev. destruct h as [|c1 [|c2 r]].
  - reflexivity.
  - destruct Hev as [k Hk]. simpl in Hk. lia.
  - inversion H as [|? ? H1 H']; subst. inversion H' as [|? ? H2 Hr]; subst.
    cbn [hexPairs]. rewrite bytesToHex_cons, (anyHexPair_spec c1 c2 H1 H2).
    rewrite IH; [reflexivity | simpl; lia | done |].
    destruct Hev as [k Hk]. simpl in Hk. exists (k - 1)%nat. lia.
Qed.

(** Hex round trip on strings: reading an even number of hex digits, in
    either case and with or without a leading [0x], and printing the
    octets gives the digits in lowercase. *)
Theorem hex_roundtrip_string (h : list Z) :
  Forall hexDigitUnit h -> Nat.Even (length h) ->
  bytesToHex (hexToBytes h) = toLowerCase h
  /\ hexToBytes (js "0x" ++ h) = hexToBytes h.
Proof.
  intros H Hev.
  assert (hexToBytes h = hexPairs h) as Hh.
  { unfold hexToBytes. rewrite (startsWith_0x_hex h H). apply hexToBytes_loop. }
  split.
  - rewrite Hh. by apply bytesToHex_hexPairs_any.
  - rewrite Hh. unfold hexToBytes. change (js "0x") with [48; 120].
    cbn [app startsWith]. rewrite !Z.eqb_refl.
    replace (startsWith h [] ) with true by by destruct h.
    cbn [andb]. unfold slice_from. cbn [drop]. apply hexToBytes_loop.
Qed.

Lemma hex_roundtrip_string_witness :
  bytesToHex (hexToBytes [53; 70; 98; 68]) = toLowerCase [53; 70; 98; 68]
  /\ hexToBytes (js "0x" ++ [53; 70; 98; 68]) = hexToBytes [53; 70; 98; 68].
Proof.
  apply (hex_roundtrip_string [53; 70; 98; 68]).
  - repeat (constructor; [unfold hexDigitUnit; lia|]). constructor.
  - exists 2%nat. reflexivity.
Defined.

(** The storage codecs the other way round: for every split point,
    [encryptedStringToBytes] gives back the octets that
    [bytesToEncryptedString] wrote. *)
Theorem storage_codec_roundtrip_bytes (bytes : list Z) (ivLength : nat) :
  Forall octet bytes ->
  encryptedStringToBytes (bytesToEncryptedString bytes ivLength) = bytes.
Proof.
  intros H. unfold encryptedStringToBytes, bytesToEncryptedString, slice_to, slice_from.
  change (js ":") with [58]. cbn [app].
  assert (Forall octet (take ivLength bytes)) as Ht by by apply Forall_take.
  assert (Forall octet (drop ivLength bytes)) as Hd by by apply Forall_drop.
  rewrite replace_first_app_sep by by apply lowerHex_no_colon, bytesToHex_lowerHex.
  rewrite <- bytesToHex_app, take_drop.
  by apply hexToBytes_bytesToHex.
Qed.

Lemma storage_codec_roundtrip_bytes_witness :
  encryptedStringToBytes (bytesToEncryptedString [1; 2; 3; 250] 12) = [1; 2; 3; 250].
Proof.
  apply (storage_codec_roundtrip_bytes [1; 2; 3; 250] 12).
  repeat constructor; unfold octet; lia.
Defined.

End CodecExtras.

(** * Further properties of the text codec and of key derivation *)
Section TextExtras.
Import JS Crypto.

Lemma stripBOM_head_ne x r : x <> 0xFEFF -> stripBOM (x :: r) = x :: r.
Proof.
  intros Hx. unfold stripBOM. destruct x as [|p|p]; try done.
  repeat (destruct p as [p|p|]; try done).
Qed.

Lemma codeUnits_toWellFormed s :
  Forall codeUnit s -> flat_map codeUnits (toScalarValues s) = toWellFormed s.
Proof.
  unfold codeUnit.
  induction s as [| c | c d s IH1 IH2] using jsstring_ind2; intros H.
  - reflexivity.
  - inversion H as [|? ? Hc _]; subst.
    rewrite toScalarValues_cons. cbn [toScalarValues toWellFormed].
    destruct (isHighSurrogate c); [reflexivity|].
    destruct (isLowSurrogate c); [reflexivity|].
    cbn [flat_map app]. unfold codeUnits. by case_cmp.
  - inversion H as [|? ? Hc H']; subst. inversion H' as [|? ? Hd H'']; subst.
    rewrite toScalarValues_cons.
    change (toWellFormed (c :: d :: s))
      with (if isHighSurrogate c
            then if isLowSurrogate d then c :: d :: toWellFormed s
                 else 0xFFFD :: toWellFormed (d :: s)
            else if isLowSurrogate c then 0xFFFD :: toWellFormed (d :: s)
                 else c :: toWellFormed (d :: s)).
    destruct (isHighSurrogate c) eqn:Eh.
    + destruct (isLowSurrogate d) eqn:El.
      * apply isHighSurrogate_spec in Eh. apply isLowSurrogate_spec in El.
        cbn [flat_map]. rewrite IH1 by done.
        unfold codeUnits. rewrite shiftl_10. case_cmp. bits_to_arith.
        cbn [app]. f_equal; [|f_equal]; Z.to_euclidean_division_equations; lia.
      * cbn [flat_map]. by rewrite IH2.
    + destruct (isLowSurrogate c) eqn:El.
      * cbn [flat_map]. by rewrite IH2.
      * cbn [flat_map]. rewrite IH2 by done.
        unfold isHighSurrogate in Eh. unfold isLowSurrogate in El.
        unfold codeUnits. by case_cmp.
Qed.

Lemma stripBOM_codeUnits cps :
  Forall scalar cps ->
  flat_map codeUnits (stripBOM cps) = stripBOM (flat_map codeUnits cps).
Proof.
  intros H. destruct cps as [|cp r]; [reflexivity|].
  inversion H as [|? ? [Hr Hs] _]; subst.
  destruct (Z.eq_dec cp 0xFEFF) as [->|Hne]; [reflexivity|].
  rewrite stripBOM_head_ne by done. cbn [flat_map].
  assert (exists x r', codeUnits cp = x :: r' /\ x <> 0xFEFF) as (x & r' & -> & Hx).
  { unfold codeUnits. destruct (Z.ltb_spec cp 0x10000); eexists _, _; (split; [reflexivity|]).
    - done.
    - rewrite shiftr_10. Z.to_euclidean_division_equations; lia. }
  cbn [app]. by rewrite stripBOM_head_ne.
Qed.

(** The text codec of the module on every string: decoding the encoding
    returns the string with each lone surrogate replaced by U+FFFD and
    without one leading U+FEFF; a well-formed string has no lone
    surrogate to replace.  The encoding consists of octets. *)
Theorem text_codec_roundtrip (str : list Z) :
  Forall codeUnit str ->
  arrayBufferToString (stringToArrayBuffer str) = stripBOM (toWellFormed str)
  /\ (isWellFormed str = true -> toWellFormed str = str)
  /\ Forall octet (stringToArrayBuffer str).
Proof.
  intros H. split; [|split].
  - unfold arrayBufferToString, stringToArrayBuffer, TextDecoder_decode, TextEncoder_encode.
    rewrite utf8Decode_flat_encode by by apply toScalarValues_scalar.
    rewrite stripBOM_codeUnits by by apply toScalarValues_scalar.
    by rewrite codeUnits_toWellFormed.
  - intros Hwf. rewrite <- codeUnits_toWellFormed by done.
    by apply codeUnits_toScalarValues.
  - by apply TextEncoder_octets.
Qed.

Lemma text_codec_roundtrip_witness :
  arrayBufferToString (stringToArrayBuffer [0xFEFF; 0xD800; 0x41; 0xD83D; 0xDE00])
  = stripBOM (toWellFormed [0xFEFF; 0xD800; 0x41; 0xD83D; 0xDE00])
  /\ (isWellFormed [0xFEFF; 0xD800; 0x41; 0xD83D; 0xDE00] = true ->
      toWellFormed [0xFEFF; 0xD800; 0x41; 0xD83D; 0xDE00]
      = [0xFEFF; 0xD800; 0x41; 0xD83D; 0xDE00])
  /\ Forall octet (stringToArrayBuffer [0xFEFF; 0xD800; 0x41; 0xD83D; 0xDE00]).
Proof.
  apply (text_codec_roundtrip [0xFEFF; 0xD800; 0x41; 0xD83D; 0xDE00]).
  repeat (constructor; [unfold codeUnit; lia|]). constructor.
Defined.

(** An ASCII string is its own encoding. *)
Lemma TextEncoder_ascii s :
  Forall (fun c => 0 <= c <= 127) s -> TextEncoder_encode s = s.
Proof.
  unfold TextEncoder_encode.
  induction 1 as [|c s Hc _ IH]; [reflexivity|].
  rewrite toScalarValues_cons.
  assert (isHighSurrogate c = false) as -> by (unfold isHighSurrogate; lia).
  assert (isLowSurrogate c = false) as -> by (unfold isLowSurrogate; lia).
  cbn [flat_map]. rewrite IH, utf8Encode_1 by lia. reflexivity.
Qed.

Lemma lowerUnit_idemp c : lowerUnit (lowerUnit c) = lowerUnit c.
Proof.
  unfold lowerUnit. destruct ((65 <=? c) && (c <=? 90)) eqn:E.
  - apply andb_prop in E as [E1 E2]. by rewrite in_range_false by lia.
  - by rewrite E.
Qed.

Lemma toLowerCase_idemp s : toLowerCase (toLowerCase s) = toLowerCase s.
Proof.
  unfold toLowerCase. rewrite <- list_fmap_compose.
  apply list_fmap_ext. intros i x _. apply lowerUnit_idemp.
Qed.

Lemma canonicalIdentity_spec address chainId :
  deriveKeyFromAddress address chainId
  = Ok (deriveKey "PBKDF2" (stringToArrayBuffer (js "secure-device-maintenance-salt"))
          1000 "SHA-256"
          (importKey "raw"
             (stringToArrayBuffer (canonicalIdentity address ++ toString10 chainId))
             "PBKDF2" false ["deriveKey"%string])
          "AES-GCM" 256 false ["encrypt"%string; "decrypt"%string]).
Proof. reflexivity. Qed.

Lemma asciiUnits_check s :
  forallb (fun c => (0 <=? c) && (c <? 128)) s = true -> Forall asciiUnit s.
Proof.
  intros H. apply Forall_forall. intros c Hc.
  rewrite forallb_forall in H. apply list_elem_of_In, H in Hc.
  unfold asciiUnit. lia.
Qed.

(** The identity is read without regard to case or prefix: an ASCII
    address, the same address in lowercase, and the same address behind
    [0x] or [0X] derive the same key.  (On ASCII strings the case
    mapping of the platform is the mapping of A-Z; outside ASCII it
    depends on the context of a letter, and the statement is not made.) *)
Theorem identity_case_and_prefix_insensitive (address : list Z) (chainId : N) :
  Forall asciiUnit address ->
  startsWith (toLowerCase address) (js "0x") = false ->
  deriveKeyFromAddress (toLowerCase address) chainId = deriveKeyFromAddress address chainId
  /\ deriveKeyFromAddress (js "0x" ++ address) chainId = deriveKeyFromAddress address chainId
  /\ deriveKeyFromAddress (js "0X" ++ address) chainId = deriveKeyFromAddress address chainId.
Proof.
  intros _ Hp. rewrite !canonicalIdentity_spec.
  assert (canonicalIdentity address = toLowerCase address) as Hc
    by (unfold canonicalIdentity; by rewrite Hp).
  assert (canonicalIdentity (toLowerCase address) = toLowerCase address) as ->
    by (unfold canonicalIdentity; by rewrite toLowerCase_idemp, Hp).
  assert (canonicalIdentity (js "0x" ++ address) = toLowerCase address) as ->.
  { unfold canonicalIdentity, toLowerCase. rewrite fmap_app.
    change (lowerUnit <$> js "0x") with [48; 120]. cbn [app startsWith].
    change (js "0x") with [48; 120]. cbn [startsWith]. rewrite !Z.eqb_refl.
    by destruct (lowerUnit <$> address). }
  assert (canonicalIdentity (js "0X" ++ address) = toLowerCase address) as ->.
  { unfold canonicalIdentity, toLowerCase. rewrite fmap_app.
    change (lowerUnit <$> js "0X") with [48; 120]. cbn [app startsWith].
    change (js "0x") with [48; 120]. cbn [startsWith]. rewrite !Z.eqb_refl.
    by destruct (lowerUnit <$> address). }
  by rewrite Hc.
Qed.

Lemma identity_case_and_prefix_insensitive_witness :
  deriveKeyFromAddress (toLowerCase (js "5FbDB2315678afecb367f032d93F642f64180aa3")) 31337
  = deriveKeyFromAddress (js "5FbDB2315678afecb367f032d93F642f64180aa3") 31337
  /\ deriveKeyFromAddress (js "0x" ++ js "5FbDB2315678afecb367f032d93F642f64180aa3") 31337
     = deriveKeyFromAddress (js "5FbDB2315678afecb367f032d93F642f64180aa3") 31337
  /\ deriveKeyFromAddress (js "0X" ++ js "5FbDB2315678afecb367f032d93F642f64180aa3") 31337
     = deriveKeyFromAddress (js "5FbDB2315678afecb367f032d93F642f64180aa3") 31337.
Proof.
  apply (identity_case_and_prefix_insensitive
           (js "5FbDB2315678afecb367f032d93F642f64180aa3") 31337%N).
  - apply asciiUnits_check. vm_compute. reflexivity.
  - vm_compute. reflexivity.
Defined.

End TextExtras.

(** * Key material and envelopes *)
Section KeyExtras.
Import JS Crypto.

Lemma js_cons a r : js (String a r) = Z.of_N (N_of_ascii a) :: js r.
Proof. reflexivity. Qed.

Lemma js_inj s1 s2 : js s1 = js s2 -> s1 = s2.
Proof.
  revert s2. induction s1 as [|a1 r1 IH]; intros [|a2 r2]; try done.
  rewrite !js_cons. intros H. injection H as Ha Hr.
  apply N2Z.inj in Ha. f_equal; [|by apply IH].
  by rewrite <- (ascii_N_embedding a1), Ha, ascii_N_embedding.
Qed.

Lemma string_of_uint_digits d :
  Forall (fun c => 48 <= c <= 57) (js (DecimalString.NilEmpty.string_of_uint d)).
Proof.
  induction d; cbn [DecimalString.NilEmpty.string_of_uint];
    [constructor|..]; rewrite js_cons; (constructor; [vm_compute; intuition discriminate|done]).
Qed.

Lemma toString10_digits n : Forall (fun c => 48 <= c <= 57) (toString10 n).
Proof.
  unfold toString10, DecimalString.NilZero.string_of_uint.
  destruct (N.to_uint n) eqn:E;
    [change (js "0") with [48]; constructor; [lia|constructor]
    |apply string_of_uint_digits ..].
Qed.

Lemma to_uint_nonnil n : N.to_uint n <> Decimal.Nil.
Proof. destruct n; [discriminate|]. apply DecimalPos.Unsigned.to_uint_nonnil. Qed.

(** The decimal string of a chain id determines it. *)
Lemma toString10_inj n1 n2 : toString10 n1 = toString10 n2 -> n1 = n2.
Proof.
  unfold toString10. intros H. apply js_inj in H.
  apply DecimalN.Unsigned.to_uint_inj.
  apply (f_equal DecimalString.NilZero.uint_of_string) in H.
  rewrite !DecimalString.NilZero.usu in H by apply to_uint_nonnil.
  by injection H.
Qed.

Lemma hexDigit_unit c : hexDigit c <> None -> hexDigitUnit c.
Proof.
  unfold hexDigit, hexDigitUnit.
  destruct ((48 <=? c) && (c <=? 57)) eqn:E1; [lia|].
  destruct ((97 <=? c) && (c <=? 102)) eqn:E2; [lia|].
  destruct ((65 <=? c) && (c <=? 70)) eqn:E3; [lia|done].
Qed.

Lemma lowerUnit_hex c : hexDigitUnit c -> lowerHexDigit (lowerUnit c).
Proof.
  unfold hexDigitUnit, lowerHexDigit, lowerUnit. intros H.
  destruct ((65 <=? c) && (c <=? 90)) eqn:E; lia.
Qed.

Lemma forallb_hexDigit digits :
  forallb (fun c => match hexDigit c with Some _ => true | None => false end) digits = true ->
  Forall lowerHexDigit (toLowerCase digits).
Proof.
  intros H. rewrite forallb_forall in H. unfold toLowerCase.
  apply Forall_fmap, Forall_forall. intros c Hc. cbn.
  apply lowerUnit_hex, hexDigit_unit. apply list_elem_of_In, H in Hc.
  by destruct (hexDigit c).
Qed.

Lemma startsWith_0x_inv s : startsWith s (js "0x") = true -> exists r, s = 48 :: 120 :: r.
Proof.
  change (js "0x") with [48; 120].
  destruct s as [|c1 [|c2 r]]; cbn [startsWith]; try done.
  - intros H. apply andb_prop in H as [_ H]. discriminate.
  - intros H. apply andb_prop in H as [H1 H]. apply andb_prop in H as [H2 _].
    apply Z.eqb_eq in H1, H2. subst. by exists r.
Qed.

(** The canonical form of a well-formed identity: 40 lowercase digits. *)
Lemma wellFormed_canonical address :
  wellFormedIdentity address = true ->
  length (canonicalIdentity address) = 40%nat
  /\ Forall lowerHexDigit (canonicalIdentity address).
Proof.
  unfold wellFormedIdentity, canonicalIdentity. cbv zeta.
  destruct (startsWith address (js "0x")) eqn:Ep.
  - destruct (startsWith_0x_inv _ Ep) as [r ->].
    unfold slice_from. cbn [drop]. intros H. apply andb_prop in H as [Hl Hd].
    apply Nat.eqb_eq in Hl.
    change (toLowerCase (48 :: 120 :: r)) with (48 :: 120 :: toLowerCase r).
    change (js "0x") with [48; 120]. cbn [startsWith]. rewrite !Z.eqb_refl.
    replace (startsWith (toLowerCase r) []) with true by by destruct (toLowerCase r).
    cbn [andb drop]. rewrite ?drop_0 in *. split; [|by apply forallb_hexDigit].
    unfold toLowerCase. by rewrite length_fmap.
  - intros H. apply andb_prop in H as [Hl Hd]. apply Nat.eqb_eq in Hl.
    pose proof (forallb_hexDigit _ Hd) as Hlow.
    rewrite (startsWith_0x_lowerHex _ Hlow). split; [|done].
    unfold toLowerCase. by rewrite length_fmap.
Qed.

(** Separation of key material: two well-formed identities with their
    chain ids derive the same key exactly when the identities agree up to
    case and prefix and the chain ids are equal. *)
Theorem key_separation (address1 address2 : list Z) (chainId1 chainId2 : N) :
  wellFormedIdentity address1 = true -> wellFormedIdentity address2 = true ->
  (deriveKeyFromAddress address1 chainId1 = deriveKeyFromAddress address2 chainId2
   <-> canonicalIdentity address1 = canonicalIdentity address2 /\ chainId1 = chainId2).
Proof.
  intros H1 H2. rewrite !canonicalIdentity_spec.
  destruct (wellFormed_canonical _ H1) as [Hl1 Hx1].
  destruct (wellFormed_canonical _ H2) as [Hl2 Hx2].
  split.
  - intros H. injection H as H. unfold stringToArrayBuffer in H.
    assert (forall a c, Forall lowerHexDigit a ->
              Forall (fun c => 0 <= c <= 127) (a ++ toString10 c)) as Hascii.
    { intros a c Ha. apply Forall_app. split.
      - eapply Forall_impl; [exact Ha|]. unfold lowerHexDigit. intros; lia.
      - eapply Forall_impl; [apply toString10_digits|]. cbn. intros; lia. }
    rewrite !TextEncoder_ascii in H by by apply Hascii.
    apply app_inj_1 in H as [Ha Hc]; [|congruence].
    split; [done|]. by apply toString10_inj.
  - by intros [-> ->].
Qed.

Lemma key_separation_witness :
  deriveKeyFromAddress (js "0x5FbDB2315678afecb367f032d93F642f64180aa3") 31337
  = deriveKeyFromAddress (js "5fbdb2315678afecb367f032d93f642f64180aa3") 31337
  <-> canonicalIdentity (js "0x5FbDB2315678afecb367f032d93F642f64180aa3")
      = canonicalIdentity (js "5fbdb2315678afecb367f032d93f642f64180aa3")
      /\ 31337%N = 31337%N.
Proof.
  apply (key_separation (js "0x5FbDB2315678afecb367f032d93F642f64180aa3")
           (js "5fbdb2315678afecb367f032d93f642f64180aa3") 31337%N 31337%N);
    vm_compute; reflexivity.
Defined.

(** Without the well-formedness the boundary between identity and chain
    id is lost: the key material is their plain concatenation. *)
Example key_material_collision :
  deriveKeyFromAddress (js "ab1") 2 = deriveKeyFromAddress (js "ab") 12.
Proof. by vm_compute. Qed.

End KeyExtras.

(** * Envelopes, the storage codec and the hook *)
Section EnvelopeExtras.
Import JS Crypto.

Lemma SampleCipher_octet_output : octet_output SampleCipher.encrypt.
Proof.
  intros key iv data out Hd H. injection H as <-.
  apply Forall_app. split; [done|].
  unfold SampleCipher.tag. apply Forall_forall. intros x Hx.
  apply list_elem_of_In, repeat_spec in Hx. subst x.
  unfold octet. apply Z.mod_pos_bound. lia.
Qed.

(** What [encryptString] returns or throws, whatever the cipher does. *)
Lemma encryptString_cases subtle_encrypt iv plaintext address chainId :
  (exists key ct,
     deriveKeyFromAddress address chainId = Ok key
     /\ subtle_encrypt key iv (stringToArrayBuffer plaintext) = Some ct
     /\ encryptString subtle_encrypt iv plaintext address chainId
        = Ok (bytesToHex iv ++ js ":" ++ bytesToHex ct))
  \/ encryptString subtle_encrypt iv plaintext address chainId
     = Throw (EncryptionFailed OperationError).
Proof.
  unfold encryptString.
  destruct (deriveKeyFromAddress_total address chainId) as [key Hk].
  rewrite Hk. cbn [bind].
  destruct (subtle_encrypt key iv (stringToArrayBuffer plaintext)) as [ct|] eqn:E.
  - left. by exists key, ct.
  - right. reflexivity.
Qed.

(** The envelope and the storage codec: [encryptString] throws only the
    wrapped error of a rejected cipher call; an envelope it returns has
    the 24 hex digits of the nonce, one [:], and two hex digits per octet
    of ciphertext, and the storage codec takes it to nonce followed by
    ciphertext and back to the same string. *)
Theorem envelope_through_storage_codec
    (subtle_encrypt : CryptoKey -> list Z -> list Z -> option (list Z))
    (iv plaintext address : list Z) (chainId : N) :
  octet_output subtle_encrypt ->
  length iv = 12%nat -> Forall octet iv -> Forall codeUnit plaintext ->
  (forall err, encryptString subtle_encrypt iv plaintext address chainId = Throw err ->
               err = EncryptionFailed OperationError)
  /\ (forall e, encryptString subtle_encrypt iv plaintext address chainId = Ok e ->
        exists ct,
          e = bytesToHex iv ++ js ":" ++ bytesToHex ct
          /\ Forall octet ct
          /\ count_occ Z.eq_dec e 58 = 1%nat
          /\ length e = (25 + 2 * length ct)%nat
          /\ encryptedStringToBytes e = iv ++ ct
          /\ bytesToEncryptedString (encryptedStringToBytes e) 12 = e).
Proof.
  intros Hout Hlen Hiv Hp.
  destruct (encryptString_cases subtle_encrypt iv plaintext address chainId)
    as [(key & ct & _ & Henc & ->)| ->].
  2:{ split; [intros err H; by injection H|intros e H; discriminate]. }
  split; [intros err H; discriminate|].
  intros e H.
  assert (e = bytesToHex iv ++ js ":" ++ bytesToHex ct) as -> by congruence.
  exists ct.
  assert (Forall octet ct) as Hct.
  { apply (Hout key iv (stringToArrayBuffer plaintext) ct); [|done].
    by apply TextEncoder_octets. }
  destruct (envelope_parse iv ct Hiv Hct) as [_ Hsplit]. cbv zeta in Hsplit.
  split; [reflexivity|]. split; [exact Hct|].
  split.
  { pose proof (split_length 58 (bytesToHex iv ++ js ":" ++ bytesToHex ct)) as Hl.
    rewrite Hsplit in Hl. cbn [length] in Hl. lia. }
  split.
  { change (js ":") with [58]. cbn [app]. rewrite length_app. cbn [length].
    rewrite (bytesToHex_length iv Hiv), (bytesToHex_length ct Hct). lia. }
  assert (encryptedStringToBytes (bytesToHex iv ++ js ":" ++ bytesToHex ct) = iv ++ ct)
    as Hbytes.
  { unfold encryptedStringToBytes. change (js ":") with [58]. cbn [app].
    rewrite replace_first_app_sep by by apply lowerHex_no_colon, bytesToHex_lowerHex.
    rewrite <- bytesToHex_app. apply hexToBytes_bytesToHex. by apply Forall_app. }
  split; [exact Hbytes|].
  rewrite Hbytes. unfold bytesToEncryptedString, slice_to, slice_from.
  by rewrite <- Hlen, take_app_length, drop_app_length.
Qed.

Lemma envelope_through_storage_codec_witness :
  (forall err, encryptString SampleCipher.encrypt Sample.iv (js "ok")
                 Sample.address Sample.chain = Throw err ->
               err = EncryptionFailed OperationError)
  /\ (forall e, encryptString SampleCipher.encrypt Sample.iv (js "ok")
                  Sample.address Sample.chain = Ok e ->
        exists ct,
          e = bytesToHex Sample.iv ++ js ":" ++ bytesToHex ct
          /\ Forall octet ct
          /\ count_occ Z.eq_dec e 58 = 1%nat
          /\ length e = (25 + 2 * length ct)%nat
          /\ encryptedStringToBytes e = Sample.iv ++ ct
          /\ bytesToEncryptedString (encryptedStringToBytes e) 12 = e).
Proof.
  apply (envelope_through_storage_codec SampleCipher.encrypt Sample.iv (js "ok")
           Sample.address Sample.chain).
  - apply SampleCipher_octet_output.
  - reflexivity.
  - unfold Sample.iv. repeat (constructor; [unfold octet; lia|]). constructor.
  - change (js "ok") with [111; 107].
    repeat (constructor; [unfold codeUnit; lia|]). constructor.
Defined.

Lemma envelope_bytes_nonempty subtle_encrypt iv plaintext address chainId e :
  encryptString subtle_encrypt iv plaintext address chainId = Ok e ->
  (0 <? length (Hook.toUtf8Bytes e))%nat = true.
Proof.
  intros H.
  destruct (encryptString_cases subtle_encrypt iv plaintext address chainId)
    as [(key & ct & _ & _ & He)|He]; rewrite He in H; [|discriminate].
  assert (e = bytesToHex iv ++ js ":" ++ bytesToHex ct) as -> by congruence.
  apply Nat.ltb_lt.
  pose proof (TextEncoder_length_ge (bytesToHex iv ++ js ":" ++ bytesToHex ct)) as Hl.
  unfold Hook.toUtf8Bytes. change (js ":") with [58] in *. cbn [app] in *.
  rewrite length_app in Hl. cbn [length] in Hl. lia.
Qed.

Import DeviceMaintenance.

Lemma getContract_ok_inv isAddress cl :
  Hook.getContract isAddress cl = Hook.Ok tt ->
  Hook.walletClient cl = true
  /\ Hook.validateContractAddress isAddress cl = Hook.Ok tt
  /\ isAddress (Hook.CONTRACT_ADDRESS cl) = true.
Proof.
  unfold Hook.getContract.
  destruct (Hook.walletClient cl); [|discriminate]. cbn [negb].
  intros H. split; [done|]. split; [done|].
  unfold Hook.validateContractAddress in H.
  destruct (_ || _); [discriminate|].
  by destruct (isAddress (Hook.CONTRACT_ADDRESS cl)).
Qed.

Lemma getContract_throw_inv isAddress cl e :
  Hook.getContract isAddress cl = Hook.Throw e ->
  e = Hook.WalletNotConnected
  \/ e = Hook.ContractAddressNotConfigured
  \/ e = Hook.InvalidContractAddress (Hook.CONTRACT_ADDRESS cl).
Proof.
  unfold Hook.getContract, Hook.validateContractAddress.
  destruct (negb (Hook.walletClient cl)); [intros H; injection H as <-; by left|].
  destruct (_ || _); [intros H; injection H as <-; right; by left|].
  destruct (negb (isAddress (Hook.CONTRACT_ADDRESS cl))); [|discriminate].
  intros H; injection H as <-. by repeat right.
Qed.

(** [registerDevice] of the hook.  A success means that the status
    given is the number of a member of the enum, that the wallet client
    is there and the contract address passes [ethers.isAddress], that the
    account passes [onlyAuthorized] and the id was fresh; it stores the
    name, type and status given, the time of the call as last
    maintenance, thirty days later as next calibration, and the UTF-8
    bytes of the two envelopes, and leaves the other records alone;
    [getDeviceInfo] of the hook then returns those visible fields (when
    the public client is there).  A revert that reaches the caller with
    a reason has one of the reasons "Not authorized technician" and
    "Device already exists": the hook never sends an empty ciphertext. *)
Theorem hook_register_outcome
    (subtle_encrypt : CryptoKey -> list Z -> list Z -> option (list Z))
    (isAddress : list Z -> bool) (cl : Hook.Client)
    (acct : Hook.Account) (now timestamp : N) (ivNotes ivCalibration : list Z)
    (s : State) (deviceId name deviceType : string) (status : number)
    (notes calibration : list Z) :
  (forall s',
     Hook.registerDevice subtle_encrypt isAddress cl acct now timestamp
       ivNotes ivCalibration s deviceId name deviceType status notes calibration
     = Hook.Ok s' ->
     exists st e1 e2,
       status = Integer (Z.of_N (HookViews.statusNumber st))
       /\ encryptString subtle_encrypt ivNotes notes
            (Hook.address_string acct) (Hook.chainId acct) = Ok e1
       /\ encryptString subtle_encrypt ivCalibration calibration
            (Hook.address_string acct) (Hook.chainId acct) = Ok e2
       /\ Hook.walletClient cl = true
       /\ isAddress (Hook.CONTRACT_ADDRESS cl) = true
       /\ authorized s (Hook.address_sender acct) = true
       /\ exists_ (device_at s deviceId) = false
       /\ device_at s' deviceId
          = mkDevice name deviceType st now (now + 2592000)%N
              (Hook.toUtf8Bytes e1) (Hook.toUtf8Bytes e2) true
       /\ HookViews.getDeviceInfo isAddress cl s' deviceId
          = (if Hook.publicClient cl
             then Some (HookViews.mkDeviceInfo deviceId name deviceType
                          (HookViews.statusNumber st) now (now + 2592000)%N)
             else None)
       /\ (forall j, j <> deviceId -> device_at s' j = device_at s j))
  /\ (forall reason,
        Hook.registerDevice subtle_encrypt isAddress cl acct now timestamp
          ivNotes ivCalibration s deviceId name deviceType status notes calibration
        = Hook.Throw (Hook.CallException (Some reason)) ->
        reason = "Not authorized technician"%string
        \/ reason = "Device already exists"%string).
Proof.
  split.
  - intros s' H.
    apply hook_register_inv in H
      as (e1 & e2 & st & r & l & _ & He1 & He2 & Hg & Hst & Hreg).
    exists st, e1, e2.
    apply getContract_ok_inv in Hg as (Hw & Hv & Ha).
    apply registerDevice_success_inv in Hreg as (Hauth & Hex & ->).
    do 7 (split; [done|]).
    destruct s as [d a o]; cbn [devices authorizedTechnicians owner].
    split; [apply device_at_insert_eq|].
    split; [|intros j Hj; by apply device_at_insert_ne].
    unfold HookViews.getDeviceInfo, Hook.getPublicContract, getDeviceInfo.
    rewrite Hv. destruct (Hook.publicClient cl); [|reflexivity]. cbn [negb].
    by rewrite device_at_insert_eq.
  - intros reason. unfold Hook.registerDevice.
    destruct (negb (Hook.connected acct) || (Hook.chainId acct =? 0)%N);
      [discriminate|].
    destruct (encryptString _ ivNotes _ _ _) as [e1|] eqn:He1; [|discriminate].
    destruct (encryptString _ ivCalibration _ _ _) as [e2|] eqn:He2; [|discriminate].
    pose proof (envelope_bytes_nonempty _ _ _ _ _ _ He1) as Hn1.
    pose proof (envelope_bytes_nonempty _ _ _ _ _ _ He2) as Hn2.
    destruct (Hook.getContract isAddress cl) as [[]|e] eqn:Eg.
    2:{ intros H. apply getContract_throw_inv in Eg. injection H as ->.
        destruct Eg as [E|[E|E]]; discriminate. }
    cbv zeta. unfold Hook.send.
    destruct (Hook.encode_uint8 status) as [v|]; [|discriminate].
    destruct (Hook.decode_DeviceStatus v) as [st|]; [|discriminate].
    unfold registerDevice, onlyAuthorized, require, Hook.submit.
    destruct (technician_at s _ || _); [|intros H; injection H as <-; by left].
    destruct (negb (exists_ (device_at s deviceId)));
      [|intros H; injection H as <-; by right].
    rewrite Hn1, Hn2. discriminate.
Qed.

Lemma hook_register_outcome_witness :
  exists st e1 e2,
    Integer 2 = Integer (Z.of_N (HookViews.statusNumber st))
    /\ encryptString SampleCipher.encrypt Sample.iv (js "ok")
         (Hook.address_string Sample.technician_account)
         (Hook.chainId Sample.technician_account) = Ok e1
    /\ encryptString SampleCipher.encrypt Sample.iv' (js "42")
         (Hook.address_string Sample.technician_account)
         (Hook.chainId Sample.technician_account) = Ok e2
    /\ Hook.walletClient Sample.client = true
    /\ Sample.isAddress (Hook.CONTRACT_ADDRESS Sample.client) = true
    /\ authorized Scenario.with_technician
         (Hook.address_sender Sample.technician_account) = true
    /\ exists_ (device_at Scenario.with_technician "dev-007") = false
    /\ device_at Sample.after_hook_register "dev-007"
       = mkDevice "Pump" "Infusion" st 1700100000 (1700100000 + 2592000)%N
           (Hook.toUtf8Bytes e1) (Hook.toUtf8Bytes e2) true
    /\ HookViews.getDeviceInfo Sample.isAddress Sample.client
         Sample.after_hook_register "dev-007"
       = (if Hook.publicClient Sample.client
          then Some (HookViews.mkDeviceInfo "dev-007" "Pump" "Infusion"
                       (HookViews.statusNumber st) 1700100000
                       (1700100000 + 2592000)%N)
          else None)
    /\ (forall j, j <> "dev-007"%string ->
          device_at Sample.after_hook_register j
          = device_at Scenario.with_technician j).
Proof.
  apply (hook_register_outcome SampleCipher.encrypt Sample.isAddress Sample.client
           Sample.technician_account 1700100000 1700100005 Sample.iv Sample.iv'
           Scenario.with_technician "dev-007" "Pump" "Infusion" (Integer 2)
           (js "ok") (js "42")).
  vm_compute. reflexivity.
Defined.

(** [updateMaintenance] of the hook.  A success means that the status
    given is the number of a member of the enum, that the wallet client
    is there and the contract address passes [ethers.isAddress], that the
    account passes [onlyAuthorized] and the record existed; it keeps the
    name and type of the record, stores the status given, the time of
    the call, thirty days later, and the UTF-8 bytes of the two
    envelopes, and leaves the other records alone.  A revert that
    reaches the caller with a reason has one of the reasons "Not
    authorized technician" and "Device does not exist". *)
Theorem hook_update_outcome
    (subtle_encrypt : CryptoKey -> list Z -> list Z -> option (list Z))
    (isAddress : list Z -> bool) (cl : Hook.Client)
    (acct : Hook.Account) (now timestamp : N) (ivNotes ivCalibration : list Z)
    (s : State) (deviceId : string) (status : number)
    (notes calibration : list Z) :
  (forall s',
     Hook.updateMaintenance subtle_encrypt isAddress cl acct now timestamp
       ivNotes ivCalibration s deviceId status notes calibration = Hook.Ok s' ->
     exists st e1 e2,
       status = Integer (Z.of_N (HookViews.statusNumber st))
       /\ encryptString subtle_encrypt ivNotes notes
            (Hook.address_string acct) (Hook.chainId acct) = Ok e1
       /\ encryptString subtle_encrypt ivCalibration calibration
            (Hook.address_string acct) (Hook.chainId acct) = Ok e2
       /\ Hook.walletClient cl = true
       /\ isAddress (Hook.CONTRACT_ADDRESS cl) = true
       /\ authorized s (Hook.address_sender acct) = true
       /\ exists_ (device_at s deviceId) = true
       /\ device_at s' deviceId
          = mkDevice (name (device_at s deviceId)) (deviceType (device_at s deviceId))
              st now (now + 2592000)%N
              (Hook.toUtf8Bytes e1) (Hook.toUtf8Bytes e2) true
       /\ (forall j, j <> deviceId -> device_at s' j = device_at s j))
  /\ (forall reason,
        Hook.updateMaintenance subtle_encrypt isAddress cl acct now timestamp
          ivNotes ivCalibration s deviceId status notes calibration
        = Hook.Throw (Hook.CallException (Some reason)) ->
        reason = "Not authorized technician"%string
        \/ reason = "Device does not exist"%string).
Proof.
  split.
  - intros s' H.
    apply hook_update_inv in H
      as (e1 & e2 & st & r & l & _ & He1 & He2 & Hg & Hst & Hupd).
    exists st, e1, e2.
    apply getContract_ok_inv in Hg as (Hw & Hv & Ha).
    apply updateMaintenance_success_inv in Hupd as (Hauth & Hex & ->).
    do 7 (split; [done|]).
    destruct s as [d a o]; cbn [devices authorizedTechnicians owner].
    split; [by rewrite device_at_insert_eq|].
    intros j Hj. by apply device_at_insert_ne.
  - intros reason. unfold Hook.updateMaintenance.
    destruct (negb (Hook.connected acct) || (Hook.chainId acct =? 0)%N);
      [discriminate|].
    destruct (encryptString _ ivNotes _ _ _) as [e1|] eqn:He1; [|discriminate].
    destruct (encryptString _ ivCalibration _ _ _) as [e2|] eqn:He2; [|discriminate].
    pose proof (envelope_bytes_nonempty _ _ _ _ _ _ He1) as Hn1.
    pose proof (envelope_bytes_nonempty _ _ _ _ _ _ He2) as Hn2.
    destruct (Hook.getContract isAddress cl) as [[]|e] eqn:Eg.
    2:{ intros H. apply getContract_throw_inv in Eg. injection H as ->.
        destruct Eg as [E|[E|E]]; discriminate. }
    cbv zeta. unfold Hook.send.
    destruct (Hook.encode_uint8 status) as [v|]; [|discriminate].
    destruct (Hook.decode_DeviceStatus v) as [st|]; [|discriminate].
    unfold updateMaintenance, onlyAuthorized, require, Hook.submit.
    destruct (technician_at s _ || _); [|intros H; injection H as <-; by left].
    destruct (exists_ (device_at s deviceId));
      [|intros H; injection H as <-; by right].
    rewrite Hn1, Hn2. discriminate.
Qed.

Lemma hook_update_outcome_witness :
  exists st e1 e2,
    Integer 1 = Integer (Z.of_N (HookViews.statusNumber st))
    /\ encryptString SampleCipher.encrypt Sample.iv (js "ok")
         (Hook.address_string Sample.technician_account)
         (Hook.chainId Sample.technician_account) = Ok e1
    /\ encryptString SampleCipher.encrypt Sample.iv' (js "42")
         (Hook.address_string Sample.technician_account)
         (Hook.chainId Sample.technician_account) = Ok e2
    /\ Hook.walletClient Sample.client = true
    /\ Sample.isAddress (Hook.CONTRACT_ADDRESS Sample.client) = true
    /\ authorized Scenario.with_technician
         (Hook.address_sender Sample.technician_account) = true
    /\ exists_ (device_at Scenario.with_technician "dev-005") = true
    /\ device_at Sample.after_hook_update "dev-005"
       = mkDevice (name (device_at Scenario.with_technician "dev-005"))
           (deviceType (device_at Scenario.with_technician "dev-005"))
           st 1700100000 (1700100000 + 2592000)%N
           (Hook.toUtf8Bytes e1) (Hook.toUtf8Bytes e2) true
    /\ (forall j, j <> "dev-005"%string ->
          device_at Sample.after_hook_update j
          = device_at Scenario.with_technician j).
Proof.
  apply (hook_update_outcome SampleCipher.encrypt Sample.isAddress Sample.client
           Sample.technician_account 1700100000 1700100005 Sample.iv Sample.iv'
           Scenario.with_technician "dev-005" (Integer 1) (js "ok") (js "42")).
  vm_compute. reflexivity.
Defined.

(** A status that is no member of the enum never gets through: a
    Number outside [uint8] is refused by the encoder, and 3 to 255 make
    the contract revert without a reason. *)
Example hook_update_status_3 :
  Hook.updateMaintenance SampleCipher.encrypt Sample.isAddress Sample.client
    Sample.technician_account 1700100000 1700100005 Sample.iv Sample.iv'
    Scenario.with_technician "dev-005" (Integer 3) (js "ok") (js "42")
  = Hook.Throw (Hook.CallException None)
  /\ Hook.updateMaintenance SampleCipher.encrypt Sample.isAddress Sample.client
       Sample.technician_account 1700100000 1700100005 Sample.iv Sample.iv'
       Scenario.with_technician "dev-005" (Integer 256) (js "ok") (js "42")
     = Hook.Throw Hook.InvalidArgument.
Proof. split; by vm_compute. Qed.

Lemma bytesToHex_zeros bs :
  Forall (fun b => b = 0) bs -> Forall (fun c => c = 48) (bytesToHex bs).
Proof.
  induction 1 as [|b bs -> _ IH]; [constructor|].
  rewrite bytesToHex_cons. change (hexOfOctet 0) with [48; 48].
  by repeat constructor.
Qed.

Lemma zeros_one_colon n :
  count_occ Z.eq_dec (bytesToEncryptedString (repeat 0 n) 12) 58 = 1%nat.
Proof.
  assert (forall l, Forall (fun c => c = 48) l -> count_occ Z.eq_dec l 58 = 0%nat) as Hc.
  { induction 1 as [|c l -> _ IH]; [reflexivity|]. cbn [count_occ].
    destruct (Z.eq_dec 48 58); [lia|done]. }
  assert (Forall (fun b => b = 0) (repeat 0 n)) as Hz.
  { apply Forall_forall. intros x Hx. by apply list_elem_of_In, repeat_spec in Hx. }
  unfold bytesToEncryptedString, slice_to, slice_from.
  rewrite !count_occ_app.
  rewrite (Hc (bytesToHex (take 12 (repeat 0 n))))
    by by apply bytesToHex_zeros, Forall_take.
  rewrite (Hc (bytesToHex (drop 12 (repeat 0 n))))
    by by apply bytesToHex_zeros, Forall_drop.
  reflexivity.
Qed.

Lemma bytesToEncryptedString_zeros n :
  Forall (fun c => c = 48 \/ c = 58) (bytesToEncryptedString (repeat 0 n) 12).
Proof.
  assert (Forall (fun b => b = 0) (repeat 0 n)) as Hz.
  { apply Forall_forall. intros x Hx. by apply list_elem_of_In, repeat_spec in Hx. }
  unfold bytesToEncryptedString, slice_to, slice_from.
  apply Forall_app. split; [|apply Forall_app; split].
  - eapply Forall_impl; [apply bytesToHex_zeros, Forall_take, Hz|]. intros c ->. by left.
  - change (js ":") with [58]. constructor; [by right|constructor].
  - eapply Forall_impl; [apply bytesToHex_zeros, Forall_drop, Hz|]. intros c ->. by left.
Qed.

Lemma Uint8Array_ofHexLiteral_zeros allocatable value a :
  Uint8Array_ofHexLiteral allocatable value = Some a -> exists n, a = repeat 0 n.
Proof.
  unfold Uint8Array_ofHexLiteral. cbv zeta.
  destruct (_ && _); [|discriminate]. intros H. injection H as <-. by eexists.
Qed.

(** The read of the hook never returns stored ciphertext.  For a
    connected account it returns [null] when [checkAuthorization] is
    false (the public client being there) and when the record does not
    exist; and what it returns otherwise are two strings of the digit 0
    around one [:], on a record that exists and for an account that
    passes [onlyAuthorized]: [new Uint8Array] is given the string ethers
    made of the bytes and takes it for a length. *)
Theorem hook_read_null_or_zeros
    (isAddress : list Z -> bool) (allocatable : Z -> bool) (cl : Hook.Client)
    (acct : Hook.Account) (timestamp : N) (s : State) (deviceId : string) :
  Hook.connected acct = true ->
  (Hook.publicClient cl = true ->
   HookViews.checkAuthorization isAddress cl acct s = false ->
   Hook.getEncryptedRecords isAddress allocatable cl acct timestamp s deviceId
   = Hook.Ok None)
  /\ (exists_ (device_at s deviceId) = false ->
      Hook.getEncryptedRecords isAddress allocatable cl acct timestamp s deviceId
      = Hook.Ok None)
  /\ (forall notesStr calibrationStr,
        Hook.getEncryptedRecords isAddress allocatable cl acct timestamp s deviceId
        = Hook.Ok (Some (notesStr, calibrationStr)) ->
        authorized s (Hook.address_sender acct) = true
        /\ exists_ (device_at s deviceId) = true
        /\ Forall (fun c => c = 48 \/ c = 58) notesStr
        /\ Forall (fun c => c = 48 \/ c = 58) calibrationStr
        /\ count_occ Z.eq_dec notesStr 58 = 1%nat
        /\ count_occ Z.eq_dec calibrationStr 58 = 1%nat).
Proof.
  intros Hconn.
  unfold Hook.getEncryptedRecords, HookViews.checkAuthorization,
    Hook.getContract, Hook.getPublicContract, isAuthorized,
    getEncryptedRecords, onlyAuthorized, require.
  rewrite Hconn.
  change (msg_sender (Hook.env_of acct timestamp)) with (Hook.address_sender acct).
  fold (authorized s (Hook.address_sender acct)).
  split; [|split].
  - intros -> Hca. cbn [negb] in Hca.
    destruct (negb (Hook.walletClient cl)); [reflexivity|].
    destruct (Hook.validateContractAddress isAddress cl) as [[]|]; [|reflexivity].
    by rewrite Hca.
  - intros Hex.
    destruct (negb (Hook.walletClient cl)); [reflexivity|].
    destruct (Hook.validateContractAddress isAddress cl) as [[]|]; [|reflexivity].
    destruct (authorized s (Hook.address_sender acct)); [|reflexivity].
    by rewrite Hex.
  - intros notesStr calibrationStr.
    destruct (negb (Hook.walletClient cl)); [discriminate|].
    destruct (Hook.validateContractAddress isAddress cl) as [[]|]; [|discriminate].
    destruct (authorized s (Hook.address_sender acct)); [|discriminate].
    destruct (exists_ (device_at s deviceId)); [|discriminate].
    cbv zeta.
    destruct (Uint8Array_ofHexLiteral allocatable
                (Hook.hexlify (encryptedNotes (device_at s deviceId))))
      as [a0|] eqn:E0; [|discriminate].
    destruct (Uint8Array_ofHexLiteral allocatable
                (Hook.hexlify (encryptedCalibration (device_at s deviceId))))
      as [a1|] eqn:E1; [|discriminate].
    apply Uint8Array_ofHexLiteral_zeros in E0 as [n0 ->].
    apply Uint8Array_ofHexLiteral_zeros in E1 as [n1 ->].
    intros H.
    assert (notesStr = bytesToEncryptedString (repeat 0 n0) 12) as -> by congruence.
    assert (calibrationStr = bytesToEncryptedString (repeat 0 n1) 12) as ->
      by congruence.
    split; [done|]. split; [done|].
    split; [apply bytesToEncryptedString_zeros|].
    split; [apply bytesToEncryptedString_zeros|].
    split; apply zeros_one_colon.
Qed.

Lemma hook_read_null_or_zeros_witness :
  (Hook.publicClient Sample.client = true ->
   HookViews.checkAuthorization Sample.isAddress Sample.client
     Sample.technician_account Sample.with_short_records = false ->
   Hook.getEncryptedRecords Sample.isAddress Sample.allocatable Sample.client
     Sample.technician_account 1700100009 Sample.with_short_records "dev-006"
   = Hook.Ok None)
  /\ (exists_ (device_at Sample.with_short_records "dev-006") = false ->
      Hook.getEncryptedRecords Sample.isAddress Sample.allocatable Sample.client
        Sample.technician_account 1700100009 Sample.with_short_records "dev-006"
      = Hook.Ok None)
  /\ (forall notesStr calibrationStr,
        Hook.getEncryptedRecords Sample.isAddress Sample.allocatable Sample.client
          Sample.technician_account 1700100009 Sample.with_short_records "dev-006"
        = Hook.Ok (Some (notesStr, calibrationStr)) ->
        authorized Sample.with_short_records
          (Hook.address_sender Sample.technician_account) = true
        /\ exists_ (device_at Sample.with_short_records "dev-006") = true
        /\ Forall (fun c => c = 48 \/ c = 58) notesStr
        /\ Forall (fun c => c = 48 \/ c = 58) calibrationStr
        /\ count_occ Z.eq_dec notesStr 58 = 1%nat
        /\ count_occ Z.eq_dec calibrationStr 58 = 1%nat).
Proof.
  apply (hook_read_null_or_zeros Sample.isAddress Sample.allocatable Sample.client
           Sample.technician_account 1700100009 Sample.with_short_records "dev-006").
  reflexivity.
Defined.

(** The three outcomes on concrete storages: the bytes [00 05] and [02]
    come back as five and two zero bytes, an envelope stored by the hook
    comes back as [null], and so does every read of an outsider. *)
Example hook_read_outcomes :
  Hook.getEncryptedRecords Sample.isAddress Sample.allocatable Sample.client
    Sample.technician_account 1700100009 Sample.with_short_records "dev-006"
  = Hook.Ok (Some (js "0000000000:", js "0000:"))
  /\ HookViews.checkAuthorization Sample.isAddress Sample.client
       Sample.technician_account Sample.after_hook_update = true
  /\ Hook.getEncryptedRecords Sample.isAddress Sample.allocatable Sample.client
       Sample.technician_account 1700100009 Sample.after_hook_update "dev-005"
     = Hook.Ok None
  /\ HookViews.checkAuthorization Sample.isAddress Sample.client
       Sample.outsider_account Sample.with_short_records = false
  /\ Hook.getEncryptedRecords Sample.isAddress Sample.allocatable Sample.client
       Sample.outsider_account 1700100009 Sample.with_short_records "dev-006"
     = Hook.Ok None.
Proof. repeat split; by vm_compute. Qed.

End EnvelopeExtras.
